(** * training_geobench_brick.py: band statistics, manifest join, dataset,
      channel adapters and class weights

    A shallow embedding of [src/training_geobench_brick.py].  Python
    dictionaries that are only looked up are [gmap]s, dictionaries that are
    iterated keep their insertion order as association lists, a pandas
    DataFrame is the list of its rows, numpy arrays and torch tensors are
    nested lists, and exceptions are values of [exn] carried by [result].

    Arithmetic is written once against the interface [Scalar] and read at
    three instances: [binary64] (numpy and Python floats, IEEE double),
    [binary32] (torch tensors, IEEE single) and [exact] (the real numbers,
    where rounding disappears). *)

From Stdlib Require Import ZArith Reals Lra Floats Ascii String List Permutation.
From stdpp Require Import base gmap list strings.
Import ListNotations.

Set Warnings "-clear-no-such-hyp".

Local Open Scope string_scope.
Local Open Scope Z_scope.

(** ** Exceptions and results *)

Inductive pykey :=
  | KNone
  | KStr (s : string)
  | KInt (n : Z).

Inductive exn :=
  | KeyError (key : pykey)
  | IndexError
  | OSError
  | TypeError
  | ValueError
  | RuntimeError.

Inductive result (T : Type) :=
  | Ok (v : T)
  | Err (e : exn).
Arguments Ok {T} v.
Arguments Err {T} e.

Definition bind {T U : Type} (r : result T) (k : T → result U) : result U :=
  match r with
  | Ok v => k v
  | Err e => Err e
  end.

Notation "'let*' x ':=' r 'in' k" := (bind r (λ x, k))
  (at level 10, x pattern, r at level 100, k at level 200).

Fixpoint mapM {T U : Type} (f : T → result U) (l : list T) : result (list U) :=
  match l with
  | [] => Ok []
  | x :: r => let* y := f x in let* ys := mapM f r in Ok (y :: ys)
  end.

(** The exception class the script itself raises for a configuration mistake
    ([raise ValueError("Unsupported model type. ...")] in [main]). *)
Definition configuration_error (e : exn) : bool :=
  match e with
  | ValueError => true
  | _ => false
  end.

(** ** Numbers *)

Class Scalar (A : Type) := {
  s_of_Z : Z → A;
  s_add : A → A → A;
  s_sub : A → A → A;
  s_mul : A → A → A;
  s_div : A → A → A;
  s_sqrt : A → A;
  s_leb : A → A → bool;
  (** [torch.tensor(_, dtype=torch.float32)] *)
  s_float32 : A → A
}.

(** An integer converted to double, rounded to nearest even. *)
Definition float_of_Z (z : Z) : float :=
  match z with
  | Z0 => 0%float
  | Zpos _ => SF2Prim (binary_normalize 53 1024 z 0 false)
  | Zneg _ => SF2Prim (binary_normalize 53 1024 z 0 true)
  end.

(** A double rounded to the nearest single; the result is again stored in a
    double, which holds every single exactly. *)
Definition to_float32 (x : float) : float :=
  match Prim2SF x with
  | S754_finite s m e => SF2Prim (binary_normalize 24 128 (cond_Zopp s (Zpos m)) e s)
  | _ => x
  end.

#[export] Instance binary64 : Scalar float := {|
  s_of_Z := float_of_Z;
  s_add := PrimFloat.add;
  s_sub := PrimFloat.sub;
  s_mul := PrimFloat.mul;
  s_div := PrimFloat.div;
  s_sqrt := PrimFloat.sqrt;
  s_leb := PrimFloat.leb;
  s_float32 := to_float32
|}.

(** Single precision: each operation is the double operation rounded once
    more to single, which is the correctly rounded single result. *)
Definition binary32 : Scalar float := {|
  s_of_Z := λ z, to_float32 (float_of_Z z);
  s_add := λ x y, to_float32 (PrimFloat.add x y);
  s_sub := λ x y, to_float32 (PrimFloat.sub x y);
  s_mul := λ x y, to_float32 (PrimFloat.mul x y);
  s_div := λ x y, to_float32 (PrimFloat.div x y);
  s_sqrt := λ x, to_float32 (PrimFloat.sqrt x);
  s_leb := PrimFloat.leb;
  s_float32 := to_float32
|}.

#[export] Instance exact : Scalar R := {|
  s_of_Z := IZR;
  s_add := Rplus;
  s_sub := Rminus;
  s_mul := Rmult;
  s_div := Rdiv;
  s_sqrt := R_sqrt.sqrt;
  s_leb := λ x y, if Rle_dec x y then true else false;
  s_float32 := λ x, x
|}.

Definition is_nan (x : float) : bool := negb (PrimFloat.eqb x x).

(** ** Module constants *)

Definition data_path : string := "../m-brick-kiln/".
Definition brickkiln_labels : list string := ["not brick kiln"; "brick kiln"].
Definition n_bands : Z := 13.

(** ** HDF5 files *)

(** A two-dimensional numpy array, row by row. *)
Definition ndarray (A : Type) := list (list A).

(** What [f[b]] names: a dataset, read whole by [f[b][:]], or a group, on
    which the slice raises. *)
Inductive h5_entry (A : Type) :=
  | Dataset (arr : ndarray A)
  | Group.
Arguments Dataset {A} arr.
Arguments Group {A}.

(** An opened file: its keys in the order [f.keys()] yields them. *)
Definition h5file (A : Type) := list (string * h5_entry A).

(** The disk: [None] where [h5py.File(filename, 'r')] raises. *)
Definition filesystem (A : Type) := string → option (h5file A).

Definition h5_open {A} (fs : filesystem A) (filename : string) : result (h5file A) :=
  match fs filename with
  | Some f => Ok f
  | None => Err OSError
  end.

Definition h5_read {A} (e : h5_entry A) : result (ndarray A) :=
  match e with
  | Dataset arr => Ok arr
  | Group => Err TypeError
  end.

(** ** DataFrame rows *)

Record example_row := {
  image_id : string;
  filename : string;
  bands : Z;
  split : string;
  label : option string
}.

Record band_row (A : Type) := {
  Band : string;
  Mean : A;
  Std : A;
  Pixels : Z
}.
Arguments Band {A} _.
Arguments Mean {A} _.
Arguments Std {A} _.
Arguments Pixels {A} _.

(** [df[name]].  Every frame of the script is [pd.DataFrame(data)] for a list
    [data] of row dictionaries: it has the columns of its rows, and no column
    at all when the list is empty. *)
Definition df_column {T} (name : string) (proj : example_row → T)
    (df : list example_row) : result (list T) :=
  match df with
  | [] => Err (KeyError (KStr name))
  | _ => Ok (map proj df)
  end.

(** ** compute_band_stats *)

Definition wrap_int64 (z : Z) : Z := (z + 2 ^ 63) mod 2 ^ 64 - 2 ^ 63.

Section BandStats.
Context {A : Type} `{Scalar A}.

(** [band.sum()]: the elements added in storage order.  numpy adds long
    arrays in blocks; the order differs from this one only in rounding. *)
Definition np_sum (a : ndarray A) : A :=
  match concat a with
  | [] => s_of_Z 0
  | x :: r => fold_left s_add r x
  end.

Definition np_square (a : ndarray A) : ndarray A :=
  map (map (λ x, s_mul x x)) a.

Definition np_size (a : ndarray A) : Z := Z.of_nat (length (concat a)).

Record accum := {
  band_sum : list A;
  band_sq_sum : list A;
  band_pixel_counts : list Z
}.

(** [arr[i] = f(arr[i])] on a numpy vector: an index past the end raises. *)
Definition update_at {T} (i : nat) (f : T → T) (l : list T) : result (list T) :=
  match l !! i with
  | Some old => Ok (<[i := f old]> l)
  | None => Err IndexError
  end.

(** The three [+=] of one loop iteration. *)
Definition accumulate_band (i : nat) (band : ndarray A) (acc : accum) : result accum :=
  let* s := update_at i (λ old, s_add old (np_sum band)) (band_sum acc) in
  let* q := update_at i (λ old, s_add old (np_sum (np_square band))) (band_sq_sum acc) in
  let* c := update_at i (λ old, wrap_int64 (old + np_size band)) (band_pixel_counts acc) in
  Ok {| band_sum := s; band_sq_sum := q; band_pixel_counts := c |}.

(** [for i, b in enumerate(f.keys())]: the accumulators as the loop leaves
    them, and the exception that ended it, if any.  What was added before
    the exception stays added. *)
Fixpoint accumulate_file (i : nat) (entries : h5file A) (acc : accum)
  : accum * option exn :=
  match entries with
  | [] => (acc, None)
  | (_, e) :: rest =>
      match h5_read e with
      | Err ex => (acc, Some ex)
      | Ok band =>
          match accumulate_band i band acc with
          | Err ex => (acc, Some ex)
          | Ok acc' => accumulate_file (S i) rest acc'
          end
      end
  end.

(** The [try] block for one file. *)
Definition try_file (fs : filesystem A) (fname : string) (acc : accum)
  : accum * option exn :=
  match h5_open fs fname with
  | Err ex => (acc, Some ex)
  | Ok f => accumulate_file 0 f acc
  end.

(** [for filename in df['filename']], with the lines printed by the
    [except] branch collected in order. *)
Fixpoint accumulate_files (fs : filesystem A) (fnames : list string) (acc : accum)
  : accum * list (string * exn) :=
  match fnames with
  | [] => (acc, [])
  | fname :: rest =>
      let '(acc', failure) := try_file fs fname acc in
      let '(acc'', log) := accumulate_files fs rest acc' in
      (acc'', match failure with
              | Some ex => (fname, ex) :: log
              | None => log
              end)
  end.

Definition zeros {T} (z : T) (n : nat) : list T := replicate n z.

Definition band_mean (s : A) (n : Z) : A := s_div s (s_of_Z n).

(** [sqrt(E[x^2] - (E[x])^2)] *)
Definition band_std (s q : A) (n : Z) : A :=
  let m := band_mean s n in
  s_sqrt (s_sub (s_div q (s_of_Z n)) (s_mul m m)).

Fixpoint stats_rows (names : list string) (s q : list A) (c : list Z)
  : list (band_row A) :=
  match names, s, q, c with
  | b :: names', si :: s', qi :: q', ci :: c' =>
      {| Band := b; Mean := band_mean si ci; Std := band_std si qi ci; Pixels := ci |}
      :: stats_rows names' s' q' c'
  | _, _, _, _ => []
  end.

(** The returned DataFrame and the printed failures.  [df['filename']]
    raises on a frame without that column. *)
Definition compute_band_stats (fs : filesystem A) (df : list example_row)
    (band_names : list string) : result (list (band_row A) * list (string * exn)) :=
  let n := length band_names in
  let acc0 := {| band_sum := zeros (s_of_Z 0) n;
                 band_sq_sum := zeros (s_of_Z 0) n;
                 band_pixel_counts := zeros 0 n |} in
  let* fnames := df_column "filename" filename df in
  let '(acc, log) := accumulate_files fs fnames acc0 in
  Ok (stats_rows band_names (band_sum acc) (band_sq_sum acc) (band_pixel_counts acc), log).

End BandStats.
Arguments accum : clear implicits.

(** ** main: label map, split frames *)

Definition ends_with_slash (s : string) : bool :=
  match String.get (String.length s - 1) s with
  | Some c => bool_decide (c = "/"%char)
  | None => false
  end.

(** [os.path.join(a, b)] for two components on a POSIX system. *)
Definition os_path_join (a b : string) : string :=
  if String.prefix "/" b then b
  else if bool_decide (a = "") || ends_with_slash a then a ++ b
  else a ++ "/" ++ b.

Definition images_path : string := data_path.

(** A JSON object whose values are lists of image ids, in file order. *)
Definition json_lists := list (string * list string).

(** [d[key]] on such an object. *)
Definition json_get (d : json_lists) (key : string) : result (list string) :=
  match list_find (λ kv, kv.1 = key) d with
  | Some (_, (_, v)) => Ok v
  | None => Err (KeyError (KStr key))
  end.

Definition brickkiln_label (i : nat) : string := default "" (brickkiln_labels !! i).

(** The body of the inner loop of the label-map inversion. *)
Definition invert_step (label : string) (m : gmap string string) (img_id : string)
  : gmap string string :=
  if decide (label = "0") then <[img_id := brickkiln_label 0]> m
  else if decide (label = "1") then <[img_id := brickkiln_label 1]> m
  else m.

(** The two nested loops, from a given state of the dictionary. *)
Definition invert_from (m : gmap string string) (label_map : json_lists)
  : gmap string string :=
  fold_left (λ m '(label, image_list), fold_left (invert_step label) image_list m)
            label_map m.

(** [image_to_label_map] after the loops. *)
Definition invert_label_map (label_map : json_lists) : gmap string string :=
  invert_from ∅ label_map.

(** One of the three identical frame-building loops. *)
Definition build_frame (split_name : string) (ids : list string)
    (image_to_label_map : gmap string string) : list example_row :=
  map (λ img_id, {| image_id := img_id;
                    filename := os_path_join images_path (img_id ++ ".hdf5");
                    bands := n_bands;
                    split := split_name;
                    label := image_to_label_map !! img_id |}) ids.

Definition band_names : list string :=
  ["01 - Coastal aerosol"; "02 - Blue"; "03 - Green"; "04 - Red";
   "05 - Vegetation Red Edge"; "06 - Vegetation Red Edge";
   "07 - Vegetation Red Edge"; "08 - NIR"; "08A - Vegetation Red Edge";
   "09 - Water vapour"; "10 - SWIR - Cirrus"; "11 - SWIR"; "12 - SWIR"].

Definition label2idx_main : gmap string Z :=
  <["brick kiln" := 1]> (<["not brick kiln" := 0]> ∅).

(** ** GEOBenchMSIDataset and GEOBenchMSIDataModule *)

Record band_stat (A : Type) := {
  mean : A;
  std : A
}.
Arguments mean {A} _.
Arguments std {A} _.

Record GEOBenchMSIDataset (A : Type) := {
  ds_df : list example_row;
  ds_label2idx : gmap string Z;
  ds_band_stats : gmap string (band_stat A)
}.
Arguments ds_df {A} _.
Arguments ds_label2idx {A} _.
Arguments ds_band_stats {A} _.

Record GEOBenchMSIDataModule (A : Type) := {
  dm_train_df : list example_row;
  dm_val_df : list example_row;
  dm_test_df : list example_row;
  dm_label2idx : gmap string Z;
  dm_band_stats : gmap string (band_stat A);
  dm_batch_size : Z
}.
Arguments dm_train_df {A} _.
Arguments dm_val_df {A} _.
Arguments dm_test_df {A} _.
Arguments dm_label2idx {A} _.
Arguments dm_band_stats {A} _.
Arguments dm_batch_size {A} _.

Record datasets (A : Type) := {
  train_dataset : GEOBenchMSIDataset A;
  val_dataset : GEOBenchMSIDataset A;
  test_dataset : GEOBenchMSIDataset A
}.
Arguments train_dataset {A} _.
Arguments val_dataset {A} _.
Arguments test_dataset {A} _.

(** A channel-first image [C][H][W]. *)
Definition image (A : Type) := list (ndarray A).

Definition dict_get {V} (m : gmap string V) (key : option string) : result V :=
  match key with
  | None => Err (KeyError KNone)
  | Some k => match m !! k with
              | Some v => Ok v
              | None => Err (KeyError (KStr k))
              end
  end.

Definition ndarray_shape {A} (a : ndarray A) : nat * nat :=
  (length a, match a with r :: _ => length r | [] => 0%nat end).

(** [np.stack(bands, axis=0)]: at least one array, all of one shape. *)
Definition np_stack {A} (arrs : list (ndarray A)) : result (image A) :=
  match arrs with
  | [] => Err ValueError
  | a :: rest =>
      if forallb (λ b, bool_decide (ndarray_shape b = ndarray_shape a)) rest
      then Ok arrs else Err ValueError
  end.

Section Dataset.
Context {A : Type} `{Scalar A}.

Definition GEOBenchMSIDataset_init (dataframe : list example_row)
    (label2idx : gmap string Z) (band_stats : gmap string (band_stat A))
  : GEOBenchMSIDataset A :=
  {| ds_df := dataframe; ds_label2idx := label2idx; ds_band_stats := band_stats |}.

(** [self.df.loc[idx, column]] after [reset_index(drop=True)]. *)
Definition df_loc {T} (df : list example_row) (idx : nat) (column : string)
    (proj : example_row → T) : result T :=
  match df !! idx with
  | Some row => Ok (proj row)
  | None => Err (KeyError (KInt (Z.of_nat idx)))
  end.

(** [(band - stats["mean"]) / stats["std"]] on one pixel. *)
Definition normalize_value (stats : band_stat A) (x : A) : A :=
  s_div (s_sub x (mean stats)) (std stats).

Definition normalize_band (stats : band_stat A) (band : ndarray A) : ndarray A :=
  map (map (normalize_value stats)) band.

(** One iteration of the loop over [f.keys()]. *)
Definition read_normalized (band_stats : gmap string (band_stat A))
    (entry : string * h5_entry A) : result (ndarray A) :=
  let* band := h5_read entry.2 in
  let* stats := dict_get band_stats (Some entry.1) in
  Ok (normalize_band stats band).

Definition torch_tensor_float32 (img : image A) : image A :=
  map (map (map s_float32)) img.

Definition getitem (fs : filesystem A) (self : GEOBenchMSIDataset A) (idx : nat)
  : result (image A * Z) :=
  let* img_path := df_loc (ds_df self) idx "filename" filename in
  let* lbl := df_loc (ds_df self) idx "label" label in
  let* label_idx := dict_get (ds_label2idx self) lbl in
  let* f := h5_open fs img_path in
  let* normalized := mapM (read_normalized (ds_band_stats self)) f in
  let* img := np_stack normalized in
  Ok (torch_tensor_float32 img, label_idx).

Definition setup (self : GEOBenchMSIDataModule A) : datasets A :=
  {| train_dataset :=
       GEOBenchMSIDataset_init (dm_train_df self) (dm_label2idx self) (dm_band_stats self);
     val_dataset :=
       GEOBenchMSIDataset_init (dm_val_df self) (dm_label2idx self) (dm_band_stats self);
     test_dataset :=
       GEOBenchMSIDataset_init (dm_test_df self) (dm_label2idx self) (dm_band_stats self) |}.

(** The inverse transformation the specification names, [x*std+mean]; the
    script never computes it. *)
Definition denormalize_value (stats : band_stat A) (x : A) : A :=
  s_add (s_mul x (std stats)) (mean stats).

Definition denormalize_band (stats : band_stat A) (band : ndarray A) : ndarray A :=
  map (map (denormalize_value stats)) band.

End Dataset.

(** ** MSIEmbedder1 and MSIEmbedder2 *)

(** [nn.Conv2d(in_channels, out_channels, kernel_size=1)]: one weight per
    pair of output and input channel, one bias per output channel. *)
Record Conv2d (A : Type) := {
  in_channels : nat;
  out_channels : nat;
  weight : nat → nat → A;
  bias : nat → A
}.
Arguments in_channels {A} _.
Arguments out_channels {A} _.
Arguments weight {A} _ _ _.
Arguments bias {A} _ _.

Record MSIEmbedder1 (A : Type) := {
  proj : Conv2d A
}.
Arguments proj {A} _.

(** [proj2] is [Sequential(conv, ReLU(), conv, ReLU())]. *)
Record MSIEmbedder2 (A : Type) := {
  proj2_0 : Conv2d A;
  proj2_2 : Conv2d A
}.
Arguments proj2_0 {A} _.
Arguments proj2_2 {A} _.

Section Embedders.
Context {A : Type} (S : Scalar A).

(** [acc + w * plane], pixel by pixel. *)
Definition plane_axpy (w : A) (plane acc : ndarray A) : ndarray A :=
  zip_with (zip_with (λ a v, s_add a (s_mul w v))) acc plane.

(** Output channel [o] of one sample: the bias plus the weighted input
    channels, added in channel order. *)
Definition conv_channel (conv : Conv2d A) (sample : image A) (o : nat) : ndarray A :=
  fold_left (λ acc '(c, plane), plane_axpy (weight conv o c) plane acc)
            (zip (seq 0 (length sample)) sample)
            (map (map (λ _, bias conv o)) (hd [] sample)).

Definition conv_sample (conv : Conv2d A) (sample : image A) : result (image A) :=
  if bool_decide (length sample = in_channels conv)
  then Ok (map (conv_channel conv sample) (seq 0 (out_channels conv)))
  else Err RuntimeError.

Definition Conv2d_forward (conv : Conv2d A) (x : list (image A)) : result (list (image A)) :=
  mapM (conv_sample conv) x.

Definition relu (x : A) : A := if s_leb x (s_of_Z 0) then s_of_Z 0 else x.

Definition ReLU_forward (x : list (image A)) : list (image A) :=
  map (map (map (map relu))) x.

(** The constructors; [w], [b] are the parameter values of the layers. *)
Definition MSIEmbedder1_init (in_ch : nat) (w : nat → nat → A) (b : nat → A)
  : MSIEmbedder1 A :=
  {| proj := {| in_channels := in_ch; out_channels := 3; weight := w; bias := b |} |}.

Definition MSIEmbedder2_init (in_ch : nat) (w0 : nat → nat → A) (b0 : nat → A)
    (w2 : nat → nat → A) (b2 : nat → A) : MSIEmbedder2 A :=
  {| proj2_0 := {| in_channels := in_ch; out_channels := 64; weight := w0; bias := b0 |};
     proj2_2 := {| in_channels := 64; out_channels := 3; weight := w2; bias := b2 |} |}.

Definition MSIEmbedder1_forward (self : MSIEmbedder1 A) (x : list (image A))
  : result (list (image A)) :=
  Conv2d_forward (proj self) x.

Definition MSIEmbedder2_forward (self : MSIEmbedder2 A) (x : list (image A))
  : result (list (image A)) :=
  let* h := Conv2d_forward (proj2_0 self) x in
  let h := ReLU_forward h in
  let* y := Conv2d_forward (proj2_2 self) h in
  Ok (ReLU_forward y).

End Embedders.

(** Shapes: a plane is [H, W], an image [C, H, W], a batch [B, C, H, W]. *)
Definition plane_shape {A} (H W : nat) (plane : ndarray A) : Prop :=
  length plane = H ∧ Forall (λ row, length row = W) plane.

Definition image_shape {A} (C H W : nat) (sample : image A) : Prop :=
  length sample = C ∧ Forall (plane_shape H W) sample.

Definition has_shape {A} (B C H W : nat) (x : list (image A)) : Prop :=
  length x = B ∧ Forall (image_shape C H W) x.

(** Every scalar of a batch. *)
Definition elements {A} (x : list (image A)) : list A :=
  concat (concat (concat x)).

(** ** main: class weights *)

(** A Python dictionary that is iterated: its items in insertion order. *)
Definition odict (K V : Type) := list (K * V).

(** [d[k] = v]: an existing key keeps its place. *)
Fixpoint od_set {K V} `{EqDecision K} (k : K) (v : V) (d : odict K V) : odict K V :=
  match d with
  | [] => [(k, v)]
  | (k', v') :: r => if decide (k' = k) then (k, v) :: r else (k', v') :: od_set k v r
  end.

Fixpoint od_get {K V} `{EqDecision K} (k : K) (d : odict K V) : option V :=
  match d with
  | [] => None
  | (k', v') :: r => if decide (k' = k) then Some v' else od_get k r
  end.

(** The tally of the labels that are present, in order of first appearance. *)
Fixpoint tally (col : list (option string)) (acc : odict string Z) : odict string Z :=
  match col with
  | [] => acc
  | None :: r => tally r acc
  | Some l :: r => tally r (od_set l (default 0 (od_get l acc) + 1) acc)
  end.

Fixpoint insert_desc (x : string * Z) (l : odict string Z) : odict string Z :=
  match l with
  | [] => [x]
  | y :: r => if bool_decide (y.2 ≤ x.2) then x :: y :: r else y :: insert_desc x r
  end.

(** [Series.value_counts()]: missing values dropped, most frequent first;
    equal counts are kept in order of first appearance. *)
Definition value_counts (col : list (option string)) : odict string Z :=
  foldr insert_desc [] (tally col []).

Section ClassWeights.
Context {A : Type} `{Scalar A}.

(** Python's [sum] of floats: from [0], left to right. *)
Definition py_sum (l : list A) : A := fold_left s_add l (s_of_Z 0).

(** [{label2idx[label]: total / count for label, count in class_counts.items()}] *)
Fixpoint raw_class_weights (label2idx : gmap string Z) (total : Z)
    (items : odict string Z) (acc : odict Z A) : result (odict Z A) :=
  match items with
  | [] => Ok acc
  | (l, count) :: r =>
      let* k := dict_get label2idx (Some l) in
      raw_class_weights label2idx total r
        (od_set k (s_div (s_of_Z total) (s_of_Z count)) acc)
  end.

(** [{k: v / norm_factor for k, v in class_weights.items()}] *)
Definition normalize_weights (w : odict Z A) : odict Z A :=
  let norm_factor := py_sum (map snd w) in
  map (λ kv, (kv.1, s_div kv.2 norm_factor)) w.

(** Lines 445 to 449: the raw and the normalized dictionary. *)
Definition class_weights (label2idx : gmap string Z) (train_df : list example_row)
  : result (odict Z A * odict Z A) :=
  let* col := df_column "label" label train_df in
  let class_counts := value_counts col in
  let total := foldr Z.add 0 (map snd class_counts) in
  let* raw := raw_class_weights label2idx total class_counts [] in
  Ok (raw, normalize_weights raw).

(** [torch.tensor([class_weights[i] for i in range(len(class_weights))],
    dtype=torch.float32)] *)
Definition weights_tensor (w : odict Z A) : result (list A) :=
  mapM (λ i, match od_get (Z.of_nat i) w with
             | Some v => Ok (s_float32 v)
             | None => Err (KeyError (KInt (Z.of_nat i)))
             end) (seq 0 (length w)).

End ClassWeights.

(** ** main: from the two JSON files to the data module *)

Section Main.
Context {A : Type} `{Scalar A}.

(** [{row['Band']: {"mean": row["Mean"], "std": row["Std"]} for ...}] *)
Definition stats_dict_of (band_stats : list (band_row A)) : gmap string (band_stat A) :=
  fold_left (λ m row, <[Band row := {| mean := Mean row; std := Std row |}]> m)
            band_stats ∅.

Record main_state := {
  test_df : list example_row;
  val_df : list example_row;
  train_df : list example_row;
  band_stats : list (band_row A);
  stats_dict : gmap string (band_stat A);
  printed_failures : list (string * exn);
  data_module : GEOBenchMSIDataModule A;
  class_weights_dict : odict Z A;
  class_weights_tensor : list A
}.

Definition batch_size : Z := 32.

Definition main (fs : filesystem A) (def_partition label_map : json_lists)
  : result main_state :=
  let* train_ids := json_get def_partition "train" in
  let* valid_ids := json_get def_partition "valid" in
  let* test_ids := json_get def_partition "test" in
  let image_to_label_map := invert_label_map label_map in
  let test_df := build_frame "test" test_ids image_to_label_map in
  let val_df := build_frame "valid" valid_ids image_to_label_map in
  let train_df := build_frame "train" train_ids image_to_label_map in
  let* (band_stats, log) := compute_band_stats fs train_df band_names in
  let stats_dict := stats_dict_of band_stats in
  let label2idx := label2idx_main in
  let data_module :=
    {| dm_train_df := train_df; dm_val_df := val_df; dm_test_df := test_df;
       dm_label2idx := label2idx; dm_band_stats := stats_dict;
       dm_batch_size := batch_size |} in
  let* (_, weights) := class_weights label2idx train_df in
  let* tensor := weights_tensor weights in
  Ok {| test_df := test_df; val_df := val_df; train_df := train_df;
        band_stats := band_stats; stats_dict := stats_dict;
        printed_failures := log; data_module := data_module;
        class_weights_dict := weights; class_weights_tensor := tensor |}.

End Main.
Arguments main_state : clear implicits.

(** ** CLIPWithMSIEmbedder1 and CLIPWithMSIEmbedder2 *)

(** The pretrained model is used through three functions that the script
    only calls: the image encoder, the text encoder applied to the tokenized
    prompts, and torchvision's resize to 224 by 224. *)
Record clip_model (A : Type) := {
  encode_image : list (image A) → list (list A);
  encode_text : list string → list (list A);
  resize_224 : image A → image A
}.
Arguments encode_image {A} _ _.
Arguments encode_text {A} _ _.
Arguments resize_224 {A} _ _.

(** The two classes differ in the adapter only; [embedder] is its forward
    pass. *)
Record CLIPWithMSIEmbedder (A : Type) := {
  clip : clip_model A;
  embedder : list (image A) → result (list (image A));
  text_features : list (list A)
}.
Arguments clip {A} _.
Arguments embedder {A} _ _.
Arguments text_features {A} _.

(** [str.lower()] on ASCII letters. *)
Definition ascii_lower (c : ascii) : ascii :=
  let n := nat_of_ascii c in
  if (65 <=? n)%nat && (n <=? 90)%nat then ascii_of_nat (n + 32) else c.

Fixpoint py_lower (s : string) : string :=
  match s with
  | EmptyString => EmptyString
  | String c r => String (ascii_lower c) (py_lower r)
  end.

Definition prompts (class_names : list string) : list string :=
  map (λ name, "a satellite photo of " ++ py_lower name) class_names.

Section Clip.
Context {A : Type} (S : Scalar A).

(** [v.norm(dim=-1)]: the square root of the sum of the squares. *)
Definition l2_norm (v : list A) : A :=
  s_sqrt (fold_left (λ acc x, s_add acc (s_mul x x)) v (s_of_Z 0)).

(** [m / m.norm(dim=-1, keepdim=True)] *)
Definition normalize_rows (m : list (list A)) : list (list A) :=
  map (λ v, map (λ x, s_div x (l2_norm v)) v) m.

Definition dot (u v : list A) : A :=
  fold_left (λ acc ab, s_add acc (s_mul ab.1 ab.2)) (zip u v) (s_of_Z 0).

(** [a @ b.T]: every row of [a] with every row of [b]; the rows must all
    have one length. *)
Definition matmul_T (a b : list (list A)) : result (list (list A)) :=
  if forallb (λ u, forallb (λ v, bool_decide (length u = length v)) b) a
  then Ok (map (λ u, map (dot u) b) a)
  else Err RuntimeError.

Definition decimal (n d : Z) : A := s_div (s_of_Z n) (s_of_Z d).

(** [T.Normalize] with the three channel means and deviations of CLIP. *)
Definition clip_mean : list A :=
  [decimal 48145466 100000000; decimal 4578275 10000000; decimal 40821073 100000000].
Definition clip_std : list A :=
  [decimal 26862954 100000000; decimal 26130258 100000000; decimal 27577711 100000000].

Definition T_Normalize (sample : image A) : result (image A) :=
  if bool_decide (length sample = 3%nat)
  then Ok (zip_with (λ plane ms, map (map (λ x, s_div (s_sub x ms.1) ms.2)) plane)
                    sample (zip clip_mean clip_std))
  else Err RuntimeError.

Definition MSI_to_CLIP_preprocess (model : clip_model A) (x : list (image A))
  : result (list (image A)) :=
  mapM (λ sample, T_Normalize (resize_224 model sample)) x.

Definition CLIPWithMSIEmbedder_init (model : clip_model A)
    (adapter : list (image A) → result (list (image A))) (class_names : list string)
  : CLIPWithMSIEmbedder A :=
  {| clip := model;
     embedder := adapter;
     text_features := normalize_rows (encode_text model (prompts class_names)) |}.

Definition CLIPWithMSIEmbedder1_init (model : clip_model A) (in_ch : nat)
    (w : nat → nat → A) (b : nat → A) (class_names : list string) :=
  CLIPWithMSIEmbedder_init model (MSIEmbedder1_forward S (MSIEmbedder1_init in_ch w b))
                           class_names.

Definition CLIPWithMSIEmbedder2_init (model : clip_model A) (in_ch : nat)
    (w0 : nat → nat → A) (b0 : nat → A) (w2 : nat → nat → A) (b2 : nat → A)
    (class_names : list string) :=
  CLIPWithMSIEmbedder_init model
    (MSIEmbedder2_forward S (MSIEmbedder2_init in_ch w0 b0 w2 b2)) class_names.

Definition CLIP_forward (self : CLIPWithMSIEmbedder A) (x : list (image A))
  : result (list (list A)) :=
  let* x := embedder self x in
  let* x := MSI_to_CLIP_preprocess (clip self) x in
  let image_features := encode_image (clip self) x in
  Ok (normalize_rows image_features).

(** [100.0 * image_features @ self.text_features.T] *)
Definition predict_logits (self : CLIPWithMSIEmbedder A) (x : list (image A))
  : result (list (list A)) :=
  let* image_features := CLIP_forward self x in
  matmul_T (map (map (s_mul (s_of_Z 100))) image_features) (text_features self).

End Clip.

(** * Vocabulary of the properties *)

(** The two keys of the label map that the inversion acts on. *)
Definition class_key (k : string) : Prop := k = "0" ∨ k = "1".

Definition label_of_key (k : string) : string :=
  if decide (k = "0") then brickkiln_label 0 else brickkiln_label 1.

(** [img_id] is listed under one of the two class keys. *)
Definition labelled (label_map : json_lists) (img_id : string) : Prop :=
  ∃ k ids, (k, ids) ∈ label_map ∧ class_key k ∧ img_id ∈ ids.

(** Reading the bands of an opened file raises: a group among the keys, or
    more keys than the [n] accumulator slots. *)
Fixpoint file_raises {A} (n i : nat) (entries : h5file A) : bool :=
  match entries with
  | [] => false
  | (_, Group) :: _ => true
  | (_, Dataset _) :: rest => if bool_decide (i < n)%nat then file_raises n (S i) rest else true
  end.

(** The [try] block of [compute_band_stats] ends in its [except] branch. *)
Definition skipped {A} (fs : filesystem A) (n : nat) (fname : string) : bool :=
  match fs fname with
  | None => true
  | Some f => file_raises n 0 f
  end.

(** The three accumulator vectors have [n] slots each. *)
Definition acc_len {A} (n : nat) (acc : accum A) : Prop :=
  length (band_sum acc) = n ∧ length (band_sq_sum acc) = n ∧
  length (band_pixel_counts acc) = n.

(** Every pixel of the band is [c], and there is at least one. *)
Definition constant_band {A} (c : A) (arr : ndarray A) : Prop :=
  concat arr ≠ [] ∧ Forall (λ x, x = c) (concat arr).

(** The file has one dataset per entry of [c], constant at that value. *)
Definition constant_file {A} (c : list A) (f : h5file A) : Prop :=
  Forall2 (λ ci entry, ∃ arr, entry.2 = Dataset arr ∧ constant_band ci arr) c f.

Definition file_sizes {A} (f : h5file A) : list Z :=
  map (λ entry, match entry.2 with Dataset arr => Z.of_nat (length (concat arr)) | Group => 0 end) f.

(** The pixels per band of the files that open, without the wrap-around of
    the [int64] counters. *)
Fixpoint pixel_totals {A} (fs : filesystem A) (fnames : list string) (cnt : list Z)
  : list Z :=
  match fnames with
  | [] => cnt
  | fname :: rest =>
      pixel_totals fs rest
        (match fs fname with
         | Some f => zip_with Z.add cnt (file_sizes f)
         | None => cnt
         end)
  end.

(** The accumulators, in exact arithmetic, after [cnt] pixels per band of
    the constant values [c]. *)
Definition exact_state (c : list R) (cnt : list Z) : accum R :=
  {| band_sum := zip_with (λ N ci, (IZR N * ci)%R) cnt c;
     band_sq_sum := zip_with (λ N ci, (IZR N * (ci * ci))%R) cnt c;
     band_pixel_counts := cnt |}.

(** C1 as stated, on the doubles of the script: for files of constant
    bands the mean is the constant and the standard deviation is zero. *)
Definition constant_bands_zero_std : Prop :=
  ∀ (fs : filesystem float) (df : list example_row) (c : list float) table log,
    df ≠ [] → length c = length band_names →
    (∀ row, row ∈ df → ∃ f, fs (filename row) = Some f ∧ constant_file c f) →
    compute_band_stats fs df band_names = Ok (table, log) →
    Forall2 (λ ci r, PrimFloat.eqb (Mean r) ci = true ∧ PrimFloat.eqb (Std r) 0 = true)
            c table.

(** C2 as stated: the number of skipped files can be read off the returned
    table alone. *)
Definition skip_count_observable : Prop :=
  ∃ count_of : list (band_row float) → nat,
    ∀ (fs : filesystem float) df names table log,
      compute_band_stats fs df names = Ok (table, log) →
      count_of table = length log.

(** ** Concrete inputs *)

(** A frame with a single record whose label is absent. *)
Definition unlabelled_dataset : GEOBenchMSIDataset float :=
  GEOBenchMSIDataset_init (build_frame "train" ["t0"] ∅) label2idx_main ∅.

(** A readable file whose single band is the one pixel [1.0]. *)
Definition one_pixel_file : h5file float := [("B01", Dataset [[1%float]])].

Definition one_good_file : filesystem float :=
  λ name, if decide (name = "good.hdf5") then Some one_pixel_file else None.

Definition file_row (name : string) : example_row :=
  {| image_id := name; filename := name; bands := n_bands; split := "train";
     label := None |}.

(** A tile whose thirteen bands are one pixel each, all of value [c]. *)
Definition constant_tile {A} (c : A) : h5file A :=
  map (λ b, (b, Dataset [[c]])) band_names.

Definition tile_path (img_id : string) : string :=
  os_path_join images_path (img_id ++ ".hdf5").

(** Four tiles on disk. *)
Definition small_disk : filesystem float :=
  λ name,
    if decide (name = tile_path "a") then Some (constant_tile 1%float)
    else if decide (name = tile_path "b") then Some (constant_tile 3%float)
    else if decide (name = tile_path "c") then Some (constant_tile 5%float)
    else if decide (name = tile_path "d") then Some (constant_tile 7%float)
    else None.

Definition small_label_map : json_lists := [("0", ["a"; "c"]); ("1", ["b"; "d"])].

Definition small_partition : json_lists :=
  [("train", ["a"; "b"]); ("valid", ["c"]); ("test", ["d"])].

(** The same training split, the other two splits exchanged. *)
Definition small_partition' : json_lists :=
  [("train", ["a"; "b"]); ("valid", ["d"]); ("test", ["c"])].

(** A batch of two one-pixel tiles with thirteen channels. *)
Definition small_batch : list (image float) :=
  [replicate 13 [[1%float]]; replicate 13 [[2%float]]].

(** A batch whose only pixel is not a number in every channel. *)
Definition nan_batch : list (image float) := [replicate 13 [[nan]]].

Definition unit_embedder2 : MSIEmbedder2 float :=
  MSIEmbedder2_init 13 (λ _ _, 1%float) (λ _, 0%float) (λ _ _, 1%float) (λ _, 0%float).

(** C9 as stated, on the single-precision tensors of the model. *)
Definition adapter2_output_nonnegative : Prop :=
  ∀ (self : MSIEmbedder2 float) (x y : list (image float)),
    MSIEmbedder2_forward binary32 self x = Ok y →
    Forall (λ e, PrimFloat.leb 0 e = true) (elements y).

(** Every tile on this disk has the value one tenth (as a double) in its
    thirteen one-pixel bands. *)
Definition tenth : float := 0x1.999999999999ap-4%float.

Definition tenth_disk : filesystem float := λ _, Some (constant_tile tenth).

Definition three_rows : list example_row :=
  [file_row "t1.hdf5"; file_row "t2.hdf5"; file_row "t3.hdf5"].

(** The same tiles over the real numbers, every band at the value two. *)
Definition exact_disk : filesystem R := λ _, Some (constant_tile 2%R).

(** Statistics with mean two and standard deviation three. *)
Definition two_three : band_stat R := {| mean := 2%R; std := 3%R |}.

(** The index that [label2idx] of [main] gives a label of the script. *)
Definition idx_of (l : string) : Z := if decide (l = "not brick kiln") then 0 else 1.

(** A training frame with 800 tiles without and 200 tiles with a kiln. *)
Definition kiln_row (l : string) : example_row :=
  {| image_id := "t"; filename := tile_path "t"; bands := n_bands; split := "train";
     label := Some l |}.

Definition kiln_frame : list example_row :=
  (replicate 800 (kiln_row "not brick kiln") ++ replicate 200 (kiln_row "brick kiln"))%list.

#[global] Instance class_key_dec (k : string) : Decision (class_key k).
Proof. unfold class_key. apply _. Defined.

(** Every key of the file names a dataset. *)
Definition all_datasets {A} (f : h5file A) : Prop :=
  Forall (λ entry, ∃ arr, entry.2 = Dataset arr) f.

(** A file of two one-pixel bands followed by a group. *)
Definition group_after_two : h5file float :=
  [("B01", Dataset [[1%float]]); ("B02", Dataset [[2%float]]); ("meta", Group);
   ("B03", Dataset [[3%float]])].

(** The same two bands under other names. *)
Definition renamed_disk : filesystem float :=
  λ name, if decide (name = "good.hdf5") then Some [("x", Dataset [[1%float]])] else None.

(** The pixels that each band has received once a file is read, as the
    loop of [compute_band_stats] adds them: band by band, up to the first
    key that raises. *)
Fixpoint add_pixels {A} (px : list (list A)) (f : h5file A) : list (list A) :=
  match px, f with
  | p :: px', (_, Dataset arr) :: f' => (p ++ concat arr)%list :: add_pixels px' f'
  | _, _ => px
  end.

Fixpoint pixels_read {A} (fs : filesystem A) (fnames : list string)
    (px : list (list A)) : list (list A) :=
  match fnames with
  | [] => px
  | fname :: rest =>
      pixels_read fs rest
        (match fs fname with
         | Some f => add_pixels px f
         | None => px
         end)
  end.

Definition sum_R (l : list R) : R := foldr Rplus 0%R l.

Definition mean_R (l : list R) : R := (sum_R l / IZR (Z.of_nat (length l)))%R.

(** The mean of the squared deviations from the mean. *)
Definition variance_R (l : list R) : R :=
  (sum_R (map (λ x, (x - mean_R l) * (x - mean_R l)) l) / IZR (Z.of_nat (length l)))%R.

(** The accumulators, in exact arithmetic, after the pixels [px]. *)
Definition pixel_state (px : list (list R)) : accum R :=
  {| band_sum := map sum_R px;
     band_sq_sum := map (λ p, sum_R (map (λ x, x * x)%R p)) px;
     band_pixel_counts := map (λ p, Z.of_nat (length p)) px |}.

(** Two tiles with different values in their single band. *)
Definition two_tiles : filesystem R :=
  λ name, if decide (name = "t1.hdf5") then Some [("B01", Dataset [[1%R; 3%R]])]
          else if decide (name = "t2.hdf5") then Some [("B01", Dataset [[5%R]])]
          else None.

(** A dataset over [small_disk] with the statistics of a completed run. *)
Definition unit_stats : gmap string (band_stat float) :=
  list_to_map (map (λ b, (b, {| mean := 2%float; std := 1%float |})) band_names).

Definition small_dataset : GEOBenchMSIDataset float :=
  GEOBenchMSIDataset_init (build_frame "train" ["a"; "b"; "zz"]
                             (invert_label_map small_label_map))
                          label2idx_main unit_stats.

(** A labelled record whose file is not on [small_disk]. *)
Definition lost_row : example_row :=
  {| image_id := "zz"; filename := tile_path "zz"; bands := n_bands;
     split := "train"; label := Some "brick kiln" |}.

Definition lost_dataset : GEOBenchMSIDataset float :=
  GEOBenchMSIDataset_init [lost_row] label2idx_main unit_stats.

(** A tile whose second band is stored under a name without statistics. *)
Definition misnamed_disk : filesystem float :=
  λ _, Some [("01 - Coastal aerosol", Dataset [[1%float]]); ("B02", Dataset [[1%float]])].

(** A tile whose two bands differ in shape. *)
Definition ragged_disk : filesystem float :=
  λ _, Some [("01 - Coastal aerosol", Dataset [[1%float]]);
             ("02 - Blue", Dataset [[1%float; 2%float]])].

(** The element of a plane at row [h], column [w]. *)
Definition at2 {A} (a : list (list A)) (h w : nat) : option A :=
  a !! h ≫= λ row, row !! w.

(** The per-pixel affine map of a 1x1 convolution: the bias of the output
    channel plus the weighted channel values of the pixel, in channel
    order. *)
Definition pixel_affine {A} (S : Scalar A) (conv : Conv2d A) (o : nat) (vs : list A) : A :=
  fold_left (λ acc cv, s_add acc (s_mul (weight conv o cv.1) cv.2))
            (zip (seq 0 (length vs)) vs) (bias conv o).

(** A batch with a single tile of two channels. *)
Definition two_channel_batch : list (image float) := [[[[1%float]]; [[2%float]]]].

(** Some element of the vector is not zero. *)
Definition nonzero (v : list R) : Prop := Exists (λ x, x ≠ 0%R) v.

(** The cosine of the angle between two vectors. *)
Definition cosine (u t : list R) : R :=
  (sum_R (zip_with Rmult u t)
   / (R_sqrt.sqrt (sum_R (map (λ x, x * x) u)) * R_sqrt.sqrt (sum_R (map (λ x, x * x) t))))%R.

(** A stand-in for the pretrained model: it encodes every image and every
    prompt as the vector (3, 4). *)
Definition stub_clip : clip_model R :=
  {| encode_image := λ x, map (λ _, [3%R; 4%R]) x;
     encode_text := λ ps, map (λ _, [3%R; 4%R]) ps;
     resize_224 := λ sample, sample |}.

(** A double that is neither an infinity nor a NaN. *)
Definition float_is_finite (x : float) : bool :=
  PrimFloat.ltb (PrimFloat.abs x) infinity.

(** C8 as stated, on the numbers of the script: the statistics and the
    band are doubles, the quotient is a double, and the tile is cast to
    single precision.  For finite values and a standard deviation that is
    not zero, the de-normalized value differs from the original by no more
    than some finite tolerance, which may depend on the values: the weakest
    reading of a tolerance.  [D] is the arithmetic of [x*std+mean], which the
    script does not compute: doubles or singles. *)
Definition round_trip_within_tolerance (D : Scalar float) : Prop :=
  ∀ (stats : band_stat float) (x : float),
    float_is_finite x = true → float_is_finite (mean stats) = true →
    float_is_finite (std stats) = true → PrimFloat.eqb (std stats) 0 = false →
    ∃ tol : float,
      float_is_finite tol = true ∧
      PrimFloat.leb
        (PrimFloat.abs
           (PrimFloat.sub
              (@denormalize_value float D stats
                 (to_float32 (@normalize_value float binary64 stats x)))
              x))
        tol = true.

(** Statistics with mean zero and the standard deviation 2^-130, a double
    far above the smallest positive one. *)
Definition tiny_std : band_stat float := {| mean := 0%float; std := 0x1p-130%float |}.

(** * Properties *)

(** ** Label-map inversion *)

Lemma invert_step_other_key k m ids :
  ¬ class_key k → fold_left (invert_step k) ids m = m.
Proof.
  intros Hk. induction ids as [|x ids IH]; [done|].
  simpl. unfold invert_step at 2.
  destruct (decide (k = "0")) as [->|]; [destruct Hk; by left|].
  destruct (decide (k = "1")) as [->|]; [destruct Hk; by right|].
  exact IH.
Qed.

Lemma invert_step_class_key k m x :
  class_key k → invert_step k m x = <[x := label_of_key k]> m.
Proof.
  intros [-> | ->]; reflexivity.
Qed.

Lemma invert_inner_lookup k ids m img_id :
  class_key k →
  fold_left (invert_step k) ids m !! img_id =
    if bool_decide (img_id ∈ ids) then Some (label_of_key k) else m !! img_id.
Proof.
  intros Hk. revert m. induction ids as [|x ids IH]; intros m; cbn [fold_left].
  - by rewrite bool_decide_eq_false_2 by set_solver.
  - rewrite IH, (invert_step_class_key _ _ _ Hk).
    destruct (decide (img_id ∈ ids)) as [Hin|Hin].
    + rewrite (bool_decide_eq_true_2 _ Hin).
      by rewrite bool_decide_eq_true_2 by set_solver.
    + rewrite (bool_decide_eq_false_2 _ Hin).
      destruct (decide (img_id = x)) as [->|Hne].
      * rewrite lookup_insert_eq. by rewrite bool_decide_eq_true_2 by set_solver.
      * rewrite lookup_insert_ne by done.
        by rewrite bool_decide_eq_false_2 by set_solver.
Qed.

Lemma invert_from_app m l1 l2 :
  invert_from m (l1 ++ l2)%list = invert_from (invert_from m l1) l2.
Proof. apply fold_left_app. Qed.

Lemma invert_from_unlabelled m label_map img_id :
  ¬ labelled label_map img_id →
  invert_from m label_map !! img_id = m !! img_id.
Proof.
  revert m. induction label_map as [|[k ids] lm IH]; intros m Hno; [done|].
  simpl. rewrite IH.
  - destruct (decide (class_key k)) as [Hk|Hk].
    + rewrite invert_inner_lookup by done.
      rewrite bool_decide_eq_false_2; [done|].
      intros Hin. apply Hno. exists k, ids. set_solver.
    + by rewrite invert_step_other_key.
  - intros (k' & ids' & Hin & Hk' & Hid). apply Hno. exists k', ids'. set_solver.
Qed.

Lemma invert_from_is_Some m label_map img_id :
  is_Some (invert_from m label_map !! img_id) ↔
  labelled label_map img_id ∨ is_Some (m !! img_id).
Proof.
  revert m. induction label_map as [|[k ids] lm IH]; intros m; simpl.
  - split; [by right|]. intros [(k & ids & Hin & _)|]; [set_solver|done].
  - rewrite IH. destruct (decide (class_key k)) as [Hk|Hk].
    + rewrite invert_inner_lookup by done. case_bool_decide as Hin.
      * split; [|by eauto]. intros _. left. exists k, ids. set_solver.
      * split.
        -- intros [(k' & ids' & ? & ? & ?)|?]; [left|by right].
           exists k', ids'. set_solver.
        -- intros [(k' & ids' & Hmem & ? & ?)|?]; [|by right].
           left. exists k', ids'. split_and!; try done.
           apply elem_of_cons in Hmem as [Heq|]; [|done].
           by simplify_eq.
    + rewrite invert_step_other_key by done. split.
      * intros [(k' & ids' & ? & ? & ?)|?]; [left|by right].
        exists k', ids'. set_solver.
      * intros [(k' & ids' & Hmem & ? & ?)|?]; [|by right].
        left. exists k', ids'. split_and!; try done.
        apply elem_of_cons in Hmem as [Heq|]; [|done].
        by simplify_eq.
Qed.

Lemma invert_label_map_is_Some label_map img_id :
  is_Some (invert_label_map label_map !! img_id) ↔ labelled label_map img_id.
Proof.
  unfold invert_label_map.
  rewrite invert_from_is_Some, lookup_empty. split; [|by left].
  intros [?|[? ?]]; done.
Qed.

(** The last class entry that lists an id decides its label. *)
Lemma invert_label_map_last pre k ids post img_id :
  class_key k → img_id ∈ ids → ¬ labelled post img_id →
  invert_label_map (pre ++ (k, ids) :: post)%list !! img_id = Some (label_of_key k).
Proof.
  intros Hk Hin Hpost.
  unfold invert_label_map.
  rewrite invert_from_app. simpl.
  change (fold_left _ post ?m) with (invert_from m post).
  rewrite invert_from_unlabelled by done.
  rewrite invert_inner_lookup by done.
  by rewrite bool_decide_eq_true_2.
Qed.

(** C10. When an image id is listed under both class keys of the label map,
    the inversion gives it the label of the class key that comes later in
    the iteration order of the map, whatever that order is; the inversion is
    a total function, so nothing is raised on the way. *)
Theorem label_map_inversion_last_class_wins
    (pre mid post : json_lists) (k1 k2 : string) (ids1 ids2 : list string)
    (img_id : string) :
  let label_map := (pre ++ (k1, ids1) :: mid ++ (k2, ids2) :: post)%list in
  NoDup (map fst label_map) →
  (k1 = "0" ∧ k2 = "1") ∨ (k1 = "1" ∧ k2 = "0") →
  img_id ∈ ids1 → img_id ∈ ids2 →
  invert_label_map label_map !! img_id = Some (label_of_key k2).
Proof.
  intros label_map Hnd Hkeys _ Hin2. subst label_map.
  replace (pre ++ (k1, ids1) :: mid ++ (k2, ids2) :: post)%list
    with ((pre ++ (k1, ids1) :: mid) ++ (k2, ids2) :: post)%list in *
    by (by rewrite <- app_assoc).
  apply invert_label_map_last; [destruct Hkeys as [[_ ->]|[_ ->]]; [by right | by left] | done |].
  intros (k & ids & Hmem & Hk & _).
  rewrite map_app in Hnd. cbn [map fst] in Hnd.
  apply NoDup_app in Hnd as (_ & Hdisj & Hpost).
  apply NoDup_cons in Hpost as [Hk2 _].
  assert (Hkpost : k ∈ map fst post).
  { apply list_elem_of_fmap. by exists (k, ids). }
  assert (k ≠ k2) by (intros ->; done).
  assert (Hk1 : k1 ∈ map fst (pre ++ (k1, ids1) :: mid)%list).
  { rewrite map_app. cbn [map fst]. set_solver. }
  assert (k ≠ k1).
  { intros ->. apply (Hdisj _ Hk1). set_solver. }
  destruct Hkeys as [[-> ->]|[-> ->]], Hk as [->| ->]; done.
Qed.

Lemma label_map_inversion_last_class_wins_witness :
  invert_label_map [("0", ["a"; "b"]); ("1", ["b"; "c"])] !! "b" = Some "brick kiln" ∧
  invert_label_map [("1", ["b"; "c"]); ("0", ["a"; "b"])] !! "b" = Some "not brick kiln".
Proof.
  split.
  - apply (label_map_inversion_last_class_wins [] [] [] "0" "1" ["a"; "b"] ["b"; "c"] "b").
    + cbn. apply NoDup_cons. split; [|apply NoDup_singleton].
      intros Hin. apply list_elem_of_singleton in Hin. discriminate Hin.
    + by left.
    + apply list_elem_of_further, list_elem_of_here.
    + apply list_elem_of_here.
  - apply (label_map_inversion_last_class_wins [] [] [] "1" "0" ["b"; "c"] ["a"; "b"] "b").
    + cbn. apply NoDup_cons. split; [|apply NoDup_singleton].
      intros Hin. apply list_elem_of_singleton in Hin. discriminate Hin.
    + by right.
    + apply list_elem_of_here.
    + apply list_elem_of_further, list_elem_of_here.
Defined.

(** ** The manifest join *)

Lemma build_frame_lookup split_name ids m i :
  build_frame split_name ids m !! i =
    (λ img_id, {| image_id := img_id;
                  filename := os_path_join images_path (img_id ++ ".hdf5");
                  bands := n_bands;
                  split := split_name;
                  label := m !! img_id |}) <$> ids !! i.
Proof. unfold build_frame. apply list_lookup_fmap. Qed.

(** C5. Each of the three frame-building loops yields one record per image
    id of the split's list, in the list's order; no record has an absent
    label when every id of the list is listed under a class key of the
    label map, and an id that is not listed there keeps its record, with an
    absent label. *)
Theorem manifest_join_records
    (label_map : json_lists) (split_name : string) (ids : list string) :
  let frame := build_frame split_name ids (invert_label_map label_map) in
  length frame = length ids ∧
  map image_id frame = ids ∧
  Forall (λ row, split row = split_name) frame ∧
  ((∀ img_id, img_id ∈ ids → labelled label_map img_id) →
     Forall (λ row, is_Some (label row)) frame) ∧
  (∀ i img_id, ids !! i = Some img_id → ¬ labelled label_map img_id →
     ∃ row, frame !! i = Some row ∧ image_id row = img_id ∧ label row = None).
Proof.
  intros frame. subst frame. split_and!.
  - unfold build_frame. by rewrite length_map.
  - unfold build_frame. rewrite map_map. cbn. apply map_id.
  - unfold build_frame. apply Forall_forall. intros row Hrow.
    apply list_elem_of_fmap in Hrow as (img_id & -> & _). done.
  - intros Hall. unfold build_frame. apply Forall_forall. intros row Hrow.
    apply list_elem_of_fmap in Hrow as (img_id & -> & Hin). cbn.
    by apply invert_label_map_is_Some, Hall.
  - intros i img_id Hi Hno. rewrite build_frame_lookup, Hi. cbn.
    eexists. split_and!; [done..|]. cbn.
    apply eq_None_not_Some. by rewrite invert_label_map_is_Some.
Qed.

Lemma manifest_join_records_witness :
  Forall (λ row, is_Some (label row))
         (build_frame "train" ["a"; "b"] (invert_label_map small_label_map)) ∧
  ∃ row, build_frame "valid" ["c"; "zz"] (invert_label_map small_label_map) !! 1%nat
           = Some row ∧ image_id row = "zz" ∧ label row = None.
Proof.
  split.
  - apply (manifest_join_records small_label_map "train" ["a"; "b"]).
    intros img_id Hin. apply invert_label_map_is_Some.
    apply elem_of_cons in Hin as [->|Hin]; [by eexists|].
    apply list_elem_of_singleton in Hin as ->. by eexists.
  - apply (manifest_join_records small_label_map "valid" ["c"; "zz"] : _ ∧ _ ∧ _ ∧ _ ∧ _).
    + reflexivity.
    + rewrite <- invert_label_map_is_Some. by intros [? ?].
Defined.

(** ** The dataset's label lookup *)

Section GetItem.
Context {A : Type} `{Scalar A}.

Lemma getitem_absent_label (fs : filesystem A) (self : GEOBenchMSIDataset A)
    (idx : nat) (row : example_row) :
  ds_df self !! idx = Some row → label row = None →
  getitem fs self idx = Err (KeyError KNone).
Proof.
  intros Hrow Hlabel. unfold getitem, df_loc. rewrite Hrow. cbn.
  by rewrite Hlabel.
Qed.

End GetItem.

(** C3, as stated, fails: the lookup of an absent label ends in the
    dictionary's own [KeyError], which is not a configuration error. *)
Lemma absent_label_not_configuration_error :
  ¬ (∀ (fs : filesystem float) (self : GEOBenchMSIDataset float) (idx : nat)
       (row : example_row),
       ds_df self !! idx = Some row → label row = None →
       ∃ e, getitem fs self idx = Err e ∧ configuration_error e = true).
Proof.
  intros Hclaim.
  destruct (Hclaim (λ _, None) unlabelled_dataset 0%nat
              {| image_id := "t0"; filename := "../m-brick-kiln/t0.hdf5";
                 bands := 13; split := "train"; label := None |}
              eq_refl eq_refl) as (e & Hget & Hcfg).
  vm_compute in Hget. injection Hget as <-. discriminate Hcfg.
Qed.

(** C3, amended. For every index whose record has an absent label,
    [__getitem__] raises [KeyError(None)] from the dictionary lookup, before
    the image file is opened. *)
Theorem getitem_absent_label_KeyError {A : Type} `{Scalar A}
    (fs : filesystem A) (self : GEOBenchMSIDataset A) (idx : nat) (row : example_row) :
  ds_df self !! idx = Some row → label row = None →
  getitem fs self idx = Err (KeyError KNone) ∧
  configuration_error (KeyError KNone) = false.
Proof.
  intros Hrow Hlabel. split; [|done].
  by apply (getitem_absent_label fs self idx row).
Qed.

Lemma getitem_absent_label_KeyError_witness :
  getitem (λ _, None) unlabelled_dataset 0 = Err (KeyError KNone) ∧
  configuration_error (KeyError KNone) = false.
Proof.
  apply (getitem_absent_label_KeyError (λ _, None) unlabelled_dataset 0%nat
           {| image_id := "t0"; filename := "../m-brick-kiln/t0.hdf5";
              bands := 13; split := "train"; label := None |});
    reflexivity.
Defined.

(** ** Files that cannot be read *)

Section Skipping.
Context {A : Type} `{Scalar A}.

Lemma update_at_Ok {T} (i : nat) (f : T → T) (l : list T) :
  (i < length l)%nat →
  ∃ old, l !! i = Some old ∧ update_at i f l = Ok (<[i := f old]> l).
Proof.
  intros Hi. destruct (lookup_lt_is_Some_2 l i Hi) as [old Hold].
  exists old. unfold update_at. by rewrite Hold.
Qed.

Lemma update_at_Err {T} (i : nat) (f : T → T) (l : list T) :
  (length l ≤ i)%nat → update_at i f l = Err IndexError.
Proof.
  intros Hi. unfold update_at. by rewrite (lookup_ge_None_2 l i Hi).
Qed.

Lemma accumulate_band_Ok n i band acc :
  acc_len n acc → (i < n)%nat →
  ∃ acc', accumulate_band i band acc = Ok acc' ∧ acc_len n acc'.
Proof.
  intros (Hs & Hq & Hc) Hi. unfold accumulate_band.
  destruct (update_at_Ok i (λ old, s_add old (np_sum band)) (band_sum acc))
    as (s & _ & ->); [lia|].
  destruct (update_at_Ok i (λ old, s_add old (np_sum (np_square band))) (band_sq_sum acc))
    as (q & _ & ->); [lia|].
  destruct (update_at_Ok i (λ old, wrap_int64 (old + np_size band)) (band_pixel_counts acc))
    as (c & _ & ->); [lia|].
  cbn. eexists. split; [done|].
  unfold acc_len. cbn. by rewrite !length_insert.
Qed.

Lemma accumulate_band_Err n i band acc :
  acc_len n acc → (n ≤ i)%nat → accumulate_band i band acc = Err IndexError.
Proof.
  intros (Hs & _) Hi. unfold accumulate_band.
  rewrite update_at_Err by lia. done.
Qed.

Lemma accumulate_file_raises n i (f : h5file A) acc :
  acc_len n acc →
  acc_len n (accumulate_file i f acc).1 ∧
  (is_Some (accumulate_file i f acc).2 ↔ file_raises n i f = true).
Proof.
  revert i acc. induction f as [|[name [band|]] f IH]; intros i acc Hlen; cbn.
  - split; [done|]. split; [by intros [? ?]|done].
  - case_bool_decide as Hi.
    + destruct (accumulate_band_Ok n i band acc Hlen Hi) as (acc' & -> & Hlen').
      by apply IH.
    + rewrite (accumulate_band_Err n i band acc Hlen) by lia. cbn.
      split; [done|]. split; [done|by eauto].
  - split; [done|]. split; [done|by eauto].
Qed.

Lemma try_file_skipped n fs fname acc :
  acc_len n acc →
  acc_len n (try_file fs fname acc).1 ∧
  (is_Some (try_file fs fname acc).2 ↔ skipped fs n fname = true).
Proof.
  intros Hlen. unfold try_file, h5_open, skipped.
  destruct (fs fname) as [f|]; cbn.
  - by apply accumulate_file_raises.
  - split; [done|]. split; [done|by eauto].
Qed.

(** The printed lines name the skipped files, one line each, in order. *)
Lemma accumulate_files_log n fs fnames acc :
  acc_len n acc →
  map fst (accumulate_files fs fnames acc).2 = filter (λ f, skipped fs n f = true) fnames.
Proof.
  revert acc. induction fnames as [|fname rest IH]; intros acc Hlen; [done|].
  cbn [accumulate_files].
  destruct (try_file_skipped n fs fname acc Hlen) as [Hlen' Hskip].
  destruct (try_file fs fname acc) as [acc' failure]. cbn in Hlen', Hskip.
  specialize (IH acc' Hlen').
  destruct (accumulate_files fs rest acc') as [acc'' log]. cbn in IH.
  rewrite filter_cons. destruct failure as [ex|]; cbn.
  - rewrite decide_True by (apply Hskip; eauto). by rewrite IH.
  - rewrite decide_False; [done|].
    intros Hs. apply Hskip in Hs as [? ?]. done.
Qed.

Lemma accumulate_files_app fs (l1 l2 : list string) acc :
  accumulate_files fs (l1 ++ l2) acc =
    let '(a1, g1) := accumulate_files fs l1 acc in
    let '(a2, g2) := accumulate_files fs l2 a1 in
    (a2, (g1 ++ g2)%list).
Proof.
  revert acc. induction l1 as [|x l1 IH]; intros acc; cbn [app accumulate_files].
  - by destruct (accumulate_files fs l2 acc).
  - destruct (try_file fs x acc) as [acc' failure]. rewrite IH.
    destruct (accumulate_files fs l1 acc') as [a1 g1].
    destruct (accumulate_files fs l2 a1) as [a2 g2].
    by destruct failure.
Qed.

(** A file that cannot be opened leaves the accumulators as they are. *)
Lemma accumulate_files_unopened fs (l1 l2 : list string) fname acc :
  fs fname = None →
  (accumulate_files fs (l1 ++ fname :: l2) acc).1 =
  (accumulate_files fs (l1 ++ l2) acc).1.
Proof.
  intros Hnone. rewrite !accumulate_files_app.
  destruct (accumulate_files fs l1 acc) as [a1 g1].
  cbn [accumulate_files]. unfold try_file, h5_open. rewrite Hnone.
  by destruct (accumulate_files fs l2 a1).
Qed.

Lemma zeros_acc_len n :
  acc_len n {| band_sum := zeros (s_of_Z 0) n;
               band_sq_sum := zeros (s_of_Z 0) n;
               band_pixel_counts := zeros 0 n |}.
Proof. unfold acc_len, zeros. cbn. by rewrite !length_replicate. Qed.

Lemma compute_band_stats_Ok fs df names :
  df ≠ [] →
  compute_band_stats fs df names =
    let acc0 := {| band_sum := zeros (s_of_Z 0) (length names);
                   band_sq_sum := zeros (s_of_Z 0) (length names);
                   band_pixel_counts := zeros 0 (length names) |} in
    let r := accumulate_files fs (map filename df) acc0 in
    Ok (stats_rows names (band_sum r.1) (band_sq_sum r.1) (band_pixel_counts r.1), r.2).
Proof.
  intros Hne. unfold compute_band_stats, df_column.
  destruct df as [|row df]; [done|]. cbn [bind].
  by destruct (accumulate_files fs _ _).
Qed.

End Skipping.

(** C2, as stated, fails: two runs that skip a different number of files
    return the same table, so no function of the table gives the count. *)
Lemma skipped_count_not_in_result : ¬ skip_count_observable.
Proof.
  intros [count_of Hcount].
  pose (table := [{| Band := "B01"; Mean := 1%float; Std := 0%float; Pixels := 1 |}]).
  assert (H0 : count_of table = 0%nat).
  { apply (Hcount one_good_file [file_row "good.hdf5"] ["B01"] table []).
    vm_compute. reflexivity. }
  assert (H1 : count_of table = 1%nat).
  { apply (Hcount one_good_file [file_row "good.hdf5"; file_row "lost.hdf5"]
             ["B01"] table [("lost.hdf5", OSError)]).
    vm_compute. reflexivity. }
  congruence.
Qed.

(** C2, amended. A file that fails to open or parse does not abort the
    computation: for a frame with at least one row a table is returned, and
    the printed lines name exactly the files whose [try] block raised, one
    line each, in order.  The table carries no count of them: taking a file
    that cannot be opened out of the frame leaves the table the same. *)
Theorem unreadable_files_are_skipped {A : Type} `{Scalar A}
    (fs : filesystem A) (df : list example_row) (names : list string) :
  df ≠ [] →
  ∃ table log,
    compute_band_stats fs df names = Ok (table, log) ∧
    map fst log = filter (λ f, skipped fs (length names) f = true) (map filename df) ∧
    ∀ d1 row d2, df = (d1 ++ row :: d2)%list → fs (filename row) = None →
      (d1 ++ d2)%list ≠ [] →
      ∃ log', compute_band_stats fs (d1 ++ d2)%list names = Ok (table, log').
Proof.
  intros Hne. rewrite compute_band_stats_Ok by done. cbn zeta.
  eexists _, _. split; [reflexivity|]. split.
  - apply accumulate_files_log, zeros_acc_len.
  - intros d1 row d2 -> Hnone Hne'. rewrite compute_band_stats_Ok by done. cbn zeta.
    eexists. rewrite !map_app. cbn [map].
    by rewrite (accumulate_files_unopened fs _ _ _ _ Hnone).
Qed.

Lemma unreadable_files_are_skipped_witness :
  ∃ table log,
    compute_band_stats one_good_file [file_row "good.hdf5"; file_row "lost.hdf5"] ["B01"]
      = Ok (table, log) ∧
    map fst log = ["lost.hdf5"] ∧
    ∃ log', compute_band_stats one_good_file [file_row "good.hdf5"] ["B01"]
              = Ok (table, log').
Proof.
  destruct (unreadable_files_are_skipped one_good_file
              [file_row "good.hdf5"; file_row "lost.hdf5"] ["B01"])
    as (table & log & Hrun & Hlog & Hsame); [discriminate|].
  exists table, log. split; [exact Hrun|]. split; [exact Hlog|].
  apply (Hsame [file_row "good.hdf5"] (file_row "lost.hdf5") []);
    [reflexivity | reflexivity | discriminate].
Defined.

(** ** The statistics table and the three datasets *)

Section MainStats.
Context {A : Type} `{Scalar A}.

Lemma bind_Ok {T U} (r : result T) (k : T → result U) (u : U) :
  bind r k = Ok u → ∃ v, r = Ok v ∧ k v = Ok u.
Proof. destruct r as [v|e]; cbn; [by eauto | discriminate]. Qed.

(** What a completed run of [main] has computed, step by step. *)
Lemma main_Ok_inv fs def_partition label_map (st : main_state A) :
  main fs def_partition label_map = Ok st →
  ∃ train_ids valid_ids test_ids,
    json_get def_partition "train" = Ok train_ids ∧
    json_get def_partition "valid" = Ok valid_ids ∧
    json_get def_partition "test" = Ok test_ids ∧
    train_df st = build_frame "train" train_ids (invert_label_map label_map) ∧
    val_df st = build_frame "valid" valid_ids (invert_label_map label_map) ∧
    test_df st = build_frame "test" test_ids (invert_label_map label_map) ∧
    compute_band_stats fs (train_df st) band_names
      = Ok (band_stats st, printed_failures st) ∧
    stats_dict st = stats_dict_of (band_stats st) ∧
    data_module st =
      {| dm_train_df := train_df st; dm_val_df := val_df st; dm_test_df := test_df st;
         dm_label2idx := label2idx_main; dm_band_stats := stats_dict st;
         dm_batch_size := batch_size |}.
Proof.
  unfold main. intros Hmain.
  apply bind_Ok in Hmain as (train_ids & Htrain & Hmain).
  apply bind_Ok in Hmain as (valid_ids & Hvalid & Hmain).
  apply bind_Ok in Hmain as (test_ids & Htest & Hmain).
  apply bind_Ok in Hmain as ([table log] & Hstats & Hmain).
  apply bind_Ok in Hmain as ([raw weights] & Hweights & Hmain).
  apply bind_Ok in Hmain as (tensor & Htensor & Hmain).
  injection Hmain as <-. cbn.
  exists train_ids, valid_ids, test_ids. by split_and!.
Qed.

End MainStats.

(** C4. The statistics table that [main] hands to the data module is the
    one [compute_band_stats] returns for the training frame; it depends on
    the split manifest through the training list only; and [setup] gives
    that same table, not a recomputed one, to the training, validation and
    test datasets. *)
Theorem band_stats_from_train_only {A : Type} `{Scalar A}
    (fs : filesystem A) (label_map def_partition def_partition' : json_lists)
    (st st' : main_state A) :
  json_get def_partition' "train" = json_get def_partition "train" →
  main fs def_partition label_map = Ok st →
  main fs def_partition' label_map = Ok st' →
  compute_band_stats fs (train_df st) band_names = Ok (band_stats st, printed_failures st) ∧
  dm_band_stats (data_module st) = stats_dict_of (band_stats st) ∧
  dm_band_stats (data_module st') = dm_band_stats (data_module st) ∧
  (let d := setup (data_module st) in
   ds_df (train_dataset d) = train_df st ∧
   ds_df (val_dataset d) = val_df st ∧
   ds_df (test_dataset d) = test_df st ∧
   ds_band_stats (train_dataset d) = dm_band_stats (data_module st) ∧
   ds_band_stats (val_dataset d) = dm_band_stats (data_module st) ∧
   ds_band_stats (test_dataset d) = dm_band_stats (data_module st)).
Proof.
  intros Hsame Hmain Hmain'.
  apply main_Ok_inv in Hmain
    as (tr & va & te & Htr & _ & _ & Htrain & Hval & Htest & Hstats & Hdict & Hdm).
  apply main_Ok_inv in Hmain'
    as (tr' & va' & te' & Htr' & _ & _ & Htrain' & _ & _ & Hstats' & Hdict' & Hdm').
  rewrite Hdm, Hdm'. cbn. split_and!; try done.
  rewrite Hdict, Hdict'. f_equal.
  assert (tr' = tr) as -> by congruence.
  rewrite Htrain' in Hstats'. rewrite Htrain in Hstats. congruence.
Qed.

Lemma band_stats_from_train_only_witness :
  ∃ st st',
    main small_disk small_partition small_label_map = Ok st ∧
    main small_disk small_partition' small_label_map = Ok st' ∧
    dm_band_stats (data_module st') = dm_band_stats (data_module st) ∧
    ds_band_stats (val_dataset (setup (data_module st))) = dm_band_stats (data_module st) ∧
    ds_band_stats (test_dataset (setup (data_module st))) = dm_band_stats (data_module st).
Proof.
  destruct (main small_disk small_partition small_label_map) as [st|e] eqn:Hmain;
    [|vm_compute in Hmain; discriminate].
  destruct (main small_disk small_partition' small_label_map) as [st'|e] eqn:Hmain';
    [|vm_compute in Hmain'; discriminate].
  exists st, st'.
  destruct (band_stats_from_train_only small_disk small_label_map
              small_partition small_partition' st st' eq_refl Hmain Hmain')
    as (_ & _ & Hsame & _ & _ & _ & _ & Hval & Htest).
  by split_and!.
Defined.

(** ** Shapes through the channel adapters *)

Section Shapes.
Context {A : Type} (S : Scalar A).

Lemma plane_axpy_shape H W (w : A) (plane acc : ndarray A) :
  plane_shape H W plane → plane_shape H W acc →
  plane_shape H W (plane_axpy S w plane acc).
Proof.
  intros [Hp Hprows] [Ha Harows]. unfold plane_axpy. split.
  - rewrite length_zip_with. lia.
  - clear Hp Ha. revert plane Hprows.
    induction Harows as [|r acc Hr _ IH]; intros plane Hprows; [constructor|].
    destruct Hprows as [|q plane Hq Hprows]; cbn; [constructor|].
    constructor; [|by apply IH].
    rewrite length_zip_with. lia.
Qed.

Lemma conv_fold_shape H W (conv : Conv2d A) (o : nat) (planes : list (nat * ndarray A))
    (acc : ndarray A) :
  Forall (λ cp, plane_shape H W cp.2) planes → plane_shape H W acc →
  plane_shape H W
    (fold_left (λ acc '(c, plane), plane_axpy S (weight conv o c) plane acc) planes acc).
Proof.
  intros Hplanes. revert acc.
  induction Hplanes as [|[c plane] planes Hp _ IH]; intros acc Hacc; [done|].
  cbn. apply IH. by apply plane_axpy_shape.
Qed.

Lemma bias_plane_shape H W (b : A) (plane : ndarray A) :
  plane_shape H W plane → plane_shape H W (map (map (λ _, b)) plane).
Proof.
  intros [Hlen Hrows]. split; [by rewrite length_map|].
  apply Forall_fmap. eapply Forall_impl; [exact Hrows|].
  intros row Hrow. cbn. by rewrite length_map.
Qed.

Lemma conv_channel_shape C H W (conv : Conv2d A) (sample : image A) (o : nat) :
  (0 < C)%nat → image_shape C H W sample →
  plane_shape H W (conv_channel S conv sample o).
Proof.
  intros HC [Hlen Hplanes]. unfold conv_channel. apply conv_fold_shape.
  - apply Forall_forall. intros [c plane] Hin. cbn.
    apply elem_of_zip_r in Hin. by eapply Forall_forall in Hplanes.
  - destruct Hplanes as [|plane sample Hplane _]; [cbn in Hlen; lia|].
    by apply bias_plane_shape.
Qed.

Lemma conv_sample_shape H W (conv : Conv2d A) (sample : image A) :
  (0 < in_channels conv)%nat → image_shape (in_channels conv) H W sample →
  ∃ out, conv_sample S conv sample = Ok out ∧ image_shape (out_channels conv) H W out.
Proof.
  intros HC Hshape. unfold conv_sample.
  rewrite bool_decide_eq_true_2 by apply Hshape.
  eexists. split; [done|]. split.
  - by rewrite length_map, length_seq.
  - apply Forall_fmap, Forall_forall. intros o _. cbn.
    by eapply conv_channel_shape.
Qed.

Lemma Conv2d_forward_shape B H W (conv : Conv2d A) (x : list (image A)) :
  (0 < in_channels conv)%nat → has_shape B (in_channels conv) H W x →
  ∃ y, Conv2d_forward S conv x = Ok y ∧ has_shape B (out_channels conv) H W y.
Proof.
  intros HC [<- Hx]. unfold Conv2d_forward.
  induction Hx as [|sample x Hsample _ (y & Hy & _ & Hys)].
  - exists []. split; [done|]. split; [done|constructor].
  - destruct (conv_sample_shape H W conv sample HC Hsample) as (out & Hout & Hshape).
    exists (out :: y). cbn. rewrite Hout. cbn. rewrite Hy. cbn. split; [done|].
    split; [|by constructor].
    cbn. f_equal. clear -Hy. revert y Hy.
    induction x as [|s x IH]; intros y Hy; cbn in Hy.
    + by injection Hy as <-.
    + destruct (conv_sample S conv s); [|discriminate]. cbn in Hy.
      destruct (mapM (conv_sample S conv) x) as [ys|]; [|discriminate].
      cbn in Hy. injection Hy as <-. cbn. f_equal. by apply IH.
Qed.

Lemma ReLU_forward_shape B C H W (x : list (image A)) :
  has_shape B C H W x → has_shape B C H W (ReLU_forward S x).
Proof.
  intros [Hlen Hx]. unfold ReLU_forward. split; [by rewrite length_map|].
  apply Forall_fmap. eapply Forall_impl; [exact Hx|].
  intros sample [Hc Hplanes]. cbn. split; [by rewrite length_map|].
  apply Forall_fmap. eapply Forall_impl; [exact Hplanes|].
  intros plane [Hh Hrows]. cbn. split; [by rewrite length_map|].
  apply Forall_fmap. eapply Forall_impl; [exact Hrows|].
  intros row Hrow. cbn. by rewrite length_map.
Qed.

End Shapes.

(** C6. For every batch size [B] and spatial size [H], [W], each of the two
    adapters, built for 13 input channels and with any parameter values,
    maps a batch of shape [B, 13, H, W] to a batch of shape [B, 3, H, W]. *)
Theorem adapters_preserve_spatial_shape {A : Type} (S : Scalar A) (B H W : nat)
    (w : nat → nat → A) (b : nat → A)
    (w0 : nat → nat → A) (b0 : nat → A) (w2 : nat → nat → A) (b2 : nat → A)
    (x : list (image A)) :
  has_shape B 13 H W x →
  (∃ y, MSIEmbedder1_forward S (MSIEmbedder1_init 13 w b) x = Ok y ∧
        has_shape B 3 H W y) ∧
  (∃ y, MSIEmbedder2_forward S (MSIEmbedder2_init 13 w0 b0 w2 b2) x = Ok y ∧
        has_shape B 3 H W y).
Proof.
  intros Hx. split.
  - unfold MSIEmbedder1_forward, MSIEmbedder1_init. cbn.
    apply (Conv2d_forward_shape S B H W
             {| in_channels := 13; out_channels := 3; weight := w; bias := b |});
      [cbn; lia | exact Hx].
  - unfold MSIEmbedder2_forward, MSIEmbedder2_init. cbn.
    destruct (Conv2d_forward_shape S B H W
                {| in_channels := 13; out_channels := 64; weight := w0; bias := b0 |} x)
      as (h & -> & Hh); [cbn; lia | exact Hx |]. cbn.
    destruct (Conv2d_forward_shape S B H W
                {| in_channels := 64; out_channels := 3; weight := w2; bias := b2 |}
                (ReLU_forward S h))
      as (y & -> & Hy); [cbn; lia | by apply ReLU_forward_shape |]. cbn.
    eexists. split; [done|]. by apply ReLU_forward_shape.
Qed.

Lemma adapters_preserve_spatial_shape_witness :
  (∃ y, MSIEmbedder1_forward binary32
          (MSIEmbedder1_init 13 (λ _ _, 1%float) (λ _, 0%float)) small_batch = Ok y ∧
        has_shape 2 3 1 1 y) ∧
  (∃ y, MSIEmbedder2_forward binary32 unit_embedder2 small_batch = Ok y ∧
        has_shape 2 3 1 1 y).
Proof.
  apply (adapters_preserve_spatial_shape binary32 2 1 1).
  split; [reflexivity|].
  repeat (constructor; [split; [reflexivity|]; repeat constructor |]). constructor.
Defined.

(** ** The final rectifier of the second adapter *)

Lemma elements_ReLU_forward {A} (S : Scalar A) (x : list (image A)) :
  elements (ReLU_forward S x) = map (relu S) (elements x).
Proof.
  unfold elements, ReLU_forward. by rewrite !concat_map.
Qed.

Lemma MSIEmbedder2_forward_rectified {A} (S : Scalar A) (self : MSIEmbedder2 A)
    (x y : list (image A)) :
  MSIEmbedder2_forward S self x = Ok y → ∃ pre, y = ReLU_forward S pre.
Proof.
  unfold MSIEmbedder2_forward. intros Hy.
  destruct (Conv2d_forward S (proj2_0 self) x) as [h|]; [|discriminate]. cbn in Hy.
  destruct (Conv2d_forward S (proj2_2 self) (ReLU_forward S h)) as [pre|]; [|discriminate].
  cbn in Hy. injection Hy as <-. by exists pre.
Qed.

(** In single precision the rectifier returns zero, a positive number, or
    the NaN it was given. *)
Lemma relu_binary32 (v : float) :
  is_nan (relu binary32 v) = true ∨ PrimFloat.leb 0 (relu binary32 v) = true.
Proof.
  change (relu binary32 v) with (if PrimFloat.leb v 0 then 0%float else v).
  destruct (PrimFloat.leb v 0) eqn:Hle; [by right|].
  unfold is_nan. rewrite FloatAxioms.leb_spec in Hle.
  rewrite FloatAxioms.leb_spec, FloatAxioms.eqb_spec.
  destruct (Prim2SF v) as [[]|[]| |[] m e]; cbn in *;
    first [discriminate | by left | by right].
Qed.

Lemma relu_exact (v : R) : (0 <= relu exact v)%R.
Proof.
  unfold relu. cbn. destruct (Rle_dec v 0); lra.
Qed.

(** C9, as stated, fails: a NaN that reaches the final rectifier leaves it as
    a NaN, which is not greater than or equal to zero. *)
Lemma adapter2_output_can_be_nan : ¬ adapter2_output_nonnegative.
Proof.
  intros Hclaim.
  specialize (Hclaim unit_embedder2 nan_batch [[[[nan]]; [[nan]]; [[nan]]]] eq_refl).
  apply Forall_cons in Hclaim as [Hnan _]. discriminate Hnan.
Qed.

(** C9, amended. Every element of the second adapter's output is greater
    than or equal to zero or is a NaN, because the rectifier is the last
    stage; in exact arithmetic, where there is no NaN, every element is
    greater than or equal to zero. *)
Theorem adapter2_output_rectified :
  (∀ (self : MSIEmbedder2 float) (x y : list (image float)),
     MSIEmbedder2_forward binary32 self x = Ok y →
     Forall (λ e, is_nan e = true ∨ PrimFloat.leb 0 e = true) (elements y)) ∧
  (∀ (self : MSIEmbedder2 R) (x y : list (image R)),
     MSIEmbedder2_forward exact self x = Ok y →
     Forall (λ e, (0 <= e)%R) (elements y)).
Proof.
  split; intros self x y Hy;
    apply MSIEmbedder2_forward_rectified in Hy as [pre ->];
    rewrite elements_ReLU_forward; apply Forall_fmap, Forall_forall; intros v _; cbn.
  - apply relu_binary32.
  - apply relu_exact.
Qed.

Lemma adapter2_output_rectified_witness :
  Forall (λ e, is_nan e = true ∨ PrimFloat.leb 0 e = true)
         (elements [[[[832%float]]; [[832%float]]; [[832%float]]];
                    [[[1664%float]]; [[1664%float]]; [[1664%float]]]]) ∧
  Forall (λ e, is_nan e = true ∨ PrimFloat.leb 0 e = true)
         (elements [[[[nan]]; [[nan]]; [[nan]]]]).
Proof.
  split.
  - apply (proj1 adapter2_output_rectified unit_embedder2 small_batch). reflexivity.
  - apply (proj1 adapter2_output_rectified unit_embedder2 nan_batch). reflexivity.
Defined.

(** ** Statistics of constant bands *)

(** C1, as stated, fails: there is no clamp before the square root.  With
    three one-pixel tiles of constant value one tenth the variance comes out
    as a small negative double, and the standard deviation is a NaN. *)
Lemma constant_bands_std_is_nan : ¬ constant_bands_zero_std.
Proof.
  intros Hclaim.
  destruct (compute_band_stats tenth_disk three_rows band_names)
    as [[table log]|e] eqn:Hrun; [|vm_compute in Hrun; discriminate].
  specialize (Hclaim tenth_disk three_rows (replicate 13 tenth) table log).
  assert (Hconst : constant_file (replicate 13 tenth) (constant_tile tenth)).
  { repeat (constructor; [eexists; split; [reflexivity|]; split;
                          [discriminate | by repeat constructor] |]).
    constructor. }
  specialize (Hclaim ltac:(discriminate) eq_refl).
  assert (Hfiles : ∀ row, row ∈ three_rows →
            ∃ f, tenth_disk (filename row) = Some f ∧
                 constant_file (replicate 13 tenth) f).
  { intros row _. exists (constant_tile tenth). split; [reflexivity | exact Hconst]. }
  specialize (Hclaim Hfiles Hrun).
  vm_compute in Hrun. injection Hrun as <- <-.
  apply Forall2_cons in Hclaim as [[_ Hstd] _]. vm_compute in Hstd. discriminate Hstd.
Qed.

Lemma fold_left_Rplus_constant (c x : R) (l : list R) :
  Forall (λ y, y = c) l →
  fold_left Rplus l x = (x + IZR (Z.of_nat (length l)) * c)%R.
Proof.
  intros Hl. revert x. induction Hl as [|y l -> _ IH]; intros x.
  - cbn [fold_left length]. change (Z.of_nat 0) with 0. lra.
  - cbn [fold_left length]. rewrite IH, Nat2Z.inj_succ, succ_IZR. lra.
Qed.

Lemma np_sum_constant (c : R) (arr : ndarray R) :
  constant_band c arr → np_sum arr = (IZR (np_size arr) * c)%R.
Proof.
  intros [Hne Hall]. unfold np_sum, np_size.
  destruct (concat arr) as [|x r]; [done|].
  apply Forall_cons in Hall as [-> Hall].
  rewrite (fold_left_Rplus_constant c) by done.
  cbn [length]. rewrite Nat2Z.inj_succ, succ_IZR. cbn. lra.
Qed.

Lemma np_square_constant (c : R) (arr : ndarray R) :
  constant_band c arr →
  constant_band (c * c)%R (np_square arr) ∧ np_size (np_square arr) = np_size arr.
Proof.
  intros [Hne Hall]. unfold constant_band, np_size, np_square.
  rewrite <- concat_map. split_and!.
  - destruct (concat arr); [done|discriminate].
  - apply Forall_fmap. eapply Forall_impl; [exact Hall|]. by intros x ->.
  - by rewrite length_map.
Qed.

Lemma update_at_middle {T} (f : T → T) (pre post : list T) (x : T) (j : nat) :
  length pre = j →
  update_at j f (pre ++ x :: post)%list = Ok (pre ++ f x :: post)%list.
Proof.
  intros <-. unfold update_at. rewrite list_lookup_middle by done.
  f_equal. replace (length pre) with (length pre + 0)%nat by lia.
  by rewrite insert_app_r.
Qed.

Lemma wrap_int64_id (z : Z) : -2 ^ 63 ≤ z < 2 ^ 63 → wrap_int64 z = z.
Proof. intros Hz. unfold wrap_int64. rewrite Z.mod_small; lia. Qed.

Lemma file_sizes_length {A} (c : list A) (f : h5file A) :
  constant_file c f → length (file_sizes f) = length c.
Proof.
  intros Hf. unfold file_sizes. rewrite length_map.
  symmetry. by eapply Forall2_length.
Qed.

Lemma file_sizes_positive {A} (c : list A) (f : h5file A) :
  constant_file c f → Forall (λ sz, 0 < sz) (file_sizes f).
Proof.
  intros Hf. unfold file_sizes.
  induction Hf as [|ci [name entry] c f (arr & Harr & Hne & _) _ IH]; cbn; [constructor|].
  constructor; [|exact IH]. cbn in Harr. subst entry.
  destruct (concat arr); [done|]. cbn [length]. lia.
Qed.

(** One file of constant bands moves the accumulators from [cnt] to
    [cnt] plus the file's band sizes. *)
Lemma accumulate_file_constant (c : list R) (f : h5file R) :
  constant_file c f →
  ∀ (j : nat) (preS preQ : list R) (preC cnt : list Z),
    length preS = j → length preQ = j → length preC = j →
    Forall2 (λ N sz, 0 ≤ N ∧ 0 ≤ sz ∧ N + sz < 2 ^ 63) cnt (file_sizes f) →
    accumulate_file j f
      {| band_sum := preS ++ band_sum (exact_state c cnt);
         band_sq_sum := preQ ++ band_sq_sum (exact_state c cnt);
         band_pixel_counts := preC ++ cnt |}
    = ({| band_sum :=
            preS ++ band_sum (exact_state c (zip_with Z.add cnt (file_sizes f)));
          band_sq_sum :=
            preQ ++ band_sq_sum (exact_state c (zip_with Z.add cnt (file_sizes f)));
          band_pixel_counts := preC ++ zip_with Z.add cnt (file_sizes f) |}, None).
Proof.
  induction 1 as [|ci [name entry] c f (arr & Harr & Hconst) _ IH];
    intros j preS preQ preC cnt HS HQ HC Hbound.
  - apply Forall2_nil_inv_r in Hbound as ->. reflexivity.
  - cbn in Harr. subst entry.
    cbn [file_sizes map snd] in Hbound.
    apply Forall2_cons_inv_r in Hbound as (N & cnt' & (HN & Hsz & Hlt) & Hbound & ->).
    cbn [accumulate_file h5_read exact_state band_sum band_sq_sum zip_with].
    unfold accumulate_band. cbn [band_sum band_sq_sum band_pixel_counts].
    rewrite !update_at_middle by done. cbn [bind].
    destruct (np_square_constant ci arr Hconst) as [Hsq Hsize].
    rewrite (np_sum_constant ci arr Hconst), (np_sum_constant _ _ Hsq), Hsize.
    rewrite wrap_int64_id by (unfold np_size; lia).
    change (np_size arr) with (Z.of_nat (length (concat arr))).
    set (sz := Z.of_nat (length (concat arr))) in *.
    replace (s_add (IZR N * ci)%R (IZR sz * ci)%R) with (IZR (N + sz) * ci)%R
      by (rewrite plus_IZR; cbn; lra).
    replace (s_add (IZR N * (ci * ci))%R (IZR sz * (ci * ci))%R)
      with (IZR (N + sz) * (ci * ci))%R by (rewrite plus_IZR; cbn; lra).
    rewrite (cons_middle _ preS), (cons_middle _ preQ), (cons_middle (N + sz) preC).
    rewrite !app_assoc.
    specialize (IH (S j) (preS ++ [(IZR (N + sz) * ci)%R])%list
                  (preQ ++ [(IZR (N + sz) * (ci * ci))%R])%list
                  (preC ++ [N + sz])%list cnt').
    cbn [exact_state band_sum band_sq_sum] in IH.
    rewrite IH; [| rewrite length_app; cbn; lia ..| exact Hbound].
    cbn [file_sizes map snd zip_with exact_state band_sum band_sq_sum].
    by rewrite <- !app_assoc.
Qed.

Lemma zip_add_ge (cnt szs : list Z) :
  length szs = length cnt → Forall (λ sz, 0 < sz) szs →
  Forall2 (λ N N', N < N') cnt (zip_with Z.add cnt szs).
Proof.
  revert szs. induction cnt as [|N cnt IH]; intros [|sz szs] Hlen Hpos;
    try discriminate; cbn; [constructor|].
  apply Forall_cons in Hpos as [Hsz Hpos].
  constructor; [lia|]. apply IH; [by injection Hlen | done].
Qed.

(** The totals only grow along the files. *)
Lemma pixel_totals_ge {A} (fs : filesystem A) (c : list A) (fnames : list string) :
  (∀ fname, fname ∈ fnames → ∃ f, fs fname = Some f ∧ constant_file c f) →
  ∀ cnt, length cnt = length c →
    length (pixel_totals fs fnames cnt) = length c ∧
    Forall2 Z.le cnt (pixel_totals fs fnames cnt).
Proof.
  induction fnames as [|fname rest IH]; intros Hfiles cnt Hlen; cbn.
  - split; [done|]. apply Forall2_same_length_lookup_2; [done|].
    intros i x y Hx Hy. assert (x = y) by congruence. lia.
  - destruct (Hfiles fname) as (f & -> & Hconst); [set_solver|].
    pose proof (file_sizes_length c f Hconst) as Hsz.
    destruct (IH (λ g Hg, Hfiles g (list_elem_of_further _ _ _ Hg))
                 (zip_with Z.add cnt (file_sizes f))) as [Hlen' Hle].
    { rewrite length_zip_with. lia. }
    split; [done|].
    pose proof (zip_add_ge cnt (file_sizes f) ltac:(lia)
                  (file_sizes_positive c f Hconst)) as Hstep.
    apply Forall2_same_length_lookup_2.
    { apply Forall2_length in Hle, Hstep. lia. }
    intros i x z Hx Hz.
    destruct (Forall2_lookup_l _ _ _ _ _ Hstep Hx) as (y & Hy & Hxy).
    pose proof (Forall2_lookup_lr _ _ _ _ _ _ Hle Hy Hz). lia.
Qed.

(** All the files of a frame of constant bands, in exact arithmetic. *)
Lemma accumulate_files_constant (fs : filesystem R) (c : list R) (fnames : list string) :
  (∀ fname, fname ∈ fnames → ∃ f, fs fname = Some f ∧ constant_file c f) →
  ∀ cnt, length cnt = length c → Forall (λ N, 0 ≤ N) cnt →
    Forall (λ t, t < 2 ^ 63) (pixel_totals fs fnames cnt) →
    accumulate_files fs fnames (exact_state c cnt)
      = (exact_state c (pixel_totals fs fnames cnt), []).
Proof.
  induction fnames as [|fname rest IH]; intros Hfiles cnt Hlen Hnonneg Hbound; [done|].
  cbn [accumulate_files pixel_totals] in *.
  destruct (Hfiles fname) as (f & Hopen & Hconst); [set_solver|].
  rewrite Hopen in *. unfold try_file, h5_open. rewrite Hopen.
  pose proof (file_sizes_length c f Hconst) as Hsz.
  pose proof (file_sizes_positive c f Hconst) as Hpos.
  set (cnt' := zip_with Z.add cnt (file_sizes f)) in *.
  assert (Hrest : ∀ g, g ∈ rest → ∃ f, fs g = Some f ∧ constant_file c f).
  { intros g Hg. apply Hfiles. set_solver. }
  assert (Hlen' : length cnt' = length c).
  { unfold cnt'. rewrite length_zip_with. lia. }
  destruct (pixel_totals_ge fs c rest Hrest cnt' Hlen') as [_ Hle].
  assert (Hstep : Forall2 (λ N sz, 0 ≤ N ∧ 0 ≤ sz ∧ N + sz < 2 ^ 63) cnt (file_sizes f)).
  { apply Forall2_same_length_lookup_2; [lia|].
    intros i N sz HN Hs.
    assert (Hc' : cnt' !! i = Some (N + sz)).
    { unfold cnt'. rewrite lookup_zip_with, HN. cbn. by rewrite Hs. }
    destruct (Forall2_lookup_l _ _ _ _ _ Hle Hc') as (t & Ht & Hlt).
    pose proof (Forall_lookup_1 _ _ _ _ Hbound Ht).
    pose proof (Forall_lookup_1 _ _ _ _ Hnonneg HN).
    pose proof (Forall_lookup_1 _ _ _ _ Hpos Hs). cbn in *. lia. }
  pose proof (accumulate_file_constant c f Hconst 0 [] [] [] cnt
                eq_refl eq_refl eq_refl Hstep) as Hfile.
  cbn [app] in Hfile. fold cnt' in Hfile.
  assert (Heta : ∀ k, {| band_sum := band_sum (exact_state c k);
                         band_sq_sum := band_sq_sum (exact_state c k);
                         band_pixel_counts := k |} = exact_state c k) by done.
  rewrite !Heta in Hfile. rewrite Hfile.
  rewrite IH; [done | done | done | | done].
  apply Forall_forall. intros N' HN'.
  apply list_elem_of_lookup in HN' as [i Hi].
  unfold cnt' in Hi. rewrite lookup_zip_with in Hi.
  destruct (cnt !! i) as [N|] eqn:HN; [|done]. cbn in Hi.
  destruct (file_sizes f !! i) as [sz|] eqn:Hs; [|done]. cbn in Hi.
  injection Hi as <-.
  pose proof (Forall_lookup_1 _ _ _ _ Hnonneg HN).
  pose proof (Forall_lookup_1 _ _ _ _ Hpos Hs). cbn in *. lia.
Qed.

Lemma exact_state_zeros (c : list R) :
  {| band_sum := zeros (s_of_Z 0) (length c);
     band_sq_sum := zeros (s_of_Z 0) (length c);
     band_pixel_counts := zeros 0 (length c) |}
  = exact_state c (replicate (length c) 0).
Proof.
  unfold exact_state, zeros. f_equal.
  - induction c as [|ci c IH]; [done|]. cbn in *. rewrite <- IH. f_equal. lra.
  - induction c as [|ci c IH]; [done|]. cbn in *. rewrite <- IH. f_equal. lra.
Qed.

(** The rows computed from the exact accumulators of constant bands. *)
Lemma stats_rows_constant (names : list string) (c : list R) (cnt : list Z) :
  length names = length c → length cnt = length c → Forall (λ N, 0 < N) cnt →
  let table := stats_rows names (band_sum (exact_state c cnt))
                 (band_sq_sum (exact_state c cnt)) cnt in
  map Band table = names ∧
  Forall2 (λ ci r, Mean r = ci ∧ Std r = 0%R ∧ 0 < Pixels r) c table.
Proof.
  revert names cnt. induction c as [|ci c IH]; intros [|b names] [|N cnt] Hn Hc Hpos;
    try discriminate;
    cbn [stats_rows exact_state band_sum band_sq_sum zip_with map].
  - split; [done|constructor].
  - apply Forall_cons in Hpos as [HN Hpos].
    destruct (IH names cnt) as [Hbands Hrows]; [by injection Hn | by injection Hc | done |].
    cbn [exact_state band_sum band_sq_sum] in Hbands, Hrows.
    split; [cbn [Band]; by rewrite Hbands|].
    constructor; [|exact Hrows]. cbn [Mean Std Pixels].
    assert (HNR : IZR N ≠ 0%R) by (apply not_0_IZR; lia).
    assert (Hmean : band_mean (IZR N * ci)%R N = ci).
    { unfold band_mean. cbn. by field. }
    split_and!; [exact Hmean | | exact HN].
    unfold band_std. rewrite Hmean. cbn.
    replace (IZR N * (ci * ci) / IZR N - ci * ci)%R with 0%R by (by field).
    apply sqrt_0.
Qed.

Lemma pixel_totals_positive {A} (fs : filesystem A) (c : list A) (fnames : list string) :
  fnames ≠ [] →
  (∀ fname, fname ∈ fnames → ∃ f, fs fname = Some f ∧ constant_file c f) →
  Forall (λ N, 0 < N) (pixel_totals fs fnames (replicate (length c) 0)).
Proof.
  destruct fnames as [|fname rest]; [done|]. intros _ Hfiles. cbn.
  destruct (Hfiles fname) as (f & -> & Hconst); [set_solver|].
  pose proof (file_sizes_length c f Hconst) as Hsz.
  pose proof (file_sizes_positive c f Hconst) as Hpos.
  set (cnt := zip_with Z.add (replicate (length c) 0) (file_sizes f)).
  assert (Hlen : length cnt = length c).
  { unfold cnt. rewrite length_zip_with, length_replicate. lia. }
  destruct (pixel_totals_ge fs c rest) with (cnt := cnt) as [Hlen' Hle]; [|done|].
  { intros g Hg. apply Hfiles. set_solver. }
  apply Forall_forall. intros t Ht. apply list_elem_of_lookup in Ht as [i Hi].
  destruct (Forall2_lookup_r _ _ _ _ _ Hle Hi) as (N & HN & HNt).
  unfold cnt in HN. rewrite lookup_zip_with in HN.
  destruct (replicate (length c) 0 !! i) as [z|] eqn:Hz; [|done]. cbn in HN.
  apply lookup_replicate in Hz as [-> _].
  destruct (file_sizes f !! i) as [sz|] eqn:Hs; [|done]. cbn in HN.
  injection HN as <-.
  pose proof (Forall_lookup_1 _ _ _ _ Hpos Hs). cbn in *. lia.
Qed.

(** C1, amended. In exact arithmetic, for every non-empty frame of readable
    files whose bands each hold a single constant value (one band per name,
    pixel counts within [int64]), [compute_band_stats] returns for each band
    a mean equal to the constant and a standard deviation equal to zero, and
    prints no failure.  Nothing is clamped on the way: the standard deviation
    is the square root of the variance as computed. *)
Theorem constant_bands_exact_statistics
    (fs : filesystem R) (df : list example_row) (names : list string) (c : list R) :
  df ≠ [] → length c = length names →
  (∀ row, row ∈ df → ∃ f, fs (filename row) = Some f ∧ constant_file c f) →
  Forall (λ t, t < 2 ^ 63)
         (pixel_totals fs (map filename df) (replicate (length names) 0)) →
  ∃ table,
    compute_band_stats fs df names = Ok (table, []) ∧
    map Band table = names ∧
    Forall2 (λ ci r, Mean r = ci ∧ Std r = 0%R ∧ 0 < Pixels r) c table.
Proof.
  intros Hne Hlen Hfiles Hbound.
  assert (Hfiles' : ∀ fname, fname ∈ map filename df →
            ∃ f, fs fname = Some f ∧ constant_file c f).
  { intros fname Hin. apply list_elem_of_fmap in Hin as (row & -> & Hrow).
    by apply Hfiles. }
  rewrite compute_band_stats_Ok by done. cbn zeta.
  rewrite <- Hlen in *. rewrite exact_state_zeros.
  rewrite (accumulate_files_constant fs c _ Hfiles');
    [| by rewrite length_replicate
     | apply Forall_forall; intros N HN; apply elem_of_replicate in HN as [-> _]; lia
     | exact Hbound].
  cbn [fst snd]. eexists. split; [reflexivity|].
  apply stats_rows_constant.
  - done.
  - by apply (pixel_totals_ge fs c _ Hfiles'), length_replicate.
  - apply pixel_totals_positive; [|done]. by destruct df.
Qed.

Lemma constant_bands_exact_statistics_witness :
  ∃ table,
    compute_band_stats exact_disk three_rows band_names = Ok (table, []) ∧
    map Band table = band_names ∧
    Forall2 (λ ci r, Mean r = ci ∧ Std r = 0%R ∧ 0 < Pixels r) (replicate 13 2%R) table.
Proof.
  apply (constant_bands_exact_statistics exact_disk three_rows band_names
           (replicate 13 2%R)).
  - discriminate.
  - reflexivity.
  - intros row _. exists (constant_tile 2%R). split; [reflexivity|].
    repeat (constructor; [eexists; split; [reflexivity|]; split;
                          [discriminate | by repeat constructor] |]).
    constructor.
  - cbn. repeat (constructor; [lia|]). constructor.
Defined.

(** ** Normalization and its inverse *)

Lemma normalize_value_round_trip (stats : band_stat R) (x : R) :
  std stats ≠ 0%R →
  denormalize_value stats (s_float32 (normalize_value stats x)) = x.
Proof.
  intros Hstd. unfold denormalize_value, normalize_value. cbn. by field.
Qed.

Lemma normalize_band_round_trip (stats : band_stat R) (band : ndarray R) :
  std stats ≠ 0%R → denormalize_band stats (normalize_band stats band) = band.
Proof.
  intros Hstd. unfold denormalize_band, normalize_band.
  rewrite map_map. rewrite <- (map_id band) at 2. apply map_ext. intros row.
  rewrite map_map. rewrite <- (map_id row) at 2. apply map_ext. intros x.
  by apply (normalize_value_round_trip stats x).
Qed.

Lemma mapM_Ok_Forall2 {T U} (f : T → result U) (l : list T) (ys : list U) :
  mapM f l = Ok ys → Forall2 (λ x y, f x = Ok y) l ys.
Proof.
  revert ys. induction l as [|x l IH]; intros ys Hys; cbn in Hys.
  - injection Hys as <-. constructor.
  - destruct (f x) as [y|] eqn:Hy; [|discriminate]. cbn in Hys.
    destruct (mapM f l) as [ys'|]; [|discriminate]. cbn in Hys.
    injection Hys as <-. constructor; [done | by apply IH].
Qed.

Lemma torch_tensor_float32_exact (img : image R) : torch_tensor_float32 img = img.
Proof.
  unfold torch_tensor_float32. cbn.
  rewrite <- (map_id img) at 2. apply map_ext. intros plane.
  rewrite <- (map_id plane) at 2. apply map_ext. intros row.
  apply map_id.
Qed.

Lemma np_stack_Ok {A} (arrs : list (ndarray A)) (img : image A) :
  np_stack arrs = Ok img → img = arrs.
Proof.
  unfold np_stack. destruct arrs as [|a rest]; [discriminate|].
  destruct (forallb _ rest); [|discriminate]. by injection 1 as <-.
Qed.

(** ** The round trip of the normalization *)

Lemma leb_infinity_not_finite (tol : float) :
  PrimFloat.leb infinity tol = true → float_is_finite tol = false.
Proof.
  unfold float_is_finite.
  rewrite FloatAxioms.leb_spec, FloatAxioms.ltb_spec, FloatAxioms.abs_spec.
  change (Prim2SF infinity) with (S754_infinity false).
  by destruct (Prim2SF tol) as [s|[]| |s m e].
Qed.

(** C8, as stated, fails on the numbers of the script.  With the finite
    statistics mean 0 and std 2^-130 and the band value 1, the normalized
    value 2^130 is a double but exceeds every single, so the cast of the tile
    to single precision gives infinity, and [x*std+mean] gives infinity back,
    whether it is computed in doubles or in singles: no finite tolerance
    covers the difference from 1. *)
Lemma round_trip_overflows_float32 :
  ¬ round_trip_within_tolerance binary64 ∧ ¬ round_trip_within_tolerance binary32.
Proof.
  split; intros Hclaim;
    destruct (Hclaim tiny_std 1%float eq_refl eq_refl eq_refl eq_refl)
      as (tol & Hfin & Hle);
    apply leb_infinity_not_finite in Hle; congruence.
Qed.

(** The script itself produces statistics for which the round trip is lost:
    on three one-pixel tiles of constant value one tenth the standard
    deviation of every band is a NaN, which is different from zero, and the
    normalized pixel and its de-normalization are NaN. *)
Lemma round_trip_lost_on_constant_tiles :
  ∃ table log,
    compute_band_stats tenth_disk three_rows band_names = Ok (table, log) ∧
    Forall (λ r, PrimFloat.eqb (Std r) 0 = false ∧
                 is_nan (denormalize_value {| mean := Mean r; std := Std r |}
                           (s_float32 (normalize_value {| mean := Mean r; std := Std r |}
                                                       tenth))) = true)
           table.
Proof.
  destruct (compute_band_stats tenth_disk three_rows band_names)
    as [[table log]|e] eqn:Hrun; [|vm_compute in Hrun; discriminate].
  exists table, log. split; [done|].
  vm_compute in Hrun. injection Hrun as <- _.
  repeat (constructor; [split; vm_compute; reflexivity|]). constructor.
Qed.

(** C8. In exact arithmetic, normalizing a band value with statistics whose
    standard deviation is not zero and then applying [x*std+mean] gives the
    value back; and for every image that [__getitem__] returns, the same
    inverse applied to each of its bands gives back the band stored in the
    file.  The rounding of the doubles and of the final cast to single
    precision is what the real numbers leave out. *)
Theorem normalization_round_trip :
  (∀ (stats : band_stat R) (x : R),
     std stats ≠ 0%R →
     denormalize_value stats (s_float32 (normalize_value stats x)) = x) ∧
  (∀ (fs : filesystem R) (self : GEOBenchMSIDataset R) (idx : nat)
     (img : image R) (lbl : Z),
     getitem fs self idx = Ok (img, lbl) →
     ∃ row f,
       ds_df self !! idx = Some row ∧ fs (filename row) = Some f ∧
       Forall2 (λ entry plane,
                  ∃ stats band,
                    ds_band_stats self !! entry.1 = Some stats ∧
                    entry.2 = Dataset band ∧
                    (std stats ≠ 0%R → denormalize_band stats plane = band))
               f img).
Proof.
  split; [exact normalize_value_round_trip|].
  intros fs self idx img lbl Hget. unfold getitem, df_loc in Hget.
  destruct (ds_df self !! idx) as [row|] eqn:Hrow; [|discriminate]. cbn in Hget.
  destruct (dict_get (ds_label2idx self) (label row)) as [k|]; [|discriminate].
  cbn in Hget. unfold h5_open in Hget.
  destruct (fs (filename row)) as [f|] eqn:Hf; [|discriminate]. cbn in Hget.
  destruct (mapM (read_normalized (ds_band_stats self)) f) as [normalized|] eqn:Hmap;
    [|discriminate]. cbn in Hget.
  destruct (np_stack normalized) as [img0|] eqn:Hstack; [|discriminate]. cbn in Hget.
  injection Hget as <- <-.
  apply np_stack_Ok in Hstack as ->. rewrite torch_tensor_float32_exact.
  exists row, f. split_and!; [done..|].
  apply mapM_Ok_Forall2 in Hmap.
  eapply Forall2_impl; [exact Hmap|].
  intros [name entry] plane Hread. unfold read_normalized, h5_read in Hread.
  cbn in Hread. destruct entry as [band|]; [|discriminate]. cbn in Hread.
  destruct (ds_band_stats self !! name) as [stats|] eqn:Hstats; [|discriminate].
  cbn in Hread. injection Hread as <-.
  exists stats, band. split_and!; [done..|].
  apply normalize_band_round_trip.
Qed.

Lemma normalization_round_trip_witness :
  denormalize_value two_three (s_float32 (normalize_value two_three 5%R)) = 5%R.
Proof.
  apply (proj1 normalization_round_trip two_three 5%R). cbn. lra.
Defined.

(** ** Class weights *)

Lemma od_set_keys {K V} `{EqDecision K} (k : K) (v : V) (d : odict K V) :
  map fst (od_set k v d) = if decide (k ∈ map fst d) then map fst d
                             else (map fst d ++ [k])%list.
Proof.
  induction d as [|[k' v'] d IH]; cbn; [done|].
  destruct (decide (k' = k)) as [->|Hne]; cbn.
  - by rewrite decide_True by set_solver.
  - rewrite IH. destruct (decide (k ∈ map fst d)).
    + by rewrite decide_True by set_solver.
    + by rewrite decide_False by set_solver.
Qed.

Lemma od_set_elem {K V} `{EqDecision K} (k : K) (v : V) (d : odict K V) (kv : K * V) :
  kv ∈ od_set k v d → kv = (k, v) ∨ kv ∈ d.
Proof.
  induction d as [|[k' v'] d IH]; cbn; [set_solver|].
  destruct (decide (k' = k)); set_solver.
Qed.

Lemma od_set_fresh {K V} `{EqDecision K} (k : K) (v : V) (d : odict K V) :
  k ∉ map fst d → od_set k v d = (d ++ [(k, v)])%list.
Proof.
  induction d as [|[k' v'] d IH]; cbn; [done|]. intros Hk.
  rewrite decide_False by set_solver. f_equal. apply IH. set_solver.
Qed.

Lemma od_get_elem {K V} `{EqDecision K} (k : K) (v : V) (d : odict K V) :
  od_get k d = Some v → (k, v) ∈ d.
Proof.
  induction d as [|[k' v'] d IH]; cbn; [done|].
  destruct (decide (k' = k)) as [->|]; [|set_solver].
  intros [= ->]. set_solver.
Qed.

Lemma od_get_NoDup {K V} `{EqDecision K} (k : K) (v : V) (d : odict K V) :
  NoDup (map fst d) → (k, v) ∈ d → od_get k d = Some v.
Proof.
  induction d as [|[k' v'] d IH]; cbn; [set_solver|].
  intros Hnd Hin. apply NoDup_cons in Hnd as [Hk' Hnd].
  apply elem_of_cons in Hin as [[= -> ->]|Hin].
  - by rewrite decide_True.
  - rewrite decide_False; [by apply IH|].
    intros ->. apply Hk'. apply list_elem_of_fmap. by exists (k, v).
Qed.

Lemma tally_NoDup (col : list (option string)) (acc : odict string Z) :
  NoDup (map fst acc) → NoDup (map fst (tally col acc)).
Proof.
  revert acc. induction col as [|[l|] col IH]; intros acc Hnd; cbn; [done| |by apply IH].
  apply IH. rewrite od_set_keys. case_decide as Hin; [done|].
  apply NoDup_app. split_and!; [done| |apply NoDup_singleton].
  intros x Hx Hx'. apply list_elem_of_singleton in Hx' as ->. done.
Qed.

Lemma tally_elem (col : list (option string)) (acc : odict string Z) (l : string) (n : Z) :
  Forall (λ kv, 0 < kv.2) acc → (l, n) ∈ tally col acc →
  0 < n ∧ (l ∈ map fst acc ∨ Some l ∈ col).
Proof.
  revert acc. induction col as [|[l'|] col IH]; intros acc Hpos Hin; cbn in Hin.
  - split; [by apply (Forall_forall (λ kv : string * Z, 0 < kv.2) acc) in Hin|].
    left. apply list_elem_of_fmap. by exists (l, n).
  - assert (Hpos' : Forall (λ kv : string * Z, 0 < kv.2)
                      (od_set l' (default 0 (od_get l' acc) + 1) acc)).
    { apply Forall_forall. intros kv Hkv. apply od_set_elem in Hkv as [->|Hkv].
      * cbn. destruct (od_get l' acc) as [m|] eqn:Hm; cbn; [|lia].
        apply od_get_elem in Hm.
        apply (Forall_forall (λ kv : string * Z, 0 < kv.2) acc) in Hm; [|done].
        cbn in Hm. lia.
      * by apply (Forall_forall (λ kv : string * Z, 0 < kv.2) acc) in Hkv. }
    destruct (IH _ Hpos' Hin) as [Hn Hl].
    split; [done|]. destruct Hl as [Hl|Hl]; [|set_solver].
    rewrite od_set_keys in Hl. case_decide; set_solver.
  - destruct (IH acc Hpos Hin) as [Hn Hl]. split; [done|]. set_solver.
Qed.

Lemma tally_key (col : list (option string)) (acc : odict string Z) (l : string) :
  l ∈ map fst acc ∨ Some l ∈ col → l ∈ map fst (tally col acc).
Proof.
  revert acc. induction col as [|[l'|] col IH]; intros acc Hl; cbn.
  - set_solver.
  - apply IH. rewrite od_set_keys. case_decide; set_solver.
  - apply IH. set_solver.
Qed.

Lemma insert_desc_Permutation (x : string * Z) (l : odict string Z) :
  insert_desc x l ≡ₚ x :: l.
Proof.
  induction l as [|y l IH]; cbn; [done|].
  case_bool_decide; [done|]. rewrite IH. apply Permutation_swap.
Qed.

Lemma value_counts_Permutation (col : list (option string)) :
  value_counts col ≡ₚ tally col [].
Proof.
  unfold value_counts. induction (tally col []) as [|x l IH]; cbn; [done|].
  by rewrite insert_desc_Permutation, IH.
Qed.

(** What [value_counts] returns: distinct labels of the column, each with a
    positive count, and at least one when the column has a label. *)
Lemma value_counts_facts (col : list (option string)) :
  NoDup (map fst (value_counts col)) ∧
  (∀ l n, (l, n) ∈ value_counts col → 0 < n ∧ Some l ∈ col) ∧
  (∀ l, Some l ∈ col → l ∈ map fst (value_counts col)).
Proof.
  pose proof (value_counts_Permutation col) as Hperm. split_and!.
  - rewrite Hperm. apply tally_NoDup. constructor.
  - intros l n Hin. rewrite Hperm in Hin.
    destruct (tally_elem col [] l n ltac:(constructor) Hin) as [Hn [Hl|Hl]];
      [set_solver|done].
  - intros l Hl. rewrite Hperm. apply tally_key. by right.
Qed.

Lemma label2idx_main_lookup (l : string) :
  l ∈ brickkiln_labels → dict_get label2idx_main (Some l) = Ok (idx_of l).
Proof.
  unfold brickkiln_labels. intros Hl.
  apply elem_of_cons in Hl as [->|Hl]; [reflexivity|].
  apply list_elem_of_singleton in Hl as ->. reflexivity.
Qed.

Lemma idx_of_inj (l l' : string) :
  l ∈ brickkiln_labels → l' ∈ brickkiln_labels → idx_of l = idx_of l' → l = l'.
Proof.
  unfold brickkiln_labels. intros Hl Hl'.
  apply elem_of_cons in Hl as [->|Hl]; [|apply list_elem_of_singleton in Hl as ->];
    (apply elem_of_cons in Hl' as [->|Hl']; [|apply list_elem_of_singleton in Hl' as ->]);
    done.
Qed.

(** With the labels of the script no key is written twice, so the raw
    dictionary lists the classes in the order of [class_counts]. *)
Lemma raw_class_weights_main {A} `{Scalar A} (N : Z) (items : odict string Z)
    (acc : odict Z A) :
  NoDup (map fst items) →
  (∀ l, l ∈ map fst items → l ∈ brickkiln_labels) →
  (∀ l, l ∈ map fst items → idx_of l ∉ map fst acc) →
  raw_class_weights label2idx_main N items acc
    = Ok (acc ++ map (λ ln, (idx_of ln.1, s_div (s_of_Z N) (s_of_Z ln.2))) items)%list.
Proof.
  revert acc. induction items as [|[l n] items IH]; intros acc Hnd Hlab Hfresh.
  - cbn. by rewrite app_nil_r.
  - cbn [raw_class_weights map fst] in *.
    apply NoDup_cons in Hnd as [Hl Hnd].
    rewrite label2idx_main_lookup by (apply Hlab; set_solver). cbn [bind].
    rewrite od_set_fresh by (apply Hfresh; set_solver).
    rewrite IH; [by rewrite <- app_assoc | done | intros; apply Hlab; set_solver |].
    intros l' Hl'. rewrite map_app. cbn. intros Hin.
    apply elem_of_app in Hin as [Hin|Hin]; [by apply (Hfresh l'); set_solver|].
    apply list_elem_of_singleton in Hin.
    apply idx_of_inj in Hin; [by subst | apply Hlab; set_solver..].
Qed.

Lemma fold_left_Rplus_div (S a : R) (l : list R) :
  fold_left Rplus (map (λ v, v / S)%R l) (a / S)%R = (fold_left Rplus l a / S)%R.
Proof.
  revert a. induction l as [|v l IH]; intros a; cbn; [done|].
  rewrite <- IH. f_equal. unfold Rdiv. ring.
Qed.

Lemma fold_left_Rplus_pos (a : R) (l : list R) :
  (0 <= a)%R → Forall (λ v, (0 < v)%R) l → l ≠ [] → (0 < fold_left Rplus l a)%R.
Proof.
  intros Ha Hl Hne. destruct Hl as [|v l Hv Hl]; [done|]. clear Hne. cbn.
  cbn beta in Hv.
  assert (Hpos : (0 < a + v)%R) by lra. clear Ha Hv. revert Hpos.
  generalize (a + v)%R. induction Hl as [|w l Hw _ IH]; intros b Hb; cbn; [done|].
  apply IH. lra.
Qed.

Lemma foldr_Zadd_pos (l : list Z) :
  Forall (λ n, 0 < n) l → l ≠ [] → 0 < foldr Z.add 0 l.
Proof.
  intros Hl Hne. destruct Hl as [|n l Hn Hl]; [done|]. clear Hne.
  cbn [foldr]. cbn beta in Hn.
  assert (0 ≤ foldr Z.add 0 l); [|lia].
  clear Hn. induction Hl as [|m l Hm _ IH]; cbn [foldr]; [lia|].
  cbn beta in Hm. lia.
Qed.

Lemma od_get_od_set_eq {K V} `{EqDecision K} (k : K) (v : V) (d : odict K V) :
  od_get k (od_set k v d) = Some v.
Proof.
  induction d as [|[k' v'] d IH]; cbn; [by rewrite decide_True|].
  destruct (decide (k' = k)) as [->|Hne]; cbn.
  - by rewrite decide_True.
  - by rewrite decide_False.
Qed.

Lemma od_get_od_set_ne {K V} `{EqDecision K} (k k' : K) (v : V) (d : odict K V) :
  k ≠ k' → od_get k' (od_set k v d) = od_get k' d.
Proof.
  intros Hne. induction d as [|[k'' v''] d IH]; cbn; [by rewrite decide_False|].
  destruct (decide (k'' = k)) as [->|]; cbn.
  - by rewrite !decide_False.
  - destruct (decide (k'' = k')); [done|exact IH].
Qed.

(** The tally counts the occurrences of each label. *)
Lemma tally_get (col : list (option string)) (acc : odict string Z) (l : string) :
  let c := Z.of_nat (length (filter (λ x, x = Some l) col)) in
  od_get l (tally col acc) =
    if bool_decide (c = 0) then od_get l acc else Some (default 0 (od_get l acc) + c).
Proof.
  revert acc. induction col as [|[l'|] col IH]; intros acc; cbn zeta in *.
  - done.
  - cbn [tally]. rewrite IH. rewrite filter_cons.
    destruct (decide (l' = l)) as [->|Hne].
    + rewrite decide_True by done. cbn [length]. rewrite od_get_od_set_eq. cbn.
      rewrite (bool_decide_eq_false_2 (Z.of_nat (S _) = 0)) by lia.
      case_bool_decide; f_equal; lia.
    + rewrite decide_False by congruence. by rewrite od_get_od_set_ne.
  - cbn [tally]. rewrite IH. by rewrite filter_cons, decide_False.
Qed.

Lemma od_set_total (l : string) (acc : odict string Z) :
  foldr Z.add 0 (map snd (od_set l (default 0 (od_get l acc) + 1) acc))
  = foldr Z.add 0 (map snd acc) + 1.
Proof.
  induction acc as [|[k v] acc IH]; cbn; [lia|].
  destruct (decide (k = l)); cbn; lia.
Qed.

Lemma tally_total (col : list (option string)) (acc : odict string Z) :
  foldr Z.add 0 (map snd (tally col acc))
  = foldr Z.add 0 (map snd acc) + Z.of_nat (length (filter (λ x, is_Some x) col)).
Proof.
  revert acc. induction col as [|[l|] col IH]; intros acc; cbn [tally].
  - cbn. lia.
  - rewrite IH, od_set_total, filter_cons, decide_True by done. cbn [length]. lia.
  - rewrite IH, filter_cons, decide_False; [done|]. by intros [? ?].
Qed.

Lemma insert_desc_total (x : string * Z) (l : odict string Z) :
  foldr Z.add 0 (map snd (insert_desc x l)) = x.2 + foldr Z.add 0 (map snd l).
Proof.
  induction l as [|y l IH]; cbn; [done|].
  case_bool_decide; cbn; [done|]. rewrite IH. lia.
Qed.

Lemma sort_desc_total (d : odict string Z) :
  foldr Z.add 0 (map snd (foldr insert_desc [] d)) = foldr Z.add 0 (map snd d).
Proof.
  induction d as [|x d IH]; [done|].
  cbn [foldr map]. by rewrite insert_desc_total, IH.
Qed.

(** [value_counts] gives each label its number of occurrences, and the
    counts add up to the number of rows that have a label. *)
Lemma value_counts_counts (col : list (option string)) :
  foldr Z.add 0 (map snd (value_counts col))
    = Z.of_nat (length (filter (λ x, is_Some x) col)) ∧
  ∀ l n, (l, n) ∈ value_counts col →
    n = Z.of_nat (length (filter (λ x, x = Some l) col)).
Proof.
  split.
  - unfold value_counts. rewrite sort_desc_total, tally_total. cbn. lia.
  - intros l n Hin. rewrite value_counts_Permutation in Hin.
    apply od_get_NoDup in Hin; [|apply tally_NoDup; constructor].
    rewrite tally_get in Hin. cbn in Hin.
    case_bool_decide; [done|]. injection Hin as <-. lia.
Qed.

Lemma od_get_normalize_weights (raw : odict Z R) (k : Z) (w : R) :
  od_get k (normalize_weights raw) = Some w →
  ∃ r, od_get k raw = Some r ∧ w = (r / py_sum (map snd raw))%R.
Proof.
  unfold normalize_weights. cbn zeta. generalize (py_sum (map snd raw)). intros S.
  induction raw as [|[k' v'] raw IH]; cbn; [done|].
  destruct (decide (k' = k)); [|exact IH].
  intros [= <-]. by exists v'.
Qed.

Lemma py_sum_normalize_weights (raw : odict Z R) :
  (0 < py_sum (map snd raw))%R → py_sum (map snd (normalize_weights raw)) = 1%R.
Proof.
  intros HS. unfold normalize_weights.
  set (S := py_sum (map snd raw)) in *.
  assert (map snd (map (λ kv : Z * R, (kv.1, s_div kv.2 S)) raw)
          = map (λ v, v / S)%R (map snd raw)) as ->.
  { rewrite !map_map. done. }
  unfold py_sum. cbn.
  replace 0%R with (0 / S)%R by (unfold Rdiv; ring).
  rewrite fold_left_Rplus_div.
  change (fold_left Rplus (map snd raw) 0%R) with S. field. lra.
Qed.

(** C7. In exact arithmetic, for a training frame with the labels of the
    script and at least one labelled row: the count of a class is the number
    of rows with its label, the total [N] is the number of labelled rows,
    the raw weight of each class is [N] divided by the count of the class, the
    normalized weights sum to one, and any two normalized weights are in the
    ratio of their raw weights.  In the doubles of the script, counts of 800
    and 200 give the raw weights 1.25 and 5.0 and normalized weights whose
    sum is 1.0 and whose ratio is 4. *)
Theorem class_weights_inverse_frequency :
  (∀ (train_df : list example_row),
     (∀ row l, row ∈ train_df → label row = Some l → l ∈ brickkiln_labels) →
     (∃ row l, row ∈ train_df ∧ label row = Some l) →
     let class_counts := value_counts (map label train_df) in
     let N := foldr Z.add 0 (map snd class_counts) in
     ∃ raw normed : odict Z R,
       class_weights label2idx_main train_df = Ok (raw, normed) ∧
       N = Z.of_nat (length (filter (λ x, is_Some x) (map label train_df))) ∧
       (∀ l count, (l, count) ∈ class_counts →
          count = Z.of_nat (length (filter (λ x, x = Some l) (map label train_df))) ∧
          dict_get label2idx_main (Some l) = Ok (idx_of l) ∧
          od_get (idx_of l) raw = Some (IZR N / IZR count)%R) ∧
       py_sum (map snd normed) = 1%R ∧
       (∀ j k wj wk, od_get j normed = Some wj → od_get k normed = Some wk →
          ∃ rj rk, od_get j raw = Some rj ∧ od_get k raw = Some rk ∧
                   (wj * rk = wk * rj)%R)) ∧
  (∃ w0 w1 : float,
     class_weights label2idx_main kiln_frame
       = Ok ([(0, 1.25%float); (1, 5%float)], [(0, w0); (1, w1)]) ∧
     py_sum [w0; w1] = 1%float ∧ PrimFloat.div w1 w0 = 4%float).
Proof.
  split.
  - intros train_df Hlabels (row0 & l0 & Hrow0 & Hl0) class_counts N.
    destruct (value_counts_facts (map label train_df)) as (Hnd & Hcounts & Hkeys).
    destruct (value_counts_counts (map label train_df)) as (Htotal & Hocc).
    fold class_counts in Hnd, Hcounts, Hkeys, Htotal, Hocc. fold N in Htotal.
    assert (Hlab : ∀ l, l ∈ map fst class_counts → l ∈ brickkiln_labels).
    { intros l Hl. apply list_elem_of_fmap in Hl as ([l' n] & -> & Hin). cbn.
      destruct (Hcounts l' n Hin) as [_ Hcol].
      apply list_elem_of_fmap in Hcol as (row & Hrow & Hin').
      by apply (Hlabels row). }
    assert (Hne : class_counts ≠ []).
    { assert (Hin : l0 ∈ map fst class_counts).
      { apply Hkeys. apply list_elem_of_fmap. by exists row0. }
      intros Heq. rewrite Heq in Hin. set_solver. }
    assert (HN : 0 < N).
    { apply foldr_Zadd_pos.
      - apply Forall_fmap, Forall_forall. intros [l n] Hin. cbn.
        by apply (Hcounts l n).
      - by destruct class_counts. }
    assert (Hcol : df_column "label" label train_df = Ok (map label train_df)).
    { unfold df_column. destruct train_df; [set_solver|done]. }
    unfold class_weights. rewrite Hcol. cbn [bind].
    fold class_counts. fold N.
    clearbody N. clearbody class_counts. clear Hcol.
    rewrite (raw_class_weights_main N class_counts []) by set_solver.
    cbn [app bind].
    set (raw := map (λ ln : string * Z, (idx_of ln.1, s_div (s_of_Z N) (s_of_Z ln.2)))
                    class_counts).
    assert (Hraw_nd : NoDup (map fst raw)).
    { unfold raw. rewrite map_map. cbn.
      change (map (λ x : string * Z, idx_of x.1) class_counts)
        with ((λ x : string * Z, idx_of x.1) <$> class_counts).
      apply NoDup_fmap_2_strong.
      - intros [l n] [l' n'] Hin Hin' Heq. cbn in Heq.
        assert (l = l') as <-.
        { apply idx_of_inj; [apply Hlab, list_elem_of_fmap; by exists (l, n)
                            |apply Hlab, list_elem_of_fmap; by exists (l', n') | done]. }
        f_equal. apply (od_get_NoDup l n) in Hin; [|done].
        apply (od_get_NoDup l n') in Hin'; [|done]. congruence.
      - eapply NoDup_fmap_1. exact Hnd. }
    exists raw, (normalize_weights raw). split; [done|]. split_and!.
    + exact Htotal.
    + intros l count Hin. split_and!.
      * by apply Hocc.
      * apply label2idx_main_lookup, Hlab, list_elem_of_fmap. by exists (l, count).
      * apply od_get_NoDup; [done|]. unfold raw.
        apply list_elem_of_fmap. by exists (l, count).
    + apply py_sum_normalize_weights.
      unfold py_sum. cbn. apply fold_left_Rplus_pos; [lra| |].
      * unfold raw. rewrite map_map. apply Forall_fmap, Forall_forall.
        intros [l n] Hin. cbn.
        apply Rdiv_lt_0_compat; apply IZR_lt; [exact HN|]. by apply (Hcounts l n).
      * unfold raw. destruct class_counts; [done | cbn; discriminate].
    + intros j k wj wk Hj Hk.
      apply od_get_normalize_weights in Hj as (rj & Hrj & ->).
      apply od_get_normalize_weights in Hk as (rk & Hrk & ->).
      exists rj, rk. split_and!; [done..|]. unfold Rdiv. ring.
  - eexists _, _. split; [vm_compute; reflexivity|]. split; reflexivity.
Qed.

Lemma class_weights_inverse_frequency_witness :
  ∃ raw normed : odict Z R,
    class_weights label2idx_main kiln_frame = Ok (raw, normed) ∧
    (∃ r0 r1, od_get 0 raw = Some r0 ∧ od_get 1 raw = Some r1 ∧
              r0 = 1.25%R ∧ r1 = 5%R) ∧
    py_sum (map snd normed) = 1%R.
Proof.
  assert (Hvc : value_counts (map label kiln_frame)
                = [("not brick kiln", 800); ("brick kiln", 200)])
    by (vm_compute; reflexivity).
  destruct (proj1 class_weights_inverse_frequency kiln_frame)
    as (raw & normed & Hrun & _ & Hraw & Hsum & _).
  - intros row l Hrow Hl. unfold kiln_frame in Hrow.
    apply elem_of_app in Hrow as [Hrow|Hrow];
      apply elem_of_replicate in Hrow as [-> _];
      injection Hl as <-; unfold brickkiln_labels.
    + apply list_elem_of_here.
    + apply list_elem_of_further, list_elem_of_here.
  - exists (kiln_row "not brick kiln"), "not brick kiln". split; [|reflexivity].
    unfold kiln_frame. apply elem_of_app. left. apply elem_of_replicate.
    split; [reflexivity|lia].
  - cbn zeta in Hraw. rewrite Hvc in Hraw.
    exists raw, normed. split_and!; [exact Hrun| |exact Hsum].
    destruct (Hraw "not brick kiln" 800) as (_ & _ & H0); [apply list_elem_of_here|].
    destruct (Hraw "brick kiln" 200) as (_ & _ & H1);
      [apply list_elem_of_further, list_elem_of_here|].
    eexists _, _. split_and!; [exact H0 | exact H1 | |];
      cbn [foldr map snd]; change (800 + (200 + 0)) with 1000; lra.
Defined.

(** * Further properties *)

(** ** The label map and the frames of [main] *)

Lemma invert_from_class_entries (m : gmap string string)
    (label_map : list (string * list string)) :
  invert_from m label_map = invert_from m (filter (λ kv, class_key kv.1) label_map).
Proof.
  revert m. induction label_map as [|[k ids] lm IH]; intros m; [done|].
  rewrite filter_cons. cbn [fst]. destruct (decide (class_key k)) as [Hk|Hk].
  - cbn. apply IH.
  - cbn. rewrite invert_step_other_key by done. apply IH.
Qed.

(** X1. Entries of the label map under a key other than ["0"] and ["1"]
    are ignored by the inversion: dropping them changes nothing. *)
Theorem label_map_other_keys_ignored (label_map : list (string * list string)) :
  invert_label_map label_map
  = invert_label_map (filter (λ kv, class_key kv.1) label_map).
Proof. apply invert_from_class_entries. Qed.

Lemma invert_from_lookup_Some (m : gmap string string) (label_map : json_lists)
    (img_id l : string) :
  invert_from m label_map !! img_id = Some l →
  m !! img_id = Some l ∨
  ∃ k ids, (k, ids) ∈ label_map ∧ class_key k ∧ img_id ∈ ids ∧ l = label_of_key k.
Proof.
  revert m. induction label_map as [|[k ids] lm IH]; intros m Hl; [by left|].
  cbn in Hl. apply IH in Hl as [Hl|(k' & ids' & Hin & Hk' & Hid & ->)].
  - destruct (decide (class_key k)) as [Hk|Hk].
    + rewrite invert_inner_lookup in Hl by done. case_bool_decide as Hid.
      * injection Hl as <-. right. exists k, ids. split_and!; [|done..].
        apply list_elem_of_here.
      * by left.
    + rewrite invert_step_other_key in Hl by done. by left.
  - right. exists k', ids'. split_and!; [|done..]. by apply list_elem_of_further.
Qed.

(** X2. The join is sound: a record of a frame has a label only if its image
    id is listed under a class key of the label map, and the label is that
    key's class name; so every label of a frame is one of the two class
    names of the script. *)
Theorem frame_labels_come_from_label_map
    (label_map : json_lists) (split_name : string) (ids : list string)
    (row : example_row) (l : string) :
  row ∈ build_frame split_name ids (invert_label_map label_map) →
  label row = Some l →
  (∃ k ids', (k, ids') ∈ label_map ∧ class_key k ∧ image_id row ∈ ids' ∧
             l = label_of_key k) ∧
  l ∈ brickkiln_labels.
Proof.
  intros Hrow Hl. unfold build_frame in Hrow.
  apply list_elem_of_fmap in Hrow as (img_id & -> & _). cbn in *.
  apply invert_from_lookup_Some in Hl as [Hl|(k & ids' & Hin & Hk & Hid & ->)].
  - by rewrite lookup_empty in Hl.
  - split; [by exists k, ids'|].
    unfold brickkiln_labels. destruct Hk as [-> | ->].
    + apply list_elem_of_here.
    + apply list_elem_of_further, list_elem_of_here.
Qed.

Lemma frame_labels_come_from_label_map_witness :
  (∃ k ids', (k, ids') ∈ small_label_map ∧ class_key k ∧ "b" ∈ ids' ∧
             "brick kiln" = label_of_key k) ∧
  "brick kiln" ∈ brickkiln_labels.
Proof.
  apply (frame_labels_come_from_label_map small_label_map "train" ["a"; "b"]
           {| image_id := "b"; filename := tile_path "b"; bands := n_bands;
              split := "train"; label := Some "brick kiln" |} "brick kiln").
  - apply list_elem_of_further, list_elem_of_here.
  - reflexivity.
Defined.

(** ** File paths of the records *)

Lemma prefix_slash_append (s t : string) :
  String.prefix "/" t = false →
  String.prefix "/" (s ++ t) = String.prefix "/" s.
Proof.
  intros Ht. destruct s as [|c s]; [exact Ht|].
  change (String c s ++ t) with (String c (s ++ t)).
  assert (Hnil : ∀ x, String.prefix "" x = true) by (by intros [|??]).
  cbn [String.prefix]. destruct (ascii_dec "/" c); [|reflexivity].
  by rewrite !Hnil.
Qed.

Lemma list_ascii_of_string_append (s t : string) :
  list_ascii_of_string (s ++ t)
  = (list_ascii_of_string s ++ list_ascii_of_string t)%list.
Proof.
  induction s as [|c s IH]; [done|].
  change (String c s ++ t) with (String c (s ++ t)).
  cbn [list_ascii_of_string]. by rewrite IH.
Qed.

Lemma string_append_inv_tail (s1 s2 t : string) : s1 ++ t = s2 ++ t → s1 = s2.
Proof.
  intros Heq. apply (f_equal list_ascii_of_string) in Heq.
  rewrite !list_ascii_of_string_append in Heq. apply app_inv_tail in Heq.
  apply (f_equal string_of_list_ascii) in Heq.
  by rewrite !string_of_list_ascii_of_string in Heq.
Qed.

Lemma tile_path_cases (img_id : string) :
  tile_path img_id =
    if String.prefix "/" img_id then img_id ++ ".hdf5"
    else data_path ++ img_id ++ ".hdf5".
Proof.
  unfold tile_path, os_path_join.
  rewrite prefix_slash_append by reflexivity.
  by destruct (String.prefix "/" img_id).
Qed.

Lemma tile_path_inj (a b : string) : tile_path a = tile_path b → a = b.
Proof.
  rewrite !tile_path_cases.
  destruct (String.prefix "/" a) eqn:Ha, (String.prefix "/" b) eqn:Hb; intros Heq.
  - by apply string_append_inv_tail in Heq.
  - destruct a as [|c a]; [discriminate Ha|]. cbn [String.prefix] in Ha.
    destruct (ascii_dec "/" c) as [<-|]; [|discriminate Ha].
    unfold data_path in Heq. cbn in Heq. discriminate Heq.
  - destruct b as [|c b]; [discriminate Hb|]. cbn [String.prefix] in Hb.
    destruct (ascii_dec "/" c) as [<-|]; [|discriminate Hb].
    unfold data_path in Heq. cbn in Heq. discriminate Heq.
  - apply (inj (String.app data_path)) in Heq.
    by apply string_append_inv_tail in Heq.
Qed.

(** X3. The file of a record is the data directory followed by the image id
    and [.hdf5]; but for an image id that starts with a slash,
    [os.path.join] drops the data directory and the file is the id followed
    by [.hdf5]. *)
Theorem frame_filenames (split_name : string) (ids : list string)
    (m : gmap string string) (row : example_row) :
  row ∈ build_frame split_name ids m →
  filename row =
    if String.prefix "/" (image_id row) then image_id row ++ ".hdf5"
    else "../m-brick-kiln/" ++ image_id row ++ ".hdf5".
Proof.
  intros Hrow. unfold build_frame in Hrow.
  apply list_elem_of_fmap in Hrow as (img_id & -> & _). cbn [filename image_id].
  apply tile_path_cases.
Qed.

Lemma frame_filenames_witness :
  filename {| image_id := "/etc/x"; filename := "/etc/x.hdf5"; bands := 13;
              split := "test"; label := None |} = "/etc/x.hdf5" ∧
  filename {| image_id := "a"; filename := "../m-brick-kiln/a.hdf5"; bands := 13;
              split := "test"; label := None |} = "../m-brick-kiln/a.hdf5".
Proof.
  split.
  - apply (frame_filenames "test" ["/etc/x"; "a"] ∅). apply list_elem_of_here.
  - apply (frame_filenames "test" ["/etc/x"; "a"] ∅).
    apply list_elem_of_further, list_elem_of_here.
Defined.

(** X4. Two records of a frame that name the same file have the same image
    id: different image ids never share a file. *)
Theorem frame_filenames_injective (split_name : string) (ids : list string)
    (m : gmap string string) (r1 r2 : example_row) :
  r1 ∈ build_frame split_name ids m → r2 ∈ build_frame split_name ids m →
  filename r1 = filename r2 → image_id r1 = image_id r2.
Proof.
  intros H1 H2. unfold build_frame in H1, H2.
  apply list_elem_of_fmap in H1 as (a & -> & _).
  apply list_elem_of_fmap in H2 as (b & -> & _). cbn [filename image_id].
  apply tile_path_inj.
Qed.

Lemma frame_filenames_injective_witness : "a" = "a".
Proof.
  apply (frame_filenames_injective "train" ["a"; "b"] ∅
           {| image_id := "a"; filename := tile_path "a"; bands := n_bands;
              split := "train"; label := None |}
           {| image_id := "a"; filename := tile_path "a"; bands := n_bands;
              split := "train"; label := None |});
    [apply list_elem_of_here | apply list_elem_of_here | reflexivity].
Defined.

(** ** More on [compute_band_stats] *)

Section BandStatsMore.
Context {A : Type} `{Scalar A}.

Lemma accumulate_file_app (i : nat) (pre rest : h5file A) (acc : accum A) :
  (accumulate_file i pre acc).2 = None →
  accumulate_file i (pre ++ rest)%list acc
  = accumulate_file (i + length pre) rest (accumulate_file i pre acc).1.
Proof.
  revert i acc. induction pre as [|[name entry] pre IH]; intros i acc Hnone.
  - cbn. by rewrite Nat.add_0_r.
  - cbn [app accumulate_file length] in *.
    destruct (h5_read entry) as [band|ex]; [|discriminate Hnone].
    destruct (accumulate_band i band acc) as [acc'|ex]; [|discriminate Hnone].
    rewrite IH by done. f_equal. lia.
Qed.

Lemma file_raises_all_datasets (n i : nat) (f : h5file A) :
  all_datasets f → (i + length f ≤ n)%nat → file_raises n i f = false.
Proof.
  intros Hf. revert i. induction Hf as [|[name entry] f (arr & Harr) _ IH]; intros i Hlen.
  - done.
  - cbn in Harr. subst entry. cbn [file_raises length] in *.
    rewrite bool_decide_eq_true_2 by lia. apply IH. lia.
Qed.

Lemma accumulate_file_all_datasets (n i : nat) (f : h5file A) (acc : accum A) :
  acc_len n acc → all_datasets f → (i + length f ≤ n)%nat →
  (accumulate_file i f acc).2 = None ∧ acc_len n (accumulate_file i f acc).1.
Proof.
  intros Hacc Hf Hlen.
  destruct (accumulate_file_raises n i f acc Hacc) as [Hlen' Hraise].
  split; [|done].
  rewrite (file_raises_all_datasets n i f Hf Hlen) in Hraise.
  destruct (accumulate_file i f acc).2; [|done].
  destruct Hraise as [Hraise _]. by specialize (Hraise ltac:(eauto)).
Qed.

Lemma accumulate_file_same_entries (i : nat) (f f' : h5file A) (acc : accum A) :
  map snd f = map snd f' → accumulate_file i f acc = accumulate_file i f' acc.
Proof.
  revert i f' acc. induction f as [|[name entry] f IH]; intros i [|[name' entry'] f'] acc Heq;
    try discriminate; [done|].
  cbn in Heq. injection Heq as -> Heq. cbn [accumulate_file].
  destruct (h5_read entry') as [band|]; [|done].
  destruct (accumulate_band i band acc); [|done]. by apply IH.
Qed.

Lemma accumulate_files_same_entries (fs fs' : filesystem A) (fnames : list string)
    (acc : accum A) :
  (∀ fname, fname ∈ fnames → map snd <$> fs fname = map snd <$> fs' fname) →
  accumulate_files fs fnames acc = accumulate_files fs' fnames acc.
Proof.
  revert acc. induction fnames as [|fname rest IH]; intros acc Hsame; [done|].
  cbn [accumulate_files].
  assert (Htry : try_file fs fname acc = try_file fs' fname acc).
  { unfold try_file, h5_open. specialize (Hsame fname (list_elem_of_here _ _)).
    destruct (fs fname) as [f|], (fs' fname) as [f'|]; try discriminate; [|done].
    cbn in Hsame. injection Hsame as Hsame. by apply accumulate_file_same_entries. }
  rewrite Htry. destruct (try_file fs' fname acc) as [acc' failure].
  rewrite IH; [done|]. intros g Hg. apply Hsame. by apply list_elem_of_further.
Qed.

Lemma accumulate_files_all_unopened (fs : filesystem A) (fnames : list string)
    (acc : accum A) :
  (∀ fname, fname ∈ fnames → fs fname = None) →
  accumulate_files fs fnames acc = (acc, map (λ fname, (fname, OSError)) fnames).
Proof.
  revert acc. induction fnames as [|fname rest IH]; intros acc Hnone; [done|].
  cbn [accumulate_files map]. unfold try_file, h5_open.
  rewrite (Hnone fname) by apply list_elem_of_here.
  rewrite IH; [done|]. intros g Hg. apply Hnone. by apply list_elem_of_further.
Qed.

End BandStatsMore.

(** X5. A file whose reading raises part-way is not skipped as a whole: the
    bands read before the failing key stay in the sums.  When the first
    keys of a file name datasets that fit the accumulators, and the next
    key names a group, the [try] block ends in [TypeError] with the
    accumulators exactly as those leading bands alone leave them; when the
    file has more datasets than there are band names, it ends in
    [IndexError] after all the bands that fit were added. *)
Theorem partial_file_keeps_leading_bands {A : Type} `{Scalar A}
    (fs : filesystem A) (n : nat) (acc : accum A) (fname name : string)
    (pre post : h5file A) (bad : h5_entry A) :
  acc_len n acc → all_datasets pre → (length pre ≤ n)%nat →
  fs fname = Some (pre ++ (name, bad) :: post)%list →
  (bad = Group ∨ ((∃ arr, bad = Dataset arr) ∧ length pre = n)) →
  (accumulate_file 0 pre acc).2 = None ∧
  try_file fs fname acc =
    ((accumulate_file 0 pre acc).1,
     Some (match bad with Group => TypeError | Dataset _ => IndexError end)).
Proof.
  intros Hacc Hpre Hlen Hopen Hbad.
  destruct (accumulate_file_all_datasets n 0 pre acc Hacc Hpre ltac:(lia)) as [Hnone Hacc'].
  split; [done|].
  unfold try_file, h5_open. rewrite Hopen.
  rewrite accumulate_file_app by done. cbn [accumulate_file Nat.add].
  destruct Hbad as [->|[[arr ->] Hn]]; [done|]. cbn [h5_read].
  by rewrite (accumulate_band_Err n) by (done || lia).
Qed.

Lemma partial_file_keeps_leading_bands_witness :
  try_file (λ _, Some group_after_two) "t.hdf5"
    {| band_sum := [0; 0; 0]%float; band_sq_sum := [0; 0; 0]%float;
       band_pixel_counts := [0; 0; 0] |}
  = ({| band_sum := [1; 2; 0]%float; band_sq_sum := [1; 4; 0]%float;
        band_pixel_counts := [1; 1; 0] |}, Some TypeError).
Proof.
  refine (proj2 (partial_file_keeps_leading_bands (λ _, Some group_after_two) 3
           {| band_sum := [0; 0; 0]%float; band_sq_sum := [0; 0; 0]%float;
              band_pixel_counts := [0; 0; 0] |} "t.hdf5" "meta"
           [("B01", Dataset [[1%float]]); ("B02", Dataset [[2%float]])]
           [("B03", Dataset [[3%float]])] Group _ _ _ _ _)).
  - by split_and!.
  - repeat constructor; by eexists.
  - cbn. lia.
  - reflexivity.
  - by left.
Defined.

(** X6. The statistics match bands by position, not by name: the keys of
    the files are never compared with the band names, so two disks whose
    files hold the same datasets in the same order, under whatever keys,
    give the same table and the same printed failures. *)
Theorem band_stats_ignore_key_names {A : Type} `{Scalar A}
    (fs fs' : filesystem A) (df : list example_row) (names : list string) :
  (∀ row, row ∈ df → map snd <$> fs (filename row) = map snd <$> fs' (filename row)) →
  compute_band_stats fs df names = compute_band_stats fs' df names.
Proof.
  intros Hsame. unfold compute_band_stats.
  destruct (df_column "filename" filename df) as [fnames|] eqn:Hcol; [|done].
  cbn [bind]. rewrite (accumulate_files_same_entries fs fs'); [done|].
  intros fname Hin. unfold df_column in Hcol. destruct df as [|r df]; [discriminate|].
  injection Hcol as <-.
  change (filename r :: map filename df) with (filename <$> r :: df) in Hin.
  apply list_elem_of_fmap in Hin as (row & -> & Hrow).
  by apply Hsame.
Qed.

Lemma band_stats_ignore_key_names_witness :
  compute_band_stats one_good_file [file_row "good.hdf5"] ["B01"]
  = compute_band_stats renamed_disk [file_row "good.hdf5"] ["B01"].
Proof.
  apply (band_stats_ignore_key_names one_good_file renamed_disk).
  intros row Hrow. apply list_elem_of_singleton in Hrow as ->. reflexivity.
Defined.

Lemma stats_rows_zeros_binary64 (names : list string) :
  stats_rows names (zeros (s_of_Z 0) (length names)) (zeros (s_of_Z 0) (length names))
             (zeros 0 (length names))
  = map (λ b, {| Band := b; Mean := nan; Std := nan; Pixels := 0 |}) names.
Proof.
  induction names as [|b names IH]; [done|].
  cbn [length zeros replicate stats_rows map]. f_equal. exact IH.
Qed.

(** X7. When no file of the frame can be opened, nothing is raised: the
    table comes back with a pixel count of zero and, in double precision, a
    mean and a standard deviation that are NaN (zero divided by zero) for
    every band, and one failure is printed per file. *)
Theorem all_files_unopened_gives_nan_table
    (fs : filesystem float) (df : list example_row) (names : list string) :
  df ≠ [] → (∀ row, row ∈ df → fs (filename row) = None) →
  compute_band_stats fs df names
  = Ok (map (λ b, {| Band := b; Mean := nan; Std := nan; Pixels := 0 |}) names,
        map (λ row, (filename row, OSError)) df).
Proof.
  intros Hne Hnone. rewrite compute_band_stats_Ok by done. cbn zeta.
  rewrite accumulate_files_all_unopened.
  - cbn [fst snd band_sum band_sq_sum band_pixel_counts].
    rewrite stats_rows_zeros_binary64. by rewrite map_map.
  - intros fname Hin. apply list_elem_of_fmap in Hin as (row & -> & Hrow).
    by apply Hnone.
Qed.

Lemma all_files_unopened_gives_nan_table_witness :
  compute_band_stats (λ _, None) [file_row "lost.hdf5"] ["B01"; "B02"]
  = Ok ([{| Band := "B01"; Mean := nan; Std := nan; Pixels := 0 |};
         {| Band := "B02"; Mean := nan; Std := nan; Pixels := 0 |}],
        [("lost.hdf5", OSError)]).
Proof.
  apply (all_files_unopened_gives_nan_table (λ _, None) [file_row "lost.hdf5"]
           ["B01"; "B02"]); [discriminate | reflexivity].
Defined.

(** X8. An empty training split stops [main]: the training frame then has
    no column, and [df['filename']] in [compute_band_stats] raises
    [KeyError('filename')], whatever the disk, the label map and the other
    two splits are. *)
Theorem main_empty_train_split {A : Type} `{Scalar A}
    (fs : filesystem A) (def_partition label_map : json_lists)
    (valid_ids test_ids : list string) :
  json_get def_partition "train" = Ok [] →
  json_get def_partition "valid" = Ok valid_ids →
  json_get def_partition "test" = Ok test_ids →
  main fs def_partition label_map = Err (KeyError (KStr "filename")).
Proof.
  intros Htrain Hvalid Htest. unfold main.
  by rewrite Htrain, Hvalid, Htest.
Qed.

Lemma main_empty_train_split_witness :
  main small_disk [("train", []); ("valid", ["c"]); ("test", ["d"])] small_label_map
  = Err (KeyError (KStr "filename")).
Proof.
  apply (main_empty_train_split small_disk _ small_label_map ["c"] ["d"]);
    reflexivity.
Defined.

(** ** The statistics in exact arithmetic *)

Lemma fold_left_Rplus_sum (l : list R) (a : R) :
  fold_left Rplus l a = (a + sum_R l)%R.
Proof.
  revert a. induction l as [|x l IH]; intros a.
  - unfold sum_R. cbn [fold_left fold_right]. lra.
  - cbn [fold_left]. rewrite IH. unfold sum_R. cbn [fold_right]. lra.
Qed.

Lemma sum_R_app (l1 l2 : list R) : sum_R (l1 ++ l2) = (sum_R l1 + sum_R l2)%R.
Proof.
  unfold sum_R. induction l1 as [|x l1 IH]; cbn [app fold_right]; [lra|].
  rewrite IH. lra.
Qed.

Lemma np_sum_exact (arr : ndarray R) : np_sum arr = sum_R (concat arr).
Proof.
  unfold np_sum. destruct (concat arr) as [|x r]; [done|].
  rewrite fold_left_Rplus_sum. reflexivity.
Qed.

Lemma np_sum_square_exact (arr : ndarray R) :
  np_sum (np_square arr) = sum_R (map (λ x, x * x)%R (concat arr)).
Proof.
  rewrite np_sum_exact. unfold np_square. by rewrite <- concat_map.
Qed.

Lemma add_pixels_length {A} (px : list (list A)) (f : h5file A) :
  length (add_pixels px f) = length px.
Proof.
  revert f. induction px as [|p px IH]; intros [|[name [arr|]] f]; cbn; try done.
  by rewrite IH.
Qed.

Lemma add_pixels_grows {A} (px : list (list A)) (f : h5file A) :
  Forall2 (λ p q, (length p ≤ length q)%nat) px (add_pixels px f).
Proof.
  revert f. induction px as [|p px IH]; intros f; [destruct f; constructor|].
  assert (Hrefl : Forall2 (λ p q : list A, (length p ≤ length q)%nat) (p :: px) (p :: px)).
  { apply Forall2_same_length_lookup_2; [done|].
    intros i x y Hx Hy. assert (x = y) as -> by congruence. lia. }
  destruct f as [|[name [arr|]] f]; cbn; [done| |done].
  constructor; [rewrite length_app; lia | apply IH].
Qed.

Lemma pixels_read_grows {A} (fs : filesystem A) (fnames : list string)
    (px : list (list A)) :
  Forall2 (λ p q, (length p ≤ length q)%nat) px (pixels_read fs fnames px).
Proof.
  revert px. induction fnames as [|fname rest IH]; intros px; cbn.
  - apply Forall2_same_length_lookup_2; [done|].
    intros i x y Hx Hy. assert (x = y) as -> by congruence. lia.
  - set (px' := match fs fname with Some f => add_pixels px f | None => px end).
    assert (Hstep : Forall2 (λ p q : list A, (length p ≤ length q)%nat) px px').
    { unfold px'. destruct (fs fname); [apply add_pixels_grows|].
      apply Forall2_same_length_lookup_2; [done|].
      intros i x y Hx Hy. assert (x = y) as -> by congruence. lia. }
    specialize (IH px').
    apply Forall2_same_length_lookup_2.
    { apply Forall2_length in Hstep, IH. lia. }
    intros i x z Hx Hz.
    destruct (Forall2_lookup_l _ _ _ _ _ Hstep Hx) as (y & Hy & Hxy).
    pose proof (Forall2_lookup_lr _ _ _ _ _ _ IH Hy Hz) as Hyz.
    cbn beta in Hxy, Hyz. lia.
Qed.

(** One file moves the exact accumulators from the pixels [px] to the
    pixels [add_pixels px f], whether or not the file raises on the way. *)
Lemma accumulate_file_pixels (f : h5file R) :
  ∀ (j : nat) (pre px : list (list R)),
    length pre = j →
    Forall (λ p, Z.of_nat (length p) < 2 ^ 63) (add_pixels px f) →
    (accumulate_file j f (pixel_state (pre ++ px))).1
    = pixel_state (pre ++ add_pixels px f).
Proof.
  induction f as [|[name [arr|]] f IH]; intros j pre px Hpre Hbound.
  - by destruct px.
  - destruct px as [|p px].
    + cbn [accumulate_file h5_read add_pixels].
      rewrite (accumulate_band_Err (length pre)); [done| |lia].
      unfold acc_len, pixel_state. cbn. by rewrite !length_map, app_nil_r.
    + cbn [accumulate_file h5_read add_pixels] in *.
      apply Forall_cons in Hbound as [Hp Hbound].
      unfold accumulate_band, pixel_state.
      cbn [band_sum band_sq_sum band_pixel_counts].
      rewrite !map_app. cbn [map].
      rewrite !update_at_middle by (by rewrite length_map). cbn [bind].
      rewrite np_sum_exact, np_sum_square_exact.
      rewrite wrap_int64_id
        by (unfold np_size; rewrite length_app in Hp; lia).
      replace (s_add (sum_R p) (sum_R (concat arr))) with (sum_R (p ++ concat arr))
        by (by rewrite sum_R_app).
      replace (s_add (sum_R (map (λ x, x * x)%R p))
                     (sum_R (map (λ x, x * x)%R (concat arr))))
        with (sum_R (map (λ x, x * x)%R (p ++ concat arr)))
        by (by rewrite map_app, sum_R_app).
      replace (Z.of_nat (length p) + np_size arr)
        with (Z.of_nat (length (p ++ concat arr)))
        by (unfold np_size; rewrite length_app; lia).
      specialize (IH (S j) (pre ++ [(p ++ concat arr)%list])%list px).
      unfold pixel_state in IH. rewrite <- !app_assoc in IH. cbn [app] in IH.
      rewrite !map_app in IH. cbn [map] in IH.
      rewrite IH; [| rewrite length_app; cbn; lia | done].
      by rewrite !map_app.
  - by destruct px.
Qed.

Lemma accumulate_files_pixels (fs : filesystem R) (fnames : list string) :
  ∀ px : list (list R),
    Forall (λ p, Z.of_nat (length p) < 2 ^ 63) (pixels_read fs fnames px) →
    (accumulate_files fs fnames (pixel_state px)).1
    = pixel_state (pixels_read fs fnames px).
Proof.
  induction fnames as [|fname rest IH]; intros px Hbound; [done|].
  cbn [accumulate_files pixels_read] in *.
  set (px' := match fs fname with Some f => add_pixels px f | None => px end) in *.
  assert (Htry : (try_file fs fname (pixel_state px)).1 = pixel_state px').
  { unfold try_file, h5_open, px'. destruct (fs fname) as [f|]; [|done].
    apply (accumulate_file_pixels f 0 [] px eq_refl).
    pose proof (pixels_read_grows fs rest (add_pixels px f)) as Hle.
    apply Forall_forall. intros p Hp. apply list_elem_of_lookup in Hp as [i Hi].
    destruct (Forall2_lookup_l _ _ _ _ _ Hle Hi) as (q & Hq & Hpq).
    pose proof (Forall_lookup_1 _ _ _ _ Hbound Hq) as Hqb.
    cbn beta in Hpq, Hqb. lia. }
  destruct (try_file fs fname (pixel_state px)) as [acc' failure]. cbn in Htry. subst acc'.
  specialize (IH px' Hbound).
  destruct (accumulate_files fs rest (pixel_state px')) as [acc'' log]. exact IH.
Qed.

Lemma sum_R_deviations (m : R) (l : list R) :
  sum_R (map (λ x, (x - m) * (x - m))%R l)
  = (sum_R (map (λ x, x * x)%R l) - 2 * m * sum_R l
     + IZR (Z.of_nat (length l)) * (m * m))%R.
Proof.
  unfold sum_R. induction l as [|x l IH].
  - cbn [map fold_right length]. change (Z.of_nat 0) with 0. lra.
  - cbn [map fold_right length]. rewrite IH, Nat2Z.inj_succ, succ_IZR. lra.
Qed.

Lemma sum_R_squares_nonneg (m : R) (l : list R) :
  (0 <= sum_R (map (λ x, (x - m) * (x - m))%R l))%R.
Proof.
  unfold sum_R. induction l as [|x l IH]; cbn [map fold_right]; [lra|].
  pose proof (Rle_0_sqr (x - m)) as Hsq. unfold Rsqr in Hsq. lra.
Qed.

(** The variance the script computes, [E[x^2] - E[x]^2], is in exact
    arithmetic the mean squared deviation, which is not negative. *)
Lemma variance_R_spec (l : list R) :
  l ≠ [] →
  (sum_R (map (λ x, x * x) l) / IZR (Z.of_nat (length l)) - mean_R l * mean_R l
   = variance_R l)%R ∧
  (0 <= variance_R l)%R.
Proof.
  intros Hne.
  assert (Hn : (0 < IZR (Z.of_nat (length l)))%R).
  { apply IZR_lt. destruct l; [done|]. cbn [length]. lia. }
  split.
  - unfold variance_R. rewrite sum_R_deviations. unfold mean_R. field. lra.
  - unfold variance_R. apply Rmult_le_pos; [apply sum_R_squares_nonneg|].
    apply Rlt_le, Rinv_0_lt_compat, Hn.
Qed.

Lemma stats_rows_pixels (names : list string) (px : list (list R)) :
  length px = length names →
  Forall3 (λ b p r,
             Band r = b ∧ Pixels r = Z.of_nat (length p) ∧
             (p ≠ [] → Mean r = mean_R p ∧ Std r = R_sqrt.sqrt (variance_R p) ∧
                       (0 <= variance_R p)%R))
          names px
          (stats_rows names (band_sum (pixel_state px)) (band_sq_sum (pixel_state px))
                      (band_pixel_counts (pixel_state px))).
Proof.
  revert px. induction names as [|b names IH]; intros [|p px] Hlen; try discriminate.
  - constructor.
  - cbn [pixel_state band_sum band_sq_sum band_pixel_counts map stats_rows].
    constructor; [|apply IH; by injection Hlen].
    cbn [Band Mean Std Pixels]. split_and!; [done..|].
    intros Hne. destruct (variance_R_spec p Hne) as [Hvar Hpos].
    split_and!; [done| |done].
    unfold band_std. cbn [s_sqrt s_sub s_div s_mul s_of_Z exact].
    change (band_mean (sum_R p) (Z.of_nat (length p))) with (mean_R p).
    by rewrite Hvar.
Qed.

Lemma pixels_read_length {A} (fs : filesystem A) (fnames : list string)
    (px : list (list A)) :
  length (pixels_read fs fnames px) = length px.
Proof.
  pose proof (pixels_read_grows fs fnames px) as Hle.
  by apply Forall2_length in Hle.
Qed.

(** X9. In exact arithmetic [compute_band_stats] returns the population
    statistics of the pixels it has read: for a frame with at least one row
    and pixel counts within [int64], the row of each band holds the number
    of pixels added to that band, and, when there is at least one, their
    mean and the square root of their mean squared deviation, which is
    never negative.  The pixels of a band are those of the datasets at its
    position in the files that open, up to the first key of a file that
    raises. *)
Theorem band_stats_population_statistics
    (fs : filesystem R) (df : list example_row) (names : list string) :
  df ≠ [] →
  Forall (λ p, Z.of_nat (length p) < 2 ^ 63)
         (pixels_read fs (map filename df) (replicate (length names) [])) →
  ∃ table log,
    compute_band_stats fs df names = Ok (table, log) ∧
    Forall3 (λ b p r,
               Band r = b ∧ Pixels r = Z.of_nat (length p) ∧
               (p ≠ [] → Mean r = mean_R p ∧ Std r = R_sqrt.sqrt (variance_R p) ∧
                         (0 <= variance_R p)%R))
            names (pixels_read fs (map filename df) (replicate (length names) []))
            table.
Proof.
  intros Hne Hbound. rewrite compute_band_stats_Ok by done. cbn zeta.
  eexists _, _. split; [reflexivity|].
  assert (Hzero : {| band_sum := zeros (s_of_Z 0) (length names);
                     band_sq_sum := zeros (s_of_Z 0) (length names);
                     band_pixel_counts := zeros 0 (length names) |}
                  = pixel_state (replicate (length names) [])).
  { unfold pixel_state, zeros. change (@map) with (@fmap list _). by rewrite !fmap_replicate. }
  rewrite Hzero. cbn [fst]. rewrite accumulate_files_pixels by done.
  apply stats_rows_pixels. by rewrite pixels_read_length, length_replicate.
Qed.

Lemma band_stats_population_statistics_witness :
  ∃ table log,
    compute_band_stats two_tiles [file_row "t1.hdf5"; file_row "t2.hdf5"] ["B01"]
      = Ok (table, log) ∧
    Forall3 (λ b p r,
               Band r = b ∧ Pixels r = Z.of_nat (length p) ∧
               (p ≠ [] → Mean r = mean_R p ∧ Std r = R_sqrt.sqrt (variance_R p) ∧
                         (0 <= variance_R p)%R))
            ["B01"] [[1%R; 3%R; 5%R]] table.
Proof.
  apply (band_stats_population_statistics two_tiles
           [file_row "t1.hdf5"; file_row "t2.hdf5"] ["B01"]).
  - discriminate.
  - repeat constructor.
Defined.

(** ** More on [__getitem__] *)

Lemma Forall2_mapM_Ok {T U} (f : T → result U) (l : list T) (ys : list U) :
  Forall2 (λ x y, f x = Ok y) l ys → mapM f l = Ok ys.
Proof.
  induction 1 as [|x y l ys Hxy _ IH]; [done|].
  cbn. rewrite Hxy. cbn. by rewrite IH.
Qed.

Lemma ndarray_shape_plane {A} (H W : nat) (a : ndarray A) :
  plane_shape H W a → ndarray_shape a = (H, match H with O => O | _ => W end).
Proof.
  intros [Hlen Hrows]. unfold ndarray_shape. rewrite Hlen. f_equal.
  destruct Hrows as [|r a Hr _]; cbn in Hlen; subst H; [done|exact Hr].
Qed.

Lemma map_map_plane_shape {A} (g : A → A) (H W : nat) (a : ndarray A) :
  plane_shape H W a → plane_shape H W (map (map g) a).
Proof.
  intros [Hlen Hrows]. split; [by rewrite length_map|].
  apply Forall_fmap. eapply Forall_impl; [exact Hrows|].
  intros row Hrow. cbn. by rewrite length_map.
Qed.

Lemma getitem_Ok_well_formed {A : Type} `{Scalar A}
    (fs : filesystem A) (self : GEOBenchMSIDataset A) (idx : nat)
    (row : example_row) (l : string) (k : Z) (f : h5file A) (H' W : nat) :
  ds_df self !! idx = Some row → label row = Some l →
  ds_label2idx self !! l = Some k →
  fs (filename row) = Some f → f ≠ [] →
  Forall (λ entry, ∃ arr, entry.2 = Dataset arr ∧ plane_shape H' W arr ∧
                          is_Some (ds_band_stats self !! entry.1)) f →
  ∃ img,
    getitem fs self idx = Ok (img, k) ∧
    image_shape (length f) H' W img ∧
    Forall2 (λ entry plane,
               ∃ arr stats, entry.2 = Dataset arr ∧
                 ds_band_stats self !! entry.1 = Some stats ∧
                 plane = map (map (λ x, s_float32 (normalize_value stats x))) arr)
            f img.
Proof.
  intros Hrow Hl Hk Hopen Hne Hf.
  unfold getitem, df_loc, dict_get, h5_open.
  rewrite Hrow. cbn [bind]. rewrite Hl, Hk, Hopen. cbn [bind].
  assert (Hnorm : ∃ normalized,
            Forall2 (λ entry plane,
                       read_normalized (ds_band_stats self) entry = Ok plane ∧
                       plane_shape H' W plane ∧
                       ∃ arr stats, entry.2 = Dataset arr ∧
                         ds_band_stats self !! entry.1 = Some stats ∧
                         plane = normalize_band stats arr) f normalized).
  { clear Hopen Hne. induction Hf as [|[name entry] f (arr & Harr & Hshape & [stats Hstats]) _
                                      (normalized & IH)].
    - exists []. constructor.
    - cbn in Harr, Hstats. subst entry.
      exists (normalize_band stats arr :: normalized). constructor; [|exact IH].
      split_and!.
      + unfold read_normalized, dict_get. cbn. by rewrite Hstats.
      + by apply map_map_plane_shape.
      + by exists arr, stats. }
  destruct Hnorm as (normalized & Hnorm).
  rewrite (Forall2_mapM_Ok _ f normalized)
    by (eapply Forall2_impl; [exact Hnorm|]; by intros ?? [? _]).
  cbn [bind].
  assert (Hshapes : Forall (plane_shape H' W) normalized).
  { apply Forall_forall. intros plane Hin.
    apply list_elem_of_lookup in Hin as [i Hi].
    destruct (Forall2_lookup_r _ _ _ _ _ Hnorm Hi) as (entry & _ & _ & Hs & _). done. }
  assert (Hstack : np_stack normalized = Ok normalized).
  { unfold np_stack. destruct normalized as [|a rest].
    - apply Forall2_nil_inv_r in Hnorm. done.
    - apply Forall_cons in Hshapes as [Ha Hrest].
      rewrite (proj2 (forallb_forall _ rest)); [done|].
      intros b Hb. apply bool_decide_eq_true.
      rewrite (ndarray_shape_plane H' W a Ha).
      apply ndarray_shape_plane.
      by apply (proj1 (Forall_forall _ rest) Hrest), list_elem_of_In. }
  rewrite Hstack. cbn [bind]. eexists. split; [reflexivity|]. split.
  - split.
    + unfold torch_tensor_float32. rewrite length_map.
      symmetry. by eapply Forall2_length.
    + unfold torch_tensor_float32. apply Forall_fmap.
      eapply Forall_impl; [exact Hshapes|]. intros plane Hp. cbn.
      by apply (map_map_plane_shape s_float32).
  - unfold torch_tensor_float32. apply Forall2_fmap_r.
    eapply Forall2_impl; [exact Hnorm|].
    intros entry plane (_ & _ & arr & stats & Harr & Hstats & ->).
    exists arr, stats. split_and!; [done..|].
    unfold normalize_band. rewrite map_map. apply map_ext. intros r.
    by rewrite map_map.
Qed.

(** X10. For a record with a label known to [label2idx] and a file that
    opens, has at least one key, and whose keys all name datasets of one
    shape [H, W] with an entry in the statistics, [__getitem__] returns the
    label's index and an image of shape [C, H, W], [C] the number of keys:
    band by band in the file's order, each pixel normalized with the
    statistics found under the band's own key and cast to single
    precision. *)
Theorem getitem_well_formed_tile {A : Type} `{Scalar A}
    (fs : filesystem A) (self : GEOBenchMSIDataset A) (idx : nat)
    (row : example_row) (l : string) (k : Z) (f : h5file A) (H' W : nat) :
  ds_df self !! idx = Some row → label row = Some l →
  ds_label2idx self !! l = Some k →
  fs (filename row) = Some f → f ≠ [] →
  Forall (λ entry, ∃ arr, entry.2 = Dataset arr ∧ plane_shape H' W arr ∧
                          is_Some (ds_band_stats self !! entry.1)) f →
  ∃ img,
    getitem fs self idx = Ok (img, k) ∧
    image_shape (length f) H' W img ∧
    Forall2 (λ entry plane,
               ∃ arr stats, entry.2 = Dataset arr ∧
                 ds_band_stats self !! entry.1 = Some stats ∧
                 plane = map (map (λ x, s_float32 (normalize_value stats x))) arr)
            f img.
Proof. apply getitem_Ok_well_formed. Qed.

Lemma getitem_well_formed_tile_witness :
  ∃ img,
    getitem small_disk small_dataset 0 = Ok (img, 0) ∧
    image_shape 13 1 1 img ∧
    Forall2 (λ entry plane,
               ∃ arr stats, entry.2 = Dataset arr ∧
                 ds_band_stats small_dataset !! entry.1 = Some stats ∧
                 plane = map (map (λ x, s_float32 (normalize_value stats x))) arr)
            (constant_tile 1%float) img.
Proof.
  apply (getitem_well_formed_tile small_disk small_dataset 0
           {| image_id := "a"; filename := tile_path "a"; bands := n_bands;
              split := "train"; label := Some "not brick kiln" |}
           "not brick kiln" 0 (constant_tile 1%float) 1 1).
  - reflexivity.
  - reflexivity.
  - reflexivity.
  - reflexivity.
  - discriminate.
  - repeat (constructor;
            [eexists; split; [reflexivity|]; split;
             [split; [reflexivity | by repeat constructor] | by eexists] |]).
    constructor.
Defined.

(** X11. A file that cannot be opened is fatal for the dataset although the
    statistics skip it: for a record with a known label whose file does not
    open, [__getitem__] raises [OSError], while [compute_band_stats] on a
    frame holding that record returns a table and prints the failure. *)
Theorem unopened_file_is_fatal_in_getitem {A : Type} `{Scalar A}
    (fs : filesystem A) (self : GEOBenchMSIDataset A) (idx : nat)
    (row : example_row) (l : string) (k : Z) (names : list string) :
  ds_df self !! idx = Some row → label row = Some l →
  ds_label2idx self !! l = Some k → fs (filename row) = None →
  getitem fs self idx = Err OSError ∧
  ∃ table, compute_band_stats fs [row] names = Ok (table, [(filename row, OSError)]).
Proof.
  intros Hrow Hl Hk Hopen. split.
  - unfold getitem, df_loc, dict_get, h5_open.
    rewrite Hrow. cbn [bind]. by rewrite Hl, Hk, Hopen.
  - rewrite compute_band_stats_Ok by done. cbn zeta. cbn [map accumulate_files].
    unfold try_file, h5_open. rewrite Hopen. by eexists.
Qed.

Lemma unopened_file_is_fatal_in_getitem_witness :
  getitem small_disk lost_dataset 0 = Err OSError ∧
  ∃ table,
    compute_band_stats small_disk [lost_row] band_names
    = Ok (table, [(filename lost_row, OSError)]).
Proof.
  apply (unopened_file_is_fatal_in_getitem small_disk lost_dataset 0 lost_row
           "brick kiln" 1 band_names); reflexivity.
Defined.

Lemma mapM_app_Err {T U} (f : T → result U) (pre post : list T) (bad : T) (e : exn) :
  Forall (λ x, ∃ y, f x = Ok y) pre → f bad = Err e →
  mapM f (pre ++ bad :: post)%list = Err e.
Proof.
  intros Hpre Hbad. induction Hpre as [|x pre [y Hy] _ IH]; cbn.
  - by rewrite Hbad.
  - rewrite Hy. cbn. by rewrite IH.
Qed.

(** X12. The dataset finds the statistics of a band under the band's key in
    the file, not by position: when a key of the file has no entry in the
    statistics, and the keys before it name datasets that have one,
    [__getitem__] raises [KeyError] with that key. *)
Theorem getitem_key_without_statistics {A : Type} `{Scalar A}
    (fs : filesystem A) (self : GEOBenchMSIDataset A) (idx : nat)
    (row : example_row) (l : string) (k : Z) (pre post : h5file A)
    (name : string) (arr : ndarray A) :
  ds_df self !! idx = Some row → label row = Some l →
  ds_label2idx self !! l = Some k →
  fs (filename row) = Some (pre ++ (name, Dataset arr) :: post)%list →
  Forall (λ entry, (∃ a, entry.2 = Dataset a) ∧
                   is_Some (ds_band_stats self !! entry.1)) pre →
  ds_band_stats self !! name = None →
  getitem fs self idx = Err (KeyError (KStr name)).
Proof.
  intros Hrow Hl Hk Hopen Hpre Hname.
  unfold getitem, df_loc, dict_get, h5_open.
  rewrite Hrow. cbn [bind]. rewrite Hl, Hk, Hopen. cbn [bind].
  rewrite (mapM_app_Err _ pre post (name, Dataset arr) (KeyError (KStr name))); [done| |].
  - eapply Forall_impl; [exact Hpre|].
    intros [n e] [[a Ha] [stats Hstats]]. cbn in Ha, Hstats. subst e.
    eexists. unfold read_normalized, dict_get. cbn. by rewrite Hstats.
  - unfold read_normalized, dict_get. cbn. by rewrite Hname.
Qed.

Lemma getitem_key_without_statistics_witness :
  getitem misnamed_disk small_dataset 0 = Err (KeyError (KStr "B02")).
Proof.
  apply (getitem_key_without_statistics misnamed_disk small_dataset 0
           {| image_id := "a"; filename := tile_path "a"; bands := n_bands;
              split := "train"; label := Some "not brick kiln" |}
           "not brick kiln" 0 [("01 - Coastal aerosol", Dataset [[1%float]])] []
           "B02" [[1%float]]); try reflexivity.
  constructor; [|constructor]. split; by eexists.
Defined.

Lemma ndarray_shape_map {A} (g : A → A) (a : ndarray A) :
  ndarray_shape (map (map g) a) = ndarray_shape a.
Proof.
  unfold ndarray_shape. rewrite length_map. f_equal.
  destruct a as [|r a]; [done|]. cbn. by rewrite length_map.
Qed.

(** X13. [np.stack] needs bands of one shape: when every key of the file
    names a dataset with statistics but some band differs in shape from the
    first one, or when the file has no key at all, [__getitem__] raises
    [ValueError]. *)
Theorem getitem_bands_of_different_shape {A : Type} `{Scalar A}
    (fs : filesystem A) (self : GEOBenchMSIDataset A) (idx : nat)
    (row : example_row) (l : string) (k : Z) (f : h5file A) :
  ds_df self !! idx = Some row → label row = Some l →
  ds_label2idx self !! l = Some k →
  fs (filename row) = Some f →
  Forall (λ entry, (∃ a, entry.2 = Dataset a) ∧
                   is_Some (ds_band_stats self !! entry.1)) f →
  (f = [] ∨
   ∃ n0 a0 rest n1 a1, f = (n0, Dataset a0) :: rest ∧ (n1, Dataset a1) ∈ rest ∧
                       ndarray_shape a1 ≠ ndarray_shape a0) →
  getitem fs self idx = Err ValueError.
Proof.
  intros Hrow Hl Hk Hopen Hf Hbad.
  unfold getitem, df_loc, dict_get, h5_open.
  rewrite Hrow. cbn [bind]. rewrite Hl, Hk, Hopen. cbn [bind].
  assert (Hnorm : ∃ normalized,
            Forall2 (λ entry plane,
                       read_normalized (ds_band_stats self) entry = Ok plane ∧
                       ∃ a, entry.2 = Dataset a ∧ ndarray_shape plane = ndarray_shape a)
                    f normalized).
  { clear Hopen Hbad.
    induction Hf as [|[n e] f [[a Ha] [stats Hstats]] _ (normalized & IH)].
    - exists []. constructor.
    - cbn in Ha, Hstats. subst e.
      exists (normalize_band stats a :: normalized). constructor; [|exact IH]. split.
      + unfold read_normalized, dict_get. cbn. by rewrite Hstats.
      + exists a. split; [done|]. apply ndarray_shape_map. }
  destruct Hnorm as (normalized & Hnorm).
  rewrite (Forall2_mapM_Ok _ f normalized)
    by (eapply Forall2_impl; [exact Hnorm|]; by intros ?? [? _]).
  cbn [bind].
  destruct Hbad as [->|(n0 & a0 & rest & n1 & a1 & -> & Hin & Hshape)].
  - apply Forall2_nil_inv_l in Hnorm as ->. done.
  - apply Forall2_cons_inv_l in Hnorm
      as (p0 & prest & (_ & a & [= <-] & Hp0) & Hrest & ->).
    cbn [np_stack].
    destruct (forallb _ prest) eqn:Hall; [|done]. exfalso.
    apply list_elem_of_lookup in Hin as [i Hi].
    destruct (Forall2_lookup_l _ _ _ _ _ Hrest Hi) as (p1 & Hp1 & _ & a' & [= <-] & Hs1).
    rewrite forallb_forall in Hall.
    specialize (Hall p1). rewrite bool_decide_eq_true in Hall.
    apply Hshape. rewrite <- Hs1, <- Hp0. apply Hall.
    apply list_elem_of_In, list_elem_of_lookup. by exists i.
Qed.

Lemma getitem_bands_of_different_shape_witness :
  getitem ragged_disk small_dataset 0 = Err ValueError.
Proof.
  apply (getitem_bands_of_different_shape ragged_disk small_dataset 0
           {| image_id := "a"; filename := tile_path "a"; bands := n_bands;
              split := "train"; label := Some "not brick kiln" |}
           "not brick kiln" 0
           [("01 - Coastal aerosol", Dataset [[1%float]]);
            ("02 - Blue", Dataset [[1%float; 2%float]])]); try reflexivity.
  - repeat (constructor; [split; by eexists|]). constructor.
  - right. eexists _, _, _, "02 - Blue", [[1%float; 2%float]].
    split; [reflexivity|]. split; [apply list_elem_of_here|]. discriminate.
Defined.

(** ** More on the channel adapters *)

Section ConvMore.
Context {A : Type} (S : Scalar A).

Lemma Conv2d_forward_wrong_channels (conv : Conv2d A) (B C H W : nat)
    (x : list (image A)) :
  has_shape B C H W x → (0 < B)%nat → C ≠ in_channels conv →
  Conv2d_forward S conv x = Err RuntimeError.
Proof.
  intros [Hlen Hx] HB HC. destruct Hx as [|sample x [Hc _] _]; [cbn in Hlen; lia|].
  unfold Conv2d_forward. cbn [mapM]. unfold conv_sample.
  rewrite bool_decide_eq_false_2 by congruence. done.
Qed.

Lemma plane_axpy_at2 (wt : A) (plane acc : list (list A)) (h w : nat) (a v : A) :
  at2 acc h w = Some a → at2 plane h w = Some v →
  at2 (plane_axpy S wt plane acc) h w = Some (s_add a (s_mul wt v)).
Proof.
  unfold at2, plane_axpy. intros Ha Hv. rewrite lookup_zip_with.
  destruct (acc !! h) as [ra|]; [|done]. destruct (plane !! h) as [rp|]; [|done].
  cbn in *. rewrite lookup_zip_with, Ha. cbn. by rewrite Hv.
Qed.

Lemma conv_fold_at2 (conv : Conv2d A) (o h w : nat) (planes : list (nat * ndarray A))
    (vs : list A) (acc : ndarray A) (a : A) :
  Forall2 (λ cp v, at2 cp.2 h w = Some v) planes vs → at2 acc h w = Some a →
  at2 (fold_left (λ acc '(c, plane), plane_axpy S (weight conv o c) plane acc) planes acc)
      h w
  = Some (fold_left (λ acc cv, s_add acc (s_mul (weight conv o cv.1) cv.2))
                    (zip (map fst planes) vs) a).
Proof.
  intros Hpl. revert acc a.
  induction Hpl as [|[c plane] v planes vs Hv _ IH]; intros acc a Ha; [done|].
  cbn [fold_left map zip zip_with fst snd]. apply IH.
  by apply plane_axpy_at2.
Qed.

Lemma conv_channel_at2 (conv : Conv2d A) (sample : image A) (o h w : nat) (vs : list A) :
  sample ≠ [] → Forall2 (λ plane v, at2 plane h w = Some v) sample vs →
  at2 (conv_channel S conv sample o) h w = Some (pixel_affine S conv o vs).
Proof.
  intros Hne Hvs. unfold conv_channel, pixel_affine.
  assert (Hlen : length sample = length vs) by (by eapply Forall2_length).
  rewrite (conv_fold_at2 conv o h w _ vs _ (bias conv o)).
  - rewrite fst_zip by (rewrite length_seq; lia). by rewrite Hlen.
  - apply Forall2_same_length_lookup_2.
    { rewrite length_zip_with, length_seq. lia. }
    intros i [c plane] v Hi Hv. cbn.
    apply lookup_zip_with_Some in Hi as (c' & plane' & [= <- <-] & _ & Hplane).
    exact (Forall2_lookup_lr _ _ _ _ _ _ Hvs Hplane Hv).
  - destruct Hvs as [|plane v sample vs Hv _]; [done|]. cbn [hd].
    unfold at2 in *. rewrite list_lookup_fmap.
    destruct (plane !! h) as [row|]; [|done]. cbn in *.
    rewrite list_lookup_fmap. by rewrite Hv.
Qed.

Lemma mapM_Ok_lookup {T U} (f : T → result U) (l : list T) (ys : list U) (i : nat) (x : T) :
  mapM f l = Ok ys → l !! i = Some x → ∃ y, ys !! i = Some y ∧ f x = Ok y.
Proof.
  intros Hys Hx. apply mapM_Ok_Forall2 in Hys.
  destruct (Forall2_lookup_l _ _ _ _ _ Hys Hx) as (y & Hy & Hxy). by exists y.
Qed.

End ConvMore.

(** X14. Both adapters, built for 13 input channels, reject a non-empty
    batch with any other number of channels: the forward pass raises
    [RuntimeError]. *)
Theorem adapters_reject_other_channel_counts {A : Type} (S : Scalar A)
    (B C H W : nat) (w : nat → nat → A) (b : nat → A)
    (w0 : nat → nat → A) (b0 : nat → A) (w2 : nat → nat → A) (b2 : nat → A)
    (x : list (image A)) :
  has_shape B C H W x → (0 < B)%nat → C ≠ 13%nat →
  MSIEmbedder1_forward S (MSIEmbedder1_init 13 w b) x = Err RuntimeError ∧
  MSIEmbedder2_forward S (MSIEmbedder2_init 13 w0 b0 w2 b2) x = Err RuntimeError.
Proof.
  intros Hx HB HC. split.
  - unfold MSIEmbedder1_forward, MSIEmbedder1_init. cbn [proj].
    by apply (Conv2d_forward_wrong_channels S _ B C H W).
  - unfold MSIEmbedder2_forward, MSIEmbedder2_init. cbn [proj2_0].
    by rewrite (Conv2d_forward_wrong_channels S _ B C H W).
Qed.

Lemma adapters_reject_other_channel_counts_witness :
  MSIEmbedder1_forward binary32 (MSIEmbedder1_init 13 (λ _ _, 1%float) (λ _, 0%float))
    two_channel_batch = Err RuntimeError ∧
  MSIEmbedder2_forward binary32 unit_embedder2 two_channel_batch = Err RuntimeError.
Proof.
  apply (adapters_reject_other_channel_counts binary32 1 2 1 1).
  - split; [reflexivity|]. repeat constructor.
  - lia.
  - lia.
Defined.

(** X15. The linear adapter works pixel by pixel: in the output for a tile
    with at least one channel, the value of output channel [o] at a pixel
    is the bias of [o] plus the weighted values of the input channels at
    that same pixel, and nothing else of the input enters it. *)
Theorem linear_adapter_is_per_pixel {A : Type} (S : Scalar A)
    (in_ch : nat) (wt : nat → nat → A) (b : nat → A)
    (x y : list (image A)) (i : nat) (sample : image A) (h w : nat) (vs : list A) :
  MSIEmbedder1_forward S (MSIEmbedder1_init in_ch wt b) x = Ok y →
  x !! i = Some sample → sample ≠ [] →
  Forall2 (λ plane v, at2 plane h w = Some v) sample vs →
  ∃ out, y !! i = Some out ∧ length out = 3%nat ∧
    ∀ o plane, out !! o = Some plane →
      at2 plane h w
      = Some (pixel_affine S {| in_channels := in_ch; out_channels := 3;
                                weight := wt; bias := b |} o vs).
Proof.
  intros Hy Hx Hne Hvs. unfold MSIEmbedder1_forward, Conv2d_forward in Hy.
  destruct (mapM_Ok_lookup _ _ _ _ _ Hy Hx) as (out & Hout & Hconv).
  exists out. split; [done|]. unfold conv_sample in Hconv.
  case_bool_decide; [|discriminate]. injection Hconv as <-.
  cbn [proj MSIEmbedder1_init out_channels]. split; [reflexivity|].
  intros o plane Ho.
  assert (Hplane : conv_channel S {| in_channels := in_ch; out_channels := 3;
                                     weight := wt; bias := b |} sample
                     <$> (seq 0 3 !! o) = Some plane).
  { rewrite <- Ho. symmetry. apply (list_lookup_fmap _ (seq 0 3) o). }
  destruct (seq 0 3 !! o) as [o'|] eqn:Hseq; [|done]. cbn in Hplane.
  injection Hplane as <-.
  apply lookup_seq in Hseq as [-> _]. by apply conv_channel_at2.
Qed.

Lemma linear_adapter_is_per_pixel_witness :
  ∃ out, [[[[13%float]]; [[13%float]]; [[13%float]]];
          [[[26%float]]; [[26%float]]; [[26%float]]]] !! 1%nat = Some out ∧
    length out = 3%nat ∧
    ∀ o plane, out !! o = Some plane →
      at2 plane 0 0
      = Some (pixel_affine binary32
                {| in_channels := 13; out_channels := 3;
                   weight := λ _ _, 1%float; bias := λ _, 0%float |} o
                (replicate 13 2%float)).
Proof.
  apply (linear_adapter_is_per_pixel binary32 13 (λ _ _, 1%float) (λ _, 0%float)
           small_batch _ 1 (replicate 13 [[2%float]]) 0 0 (replicate 13 2%float)).
  - reflexivity.
  - reflexivity.
  - discriminate.
  - repeat constructor.
Defined.

(** ** More on the class weights *)

Lemma frame_labels_in_brickkiln (label_map : json_lists) (split_name : string)
    (ids : list string) (row : example_row) (l : string) :
  row ∈ build_frame split_name ids (invert_label_map label_map) →
  label row = Some l → l ∈ brickkiln_labels.
Proof.
  intros Hrow Hl. unfold build_frame in Hrow.
  apply list_elem_of_fmap in Hrow as (img_id & -> & _). cbn in *.
  apply invert_from_lookup_Some in Hl as [Hl|(k & ids' & Hin & Hk & Hid & ->)].
  - by rewrite lookup_empty in Hl.
  - unfold brickkiln_labels. destruct Hk as [-> | ->].
    + apply list_elem_of_here.
    + apply list_elem_of_further, list_elem_of_here.
Qed.

(** The shape of the two dictionaries for a frame with the labels of the
    script, in any arithmetic. *)
Lemma class_weights_main_form {A} `{Scalar A} (train_df : list example_row) :
  (∀ row l, row ∈ train_df → label row = Some l → l ∈ brickkiln_labels) →
  train_df ≠ [] →
  let class_counts := value_counts (map label train_df) in
  let N := foldr Z.add 0 (map snd class_counts) in
  let raw := map (λ ln : string * Z, (idx_of ln.1, s_div (s_of_Z N) (s_of_Z ln.2)))
                 class_counts in
  class_weights label2idx_main train_df = Ok (raw, normalize_weights raw).
Proof.
  intros Hlabels Hne class_counts N raw.
  destruct (value_counts_facts (map label train_df)) as (Hnd & Hcounts & _).
  assert (Hcol : df_column "label" label train_df = Ok (map label train_df)).
  { unfold df_column. by destruct train_df. }
  unfold class_weights. rewrite Hcol. cbn [bind].
  rewrite (raw_class_weights_main _ _ []); [done | done | | set_solver].
  intros l Hl. apply list_elem_of_fmap in Hl as ([l' n] & -> & Hin). cbn.
  destruct (Hcounts l' n Hin) as [_ Hc].
  apply list_elem_of_fmap in Hc as (row & Hrow & Hin'). by apply (Hlabels row).
Qed.

Lemma brickkiln_label_cases (l : string) :
  l ∈ brickkiln_labels → l = "not brick kiln" ∨ l = "brick kiln".
Proof.
  unfold brickkiln_labels. intros Hl.
  apply elem_of_cons in Hl as [->|Hl]; [by left|].
  apply list_elem_of_singleton in Hl as ->. by right.
Qed.

(** With both labels present the counts are two entries, one per label. *)
Lemma value_counts_two_classes (col : list (option string)) :
  (∀ l, Some l ∈ col → l ∈ brickkiln_labels) →
  Some "not brick kiln" ∈ col → Some "brick kiln" ∈ col →
  ∃ n0 n1,
    value_counts col = [("not brick kiln", n0); ("brick kiln", n1)] ∨
    value_counts col = [("brick kiln", n1); ("not brick kiln", n0)].
Proof.
  intros Hlab H0 H1.
  destruct (value_counts_facts col) as (Hnd & Hcounts & Hkeys).
  apply Hkeys in H0, H1.
  assert (Hk : ∀ l, l ∈ map fst (value_counts col) →
                    l = "not brick kiln" ∨ l = "brick kiln").
  { intros l Hl. apply list_elem_of_fmap in Hl as ([l' n] & -> & Hin).
    apply brickkiln_label_cases, Hlab. by apply (Hcounts l' n). }
  destruct (value_counts col) as [|[l0 n0] [|[l1 n1] [|[l2 n2] rest]]];
    cbn [map fst] in *.
  - by apply elem_of_nil in H0.
  - apply list_elem_of_singleton in H0, H1. congruence.
  - apply NoDup_cons in Hnd as [Hne _].
    rewrite list_elem_of_singleton in Hne.
    pose proof (Hk l0 (list_elem_of_here _ _)) as Hc0.
    pose proof (Hk l1 (list_elem_of_further _ _ _ (list_elem_of_here _ _))) as Hc1.
    destruct Hc0 as [->| ->], Hc1 as [->| ->]; try done.
    + exists n0, n1. by left.
    + exists n1, n0. by right.
  - exfalso. apply NoDup_cons in Hnd as [Hne0 Hnd].
    apply NoDup_cons in Hnd as [Hne1 _].
    apply not_elem_of_cons in Hne0 as [Hn01 Hne0].
    apply not_elem_of_cons in Hne0 as [Hn02 _].
    apply not_elem_of_cons in Hne1 as [Hn12 _].
    pose proof (Hk l0 (list_elem_of_here _ _)) as Hc0.
    pose proof (Hk l1 (list_elem_of_further _ _ _ (list_elem_of_here _ _))) as Hc1.
    pose proof (Hk l2 (list_elem_of_further _ _ _
                         (list_elem_of_further _ _ _ (list_elem_of_here _ _)))) as Hc2.
    destruct Hc0 as [->| ->], Hc1 as [->| ->], Hc2 as [->| ->]; done.
Qed.

(** X16. When both classes occur in the training frame, the weight tensor
    has the normalized weight of class 0 first and of class 1 second, each
    cast to single precision, whichever of the two classes is the more
    frequent one and so comes first in [class_counts]. *)
Theorem weights_tensor_ordered_by_class_index {A : Type} `{Scalar A}
    (train_df : list example_row) :
  (∀ row l, row ∈ train_df → label row = Some l → l ∈ brickkiln_labels) →
  (∃ row, row ∈ train_df ∧ label row = Some "not brick kiln") →
  (∃ row, row ∈ train_df ∧ label row = Some "brick kiln") →
  ∃ raw normed w0 w1,
    class_weights label2idx_main train_df = Ok (raw, normed) ∧
    od_get 0 normed = Some w0 ∧ od_get 1 normed = Some w1 ∧
    weights_tensor normed = Ok [s_float32 w0; s_float32 w1].
Proof.
  intros Hlabels (r0 & Hr0 & Hl0) (r1 & Hr1 & Hl1).
  pose proof (class_weights_main_form train_df Hlabels) as Hform.
  cbn zeta in Hform. rewrite Hform by (by destruct train_df; [set_solver|]).
  destruct (value_counts_two_classes (map label train_df)) as (n0 & n1 & [Hvc|Hvc]).
  - intros l Hl. apply list_elem_of_fmap in Hl as (row & Hrow & Hin).
    by apply (Hlabels row).
  - apply list_elem_of_fmap. by exists r0.
  - apply list_elem_of_fmap. by exists r1.
  - rewrite Hvc. eexists _, _, _, _. split; [reflexivity|]. by split_and!.
  - rewrite Hvc. eexists _, _, _, _. split; [reflexivity|]. by split_and!.
Qed.

Lemma weights_tensor_ordered_by_class_index_witness :
  ∃ (raw normed : odict Z float) w0 w1,
    class_weights label2idx_main
      [kiln_row "brick kiln"; kiln_row "brick kiln"; kiln_row "not brick kiln"]
      = Ok (raw, normed) ∧
    od_get 0 normed = Some w0 ∧ od_get 1 normed = Some w1 ∧
    weights_tensor normed = Ok [s_float32 w0; s_float32 w1].
Proof.
  apply (weights_tensor_ordered_by_class_index
           [kiln_row "brick kiln"; kiln_row "brick kiln"; kiln_row "not brick kiln"]).
  - intros row l Hrow Hl. unfold brickkiln_labels.
    repeat (apply elem_of_cons in Hrow as [->|Hrow];
            [injection Hl as <-;
             first [apply list_elem_of_here
                   | apply list_elem_of_further, list_elem_of_here]|]).
    by apply elem_of_nil in Hrow.
  - exists (kiln_row "not brick kiln"). split; [|reflexivity].
    apply list_elem_of_further, list_elem_of_further, list_elem_of_here.
  - exists (kiln_row "brick kiln"). split; [|reflexivity]. apply list_elem_of_here.
Defined.

(** With a single label present the counts are a single entry. *)
Lemma value_counts_one_class (col : list (option string)) (l0 : string) :
  (∀ l, Some l ∈ col → l = l0) → Some l0 ∈ col →
  ∃ n, value_counts col = [(l0, n)].
Proof.
  intros Hall Hin.
  destruct (value_counts_facts col) as (Hnd & Hcounts & Hkeys).
  apply Hkeys in Hin.
  assert (Hk : ∀ l, l ∈ map fst (value_counts col) → l = l0).
  { intros l Hl. apply list_elem_of_fmap in Hl as ([l' n] & -> & Hl).
    apply Hall. by apply (Hcounts l' n). }
  destruct (value_counts col) as [|[l n] [|[l' n'] rest]]; cbn [map fst] in *.
  - by apply elem_of_nil in Hin.
  - exists n. by rewrite (Hk l (list_elem_of_here _ _)).
  - exfalso. apply NoDup_cons in Hnd as [Hne _].
    apply not_elem_of_cons in Hne as [Hne _].
    rewrite (Hk l (list_elem_of_here _ _)) in Hne.
    by rewrite (Hk l' (list_elem_of_further _ _ _ (list_elem_of_here _ _))) in Hne.
Qed.

Lemma frame_single_label (train_df : list example_row) (l0 other : string) :
  brickkiln_labels ≡ₚ [l0; other] →
  (∀ row l, row ∈ train_df → label row = Some l → l ∈ brickkiln_labels) →
  (∀ row, row ∈ train_df → label row ≠ Some other) →
  ∀ l, Some l ∈ map label train_df → l = l0.
Proof.
  intros Hperm Hlabels Hother l Hl.
  apply list_elem_of_fmap in Hl as (row & Hrow & Hin).
  pose proof (Hlabels row l Hin (eq_sym Hrow)) as Hmem. rewrite Hperm in Hmem.
  apply elem_of_cons in Hmem as [->|Hmem]; [done|].
  apply list_elem_of_singleton in Hmem as ->. by destruct (Hother row Hin).
Qed.

(** X17. A training split in which every labelled tile is a brick kiln
    stops [main] with [KeyError(0)]: the weight dictionary then has the
    single key 1, and the list comprehension that builds the weight tensor
    asks it for key 0. *)
Theorem main_only_brick_kiln_labels {A : Type} `{Scalar A}
    (fs : filesystem A) (def_partition label_map : json_lists)
    (train_ids valid_ids test_ids : list string) :
  json_get def_partition "train" = Ok train_ids →
  json_get def_partition "valid" = Ok valid_ids →
  json_get def_partition "test" = Ok test_ids →
  let train_df := build_frame "train" train_ids (invert_label_map label_map) in
  (∃ row, row ∈ train_df ∧ label row = Some "brick kiln") →
  (∀ row, row ∈ train_df → label row ≠ Some "not brick kiln") →
  main fs def_partition label_map = Err (KeyError (KInt 0)).
Proof.
  intros Htrain Hvalid Htest train_df (r1 & Hr1 & Hl1) Hnone.
  assert (Hne : train_df ≠ []) by (intros Heq; rewrite Heq in Hr1; by apply elem_of_nil in Hr1).
  assert (Hlabels : ∀ row l, row ∈ train_df → label row = Some l → l ∈ brickkiln_labels).
  { intros row l. apply frame_labels_in_brickkiln. }
  unfold main. rewrite Htrain, Hvalid, Htest. cbn [bind]. fold train_df.
  rewrite compute_band_stats_Ok by done. cbn zeta. cbn [bind].
  pose proof (class_weights_main_form train_df Hlabels Hne) as Hform.
  cbn zeta in Hform. rewrite Hform.
  destruct (value_counts_one_class (map label train_df) "brick kiln") as [n Hvc].
  - apply (frame_single_label train_df "brick kiln" "not brick kiln");
      [apply Permutation_swap | done..].
  - apply list_elem_of_fmap. by exists r1.
  - rewrite Hvc. reflexivity.
Qed.

Lemma main_only_brick_kiln_labels_witness :
  main small_disk [("train", ["b"]); ("valid", ["c"]); ("test", ["d"])] small_label_map
  = Err (KeyError (KInt 0)).
Proof.
  apply (main_only_brick_kiln_labels small_disk _ small_label_map ["b"] ["c"] ["d"]);
    try reflexivity.
  - eexists. split; [apply list_elem_of_here|reflexivity].
  - intros row Hrow. apply list_elem_of_singleton in Hrow as ->. discriminate.
Defined.

(** X18. A training split in which every labelled tile is without a kiln
    gives a weight tensor with a single entry, for class 0, although the
    classifier has two classes. *)
Theorem only_not_brick_kiln_labels_one_weight {A : Type} `{Scalar A}
    (train_df : list example_row) :
  (∀ row l, row ∈ train_df → label row = Some l → l ∈ brickkiln_labels) →
  (∃ row, row ∈ train_df ∧ label row = Some "not brick kiln") →
  (∀ row, row ∈ train_df → label row ≠ Some "brick kiln") →
  ∃ raw normed w0,
    class_weights label2idx_main train_df = Ok (raw, normed) ∧
    normed = [(0, w0)] ∧ weights_tensor normed = Ok [s_float32 w0].
Proof.
  intros Hlabels (r0 & Hr0 & Hl0) Hnone.
  assert (Hne : train_df ≠ []) by (intros Heq; rewrite Heq in Hr0; by apply elem_of_nil in Hr0).
  pose proof (class_weights_main_form train_df Hlabels Hne) as Hform.
  cbn zeta in Hform. rewrite Hform.
  destruct (value_counts_one_class (map label train_df) "not brick kiln") as [n Hvc].
  - by apply (frame_single_label train_df "not brick kiln" "brick kiln").
  - apply list_elem_of_fmap. by exists r0.
  - rewrite Hvc. eexists _, _, _. split; [reflexivity|]. by split.
Qed.

Lemma only_not_brick_kiln_labels_one_weight_witness :
  ∃ (raw normed : odict Z float) w0,
    class_weights label2idx_main [kiln_row "not brick kiln"] = Ok (raw, normed) ∧
    normed = [(0, w0)] ∧ weights_tensor normed = Ok [s_float32 w0].
Proof.
  apply (only_not_brick_kiln_labels_one_weight [kiln_row "not brick kiln"]).
  - intros row l Hrow Hl. apply list_elem_of_singleton in Hrow as ->.
    injection Hl as <-. apply list_elem_of_here.
  - eexists. split; [apply list_elem_of_here|reflexivity].
  - intros row Hrow. apply list_elem_of_singleton in Hrow as ->. discriminate.
Defined.

Lemma od_get_normalize_weights_Some (raw : odict Z R) (k : Z) (r : R) :
  od_get k raw = Some r →
  od_get k (normalize_weights raw) = Some (r / py_sum (map snd raw))%R.
Proof.
  unfold normalize_weights. cbn zeta. generalize (py_sum (map snd raw)). intros S.
  induction raw as [|[k' v'] raw IH]; cbn; [done|].
  destruct (decide (k' = k)); [|exact IH]. by intros [= <-].
Qed.

(** The raw dictionary in exact arithmetic: one positive entry per class
    of [class_counts], under distinct keys. *)
Lemma raw_weights_exact_facts (class_counts : odict string Z) :
  NoDup (map fst class_counts) →
  (∀ l, l ∈ map fst class_counts → l ∈ brickkiln_labels) →
  (∀ l n, (l, n) ∈ class_counts → 0 < n) →
  class_counts ≠ [] →
  let N := foldr Z.add 0 (map snd class_counts) in
  let raw := map (λ ln : string * Z, (idx_of ln.1, (IZR N / IZR ln.2)%R)) class_counts in
  0 < N ∧ NoDup (map fst raw) ∧ (0 < py_sum (map snd raw))%R.
Proof.
  intros Hnd Hlab Hpos Hne N raw.
  assert (HN : 0 < N).
  { apply foldr_Zadd_pos; [|by destruct class_counts].
    apply Forall_fmap, Forall_forall. intros [l n] Hin. cbn. by apply (Hpos l n). }
  split_and!; [done| |].
  - unfold raw. rewrite map_map. cbn.
    change (map (λ x : string * Z, idx_of x.1) class_counts)
      with ((λ x : string * Z, idx_of x.1) <$> class_counts).
    apply NoDup_fmap_2_strong; [|by eapply NoDup_fmap_1].
    intros [l n] [l' n'] Hin Hin' Heq. cbn in Heq.
    assert (l = l') as <-.
    { apply idx_of_inj; [apply Hlab, list_elem_of_fmap; by exists (l, n)
                        |apply Hlab, list_elem_of_fmap; by exists (l', n') | done]. }
    f_equal. apply (od_get_NoDup l n) in Hin; [|done].
    apply (od_get_NoDup l n') in Hin'; [|done]. congruence.
  - unfold py_sum. cbn. apply fold_left_Rplus_pos; [lra| |].
    + unfold raw. rewrite map_map. apply Forall_fmap, Forall_forall.
      intros [l n] Hin. cbn.
      apply Rdiv_lt_0_compat; apply IZR_lt; [exact HN|]. by apply (Hpos l n).
    + unfold raw. destruct class_counts; [done | cbn; discriminate].
Qed.

(** X19. In exact arithmetic the rarer class gets the larger weight: of
    two classes of the training frame, the one with the strictly smaller
    count has the strictly larger normalized weight, and both weights are
    positive. *)
Theorem rarer_class_has_larger_weight (train_df : list example_row)
    (l1 l2 : string) (c1 c2 : Z) :
  (∀ row l, row ∈ train_df → label row = Some l → l ∈ brickkiln_labels) →
  (l1, c1) ∈ value_counts (map label train_df) →
  (l2, c2) ∈ value_counts (map label train_df) →
  c1 < c2 →
  ∃ (raw normed : odict Z R) (w1 w2 : R),
    class_weights label2idx_main train_df = Ok (raw, normed) ∧
    od_get (idx_of l1) normed = Some w1 ∧ od_get (idx_of l2) normed = Some w2 ∧
    (0 < w2 < w1)%R.
Proof.
  intros Hlabels H1 H2 Hlt.
  destruct (value_counts_facts (map label train_df)) as (Hnd & Hcounts & _).
  assert (Hne : train_df ≠ []).
  { intros ->. cbn in H1. by apply elem_of_nil in H1. }
  assert (Hlab : ∀ l, l ∈ map fst (value_counts (map label train_df)) →
                      l ∈ brickkiln_labels).
  { intros l Hl. apply list_elem_of_fmap in Hl as ([l' n] & -> & Hin). cbn.
    destruct (Hcounts l' n Hin) as [_ Hc].
    apply list_elem_of_fmap in Hc as (row & Hrow & Hin'). by apply (Hlabels row). }
  pose proof (class_weights_main_form train_df Hlabels Hne) as Hform.
  cbn zeta in Hform. rewrite Hform.
  destruct (raw_weights_exact_facts (value_counts (map label train_df)) Hnd Hlab)
    as (HN & Hraw_nd & HS).
  { intros l n Hin. by apply (Hcounts l n). }
  { intros Heq. rewrite Heq in H1. by apply elem_of_nil in H1. }
  set (N := foldr Z.add 0 (map snd (value_counts (map label train_df)))) in *.
  set (raw := map (λ ln : string * Z, (idx_of ln.1, s_div (s_of_Z N) (s_of_Z ln.2)))
                  (value_counts (map label train_df))) in *.
  assert (Hget : ∀ l c, (l, c) ∈ value_counts (map label train_df) →
                        od_get (idx_of l) raw = Some (IZR N / IZR c)%R).
  { intros l c Hin. apply od_get_NoDup; [exact Hraw_nd|].
    unfold raw. apply list_elem_of_fmap. by exists (l, c). }
  eexists raw, _, _, _. split; [reflexivity|]. split_and!.
  - apply od_get_normalize_weights_Some, (Hget l1 c1 H1).
  - apply od_get_normalize_weights_Some, (Hget l2 c2 H2).
  - apply Rdiv_lt_0_compat; [|exact HS].
    apply Rdiv_lt_0_compat; apply IZR_lt; [exact HN|]. by apply (Hcounts l2 c2).
  - assert (Hc1 : (0 < IZR c1)%R) by (apply IZR_lt; by apply (Hcounts l1 c1)).
    assert (Hc2 : (IZR c1 < IZR c2)%R) by (by apply IZR_lt).
    assert (HNR : (0 < IZR N)%R) by (by apply IZR_lt).
    apply Rmult_lt_compat_r; [by apply Rinv_0_lt_compat|].
    apply Rmult_lt_compat_l; [done|].
    apply Rinv_lt_contravar; [|done]. apply Rmult_lt_0_compat; lra.
Qed.

Lemma rarer_class_has_larger_weight_witness :
  ∃ (raw normed : odict Z R) (w1 w2 : R),
    class_weights label2idx_main kiln_frame = Ok (raw, normed) ∧
    od_get 1 normed = Some w1 ∧ od_get 0 normed = Some w2 ∧ (0 < w2 < w1)%R.
Proof.
  assert (Hvc : value_counts (map label kiln_frame)
                = [("not brick kiln", 800); ("brick kiln", 200)])
    by (vm_compute; reflexivity).
  apply (rarer_class_has_larger_weight kiln_frame "brick kiln" "not brick kiln" 200 800).
  - intros row l Hrow Hl. unfold kiln_frame in Hrow.
    apply elem_of_app in Hrow as [Hrow|Hrow];
      apply elem_of_replicate in Hrow as [-> _];
      injection Hl as <-; unfold brickkiln_labels.
    + apply list_elem_of_here.
    + apply list_elem_of_further, list_elem_of_here.
  - rewrite Hvc. apply list_elem_of_further, list_elem_of_here.
  - rewrite Hvc. apply list_elem_of_here.
  - lia.
Defined.

(** ** The statistics dictionary and the datasets of a run *)

Section RunStats.
Context {A : Type} `{Scalar A}.

Lemma accumulate_files_acc_len (n : nat) (fs : filesystem A) (fnames : list string)
    (acc : accum A) :
  acc_len n acc → acc_len n (accumulate_files fs fnames acc).1.
Proof.
  revert acc. induction fnames as [|fname rest IH]; intros acc Hacc; [done|].
  cbn [accumulate_files].
  destruct (try_file_skipped n fs fname acc Hacc) as [Hacc' _].
  destruct (try_file fs fname acc) as [acc' failure]. cbn in Hacc'.
  specialize (IH acc' Hacc').
  by destruct (accumulate_files fs rest acc').
Qed.

Lemma stats_rows_Band (names : list string) (s q : list A) (c : list Z) :
  length s = length names → length q = length names → length c = length names →
  map Band (stats_rows names s q c) = names.
Proof.
  revert s q c. induction names as [|b names IH]; intros [|si s] [|qi q] [|ci c] Hs Hq Hc;
    try discriminate; [done|].
  cbn [stats_rows map Band]. f_equal.
  apply IH; [by injection Hs | by injection Hq | by injection Hc].
Qed.

Lemma compute_band_stats_Band (fs : filesystem A) (df : list example_row)
    (names : list string) (table : list (band_row A)) (log : list (string * exn)) :
  compute_band_stats fs df names = Ok (table, log) → map Band table = names.
Proof.
  intros Hrun. destruct df as [|r df]; [discriminate|].
  rewrite compute_band_stats_Ok in Hrun by done. cbn zeta in Hrun.
  injection Hrun as <- _.
  destruct (accumulate_files_acc_len (length names) fs (map filename (r :: df)) _
              (zeros_acc_len (length names))) as (Hs & Hq & Hc).
  by apply stats_rows_Band.
Qed.

Lemma stats_dict_from (m : gmap string (band_stat A)) (table : list (band_row A))
    (name : string) :
  NoDup (map Band table) →
  fold_left (λ m row, <[Band row := {| mean := Mean row; std := Std row |}]> m) table m
    !! name
  = match list_find (λ row, Band row = name) table with
    | Some (_, row) => Some {| mean := Mean row; std := Std row |}
    | None => m !! name
    end.
Proof.
  revert m. induction table as [|r table IH]; intros m Hnd; [done|].
  cbn [map] in Hnd. apply NoDup_cons in Hnd as [Hr Hnd].
  cbn [fold_left list_find]. rewrite IH by done.
  destruct (decide (Band r = name)) as [<-|Hne].
  - destruct (list_find (λ row, Band row = Band r) table) as [[i r']|] eqn:Hfind.
    + apply list_find_Some in Hfind as (Hi & Heq & _).
      exfalso. apply Hr. rewrite <- Heq. apply list_elem_of_fmap. exists r'.
      split; [done|]. by eapply list_elem_of_lookup_2.
    + cbn. by rewrite lookup_insert_eq.
  - destruct (list_find (λ row, Band row = name) table) as [[i r']|]; [done|].
    cbn. by rewrite lookup_insert_ne.
Qed.

Lemma stats_dict_of_lookup (table : list (band_row A)) (i : nat) (r : band_row A) :
  NoDup (map Band table) → table !! i = Some r →
  stats_dict_of table !! Band r = Some {| mean := Mean r; std := Std r |}.
Proof.
  intros Hnd Hi. unfold stats_dict_of. rewrite stats_dict_from by done.
  destruct (list_find (λ row, Band row = Band r) table) as [[j r']|] eqn:Hfind.
  - apply list_find_Some in Hfind as (Hj & Heq & _).
    assert (i = j) as <-.
    { eapply NoDup_lookup; [exact Hnd| |]; rewrite list_lookup_fmap.
      - by rewrite Hi.
      - rewrite Hj. cbn. by rewrite Heq. }
    by assert (r' = r) as -> by congruence.
  - apply list_find_None in Hfind.
    exfalso. eapply Forall_lookup_1 in Hfind; [|exact Hi]. by apply Hfind.
Qed.

Lemma stats_dict_of_is_Some (table : list (band_row A)) (name : string) :
  NoDup (map Band table) →
  is_Some (stats_dict_of table !! name) ↔ name ∈ map Band table.
Proof.
  intros Hnd. unfold stats_dict_of. rewrite stats_dict_from by done.
  destruct (list_find (λ row, Band row = name) table) as [[j r']|] eqn:Hfind.
  - apply list_find_Some in Hfind as (Hj & <- & _). split; [|by eauto].
    intros _. apply list_elem_of_fmap. exists r'. split; [done|].
    by eapply list_elem_of_lookup_2.
  - rewrite lookup_empty. apply list_find_None in Hfind. split; [by intros [? ?]|].
    intros Hin. apply list_elem_of_fmap in Hin as (row & -> & Hrow).
    exfalso. by apply (proj1 (Forall_forall _ _) Hfind row).
Qed.

End RunStats.

Lemma band_names_NoDup : NoDup band_names.
Proof. apply (bool_decide_unpack _). vm_compute. exact I. Qed.

(** X20. In every completed run of [main] the table has thirteen rows,
    named by [band_names] in order, and the dictionary handed to the
    datasets has exactly those thirteen names as keys, each with the mean
    and the standard deviation of its own row. *)
Theorem main_stats_dict_keys {A : Type} `{Scalar A}
    (fs : filesystem A) (def_partition label_map : json_lists) (st : main_state A) :
  main fs def_partition label_map = Ok st →
  map Band (band_stats st) = band_names ∧
  (∀ name, is_Some (stats_dict st !! name) ↔ name ∈ band_names) ∧
  (∀ i row, band_stats st !! i = Some row →
     stats_dict st !! Band row = Some {| mean := Mean row; std := Std row |}).
Proof.
  intros Hmain.
  apply main_Ok_inv in Hmain
    as (tr & va & te & _ & _ & _ & _ & _ & _ & Hstats & Hdict & _).
  apply compute_band_stats_Band in Hstats.
  pose proof band_names_NoDup as Hnd. rewrite <- Hstats in Hnd.
  split_and!.
  - exact Hstats.
  - intros name. rewrite Hdict, <- Hstats. by apply stats_dict_of_is_Some.
  - intros i row Hi. rewrite Hdict. by apply (stats_dict_of_lookup _ i).
Qed.

Lemma main_stats_dict_keys_witness :
  ∃ st, main small_disk small_partition small_label_map = Ok st ∧
        map Band (band_stats st) = band_names ∧
        is_Some (stats_dict st !! "08 - NIR").
Proof.
  destruct (main small_disk small_partition small_label_map) as [st|e] eqn:Hmain;
    [|vm_compute in Hmain; discriminate].
  exists st. split; [reflexivity|].
  destruct (main_stats_dict_keys small_disk small_partition small_label_map st Hmain)
    as (Hbands & Hkeys & _).
  split; [exact Hbands|]. apply Hkeys. unfold band_names.
  do 7 apply list_elem_of_further. apply list_elem_of_here.
Defined.

Lemma label2idx_main_Some (l : string) :
  l ∈ brickkiln_labels → label2idx_main !! l = Some (idx_of l).
Proof.
  intros Hl. apply brickkiln_label_cases in Hl as [-> | ->]; reflexivity.
Qed.

(** X21. The data path of a completed run: for each of the three datasets
    that [setup] builds, a record that has a label and whose file opens
    with the thirteen band names as its keys, all naming datasets of one
    shape [H, W], is returned by [__getitem__] as an image of shape
    [13, H, W] together with the index of its label, 0 for "not brick kiln"
    and 1 for "brick kiln". *)
Theorem run_datasets_getitem {A : Type} `{Scalar A}
    (fs : filesystem A) (def_partition label_map : json_lists) (st : main_state A)
    (ds : GEOBenchMSIDataset A) (idx : nat) (row : example_row) (l : string)
    (f : h5file A) (H' W : nat) :
  main fs def_partition label_map = Ok st →
  ds = train_dataset (setup (data_module st)) ∨
  ds = val_dataset (setup (data_module st)) ∨
  ds = test_dataset (setup (data_module st)) →
  ds_df ds !! idx = Some row → label row = Some l →
  fs (filename row) = Some f → map fst f = band_names →
  Forall (λ entry, ∃ arr, entry.2 = Dataset arr ∧ plane_shape H' W arr) f →
  ∃ img, getitem fs ds idx = Ok (img, idx_of l) ∧ image_shape 13 H' W img ∧
         (l = "not brick kiln" ∨ l = "brick kiln").
Proof.
  intros Hmain Hds Hrow Hl Hopen Hkeys Hf.
  destruct (main_Ok_inv _ _ _ _ Hmain)
    as (tr & va & te & _ & _ & _ & Htrain & Hval & Htest & Hstats & Hdict & Hdm).
  apply compute_band_stats_Band in Hstats.
  pose proof band_names_NoDup as Hnd. rewrite <- Hstats in Hnd.
  assert (Hfields : ds_label2idx ds = label2idx_main ∧ ds_band_stats ds = stats_dict st ∧
                    ∃ split_name ids, ds_df ds
                      = build_frame split_name ids (invert_label_map label_map)).
  { rewrite Hdm in Hds. cbn in Hds. destruct Hds as [-> | [-> | ->]]; cbn;
      (split; [done|]; split; [done|]); eauto. }
  destruct Hfields as (Hl2i & Hbs & split_name & ids & Hdf).
  assert (Hlab : l ∈ brickkiln_labels).
  { apply (frame_labels_in_brickkiln label_map split_name ids row); [|done].
    rewrite <- Hdf. by eapply list_elem_of_lookup_2. }
  assert (Hlen : length f = 13%nat).
  { rewrite <- (length_map fst f), Hkeys. reflexivity. }
  destruct (getitem_Ok_well_formed fs ds idx row l (idx_of l) f H' W)
    as (img & Hget & Hshape & _); try done.
  - rewrite Hl2i. by apply label2idx_main_Some.
  - intros ->. discriminate Hlen.
  - apply Forall_forall. intros entry Hin.
    destruct (proj1 (Forall_forall _ _) Hf entry Hin) as (arr & Harr & Hplane).
    exists arr. split_and!; [done..|].
    rewrite Hbs, Hdict. apply stats_dict_of_is_Some; [done|].
    rewrite Hstats, <- Hkeys. apply list_elem_of_fmap. by exists entry.
  - exists img. rewrite Hlen in Hshape. split_and!; [done..|].
    by apply brickkiln_label_cases.
Qed.

Lemma run_datasets_getitem_witness :
  ∃ st img,
    main small_disk small_partition small_label_map = Ok st ∧
    getitem small_disk (val_dataset (setup (data_module st))) 0 = Ok (img, 0) ∧
    image_shape 13 1 1 img.
Proof.
  destruct (main small_disk small_partition small_label_map) as [st|e] eqn:Hmain;
    [|vm_compute in Hmain; discriminate].
  destruct (run_datasets_getitem small_disk small_partition small_label_map st
              (val_dataset (setup (data_module st))) 0
              {| image_id := "c"; filename := tile_path "c"; bands := n_bands;
                 split := "valid"; label := Some "not brick kiln" |}
              "not brick kiln" (constant_tile 5%float) 1 1 Hmain)
    as (img & Hget & Hshape & _).
  - right. by left.
  - destruct (main_Ok_inv _ _ _ _ Hmain)
      as (tr & va & te & _ & Hva & _ & _ & Hval & _ & _ & _ & Hdm).
    rewrite Hdm. cbn. rewrite Hval. injection Hva as <-. reflexivity.
  - reflexivity.
  - reflexivity.
  - reflexivity.
  - repeat (constructor; [eexists; split; [reflexivity|];
                          split; [reflexivity | by repeat constructor] |]).
    constructor.
  - exists st, img. by split_and!.
Defined.

(** ** The logits of the zero-shot head *)

Lemma fold_left_sumsq (v : list R) (a : R) :
  fold_left (λ acc x, acc + x * x)%R v a = (a + sum_R (map (λ x, x * x) v))%R.
Proof.
  unfold sum_R. revert a. induction v as [|x v IH]; intros a; cbn [fold_left map fold_right].
  - lra.
  - rewrite IH. lra.
Qed.

Lemma l2_norm_exact (v : list R) :
  l2_norm exact v = R_sqrt.sqrt (sum_R (map (λ x, x * x)%R v)).
Proof.
  unfold l2_norm. cbn [s_sqrt s_add s_mul s_of_Z exact].
  rewrite fold_left_sumsq. f_equal. lra.
Qed.

Lemma fold_left_dot (uv : list (R * R)) (a : R) :
  fold_left (λ acc ab, acc + ab.1 * ab.2)%R uv a
  = (a + sum_R (map (λ ab, ab.1 * ab.2) uv))%R.
Proof.
  unfold sum_R. revert a. induction uv as [|x uv IH]; intros a; cbn [fold_left map fold_right].
  - lra.
  - rewrite IH. lra.
Qed.

Lemma dot_exact (u v : list R) : dot exact u v = sum_R (zip_with Rmult u v).
Proof.
  unfold dot. cbn [s_add s_mul s_of_Z exact]. rewrite fold_left_dot.
  replace (map (λ ab : R * R, ab.1 * ab.2)%R (zip u v)) with (zip_with Rmult u v).
  - lra.
  - revert v. induction u as [|x u IH]; intros [|y v]; cbn; try done. by rewrite IH.
Qed.

Lemma sum_R_sq_nonneg (v : list R) : (0 <= sum_R (map (λ x, x * x) v))%R.
Proof.
  unfold sum_R. induction v as [|x v IH]; cbn [map fold_right]; [lra|].
  pose proof (Rle_0_sqr x) as Hx. unfold Rsqr in Hx. lra.
Qed.

Lemma sum_R_sq_pos (v : list R) : nonzero v → (0 < sum_R (map (λ x, x * x) v))%R.
Proof.
  unfold nonzero, sum_R. induction 1 as [x v Hx|x v _ IH]; cbn [map fold_right].
  - pose proof (sum_R_sq_nonneg v) as Hv. unfold sum_R in Hv.
    assert (0 < x * x)%R; [|lra].
    destruct (Rtotal_order x 0) as [?|[?|?]]; [nra|done|nra].
  - pose proof (Rle_0_sqr x) as Hx. unfold Rsqr in Hx. lra.
Qed.

(** The Cauchy-Schwarz inequality for two lists. *)
Lemma cauchy_schwarz (a b : list R) :
  (sum_R (zip_with Rmult a b) * sum_R (zip_with Rmult a b)
   <= sum_R (map (λ x, x * x) a) * sum_R (map (λ x, x * x) b))%R.
Proof.
  revert b. induction a as [|x a IH]; intros b.
  - unfold sum_R. cbn. lra.
  - destruct b as [|y b].
    + unfold sum_R at 1 2 4. cbn [zip_with map fold_right]. lra.
    + specialize (IH b).
      pose proof (sum_R_sq_nonneg a) as HA. pose proof (sum_R_sq_nonneg b) as HB.
      unfold sum_R in *. cbn [zip_with map fold_right].
      set (s := fold_right Rplus 0%R (zip_with Rmult a b)) in *.
      set (A := fold_right Rplus 0%R (map (λ x, x * x)%R a)) in *.
      set (B := fold_right Rplus 0%R (map (λ x, x * x)%R b)) in *.
      assert (Hmix : (2 * (x * y) * s <= x * x * B + A * (y * y))%R).
      { apply Rsqr_incr_0_var; [|nra]. unfold Rsqr.
        assert (H1 : (x * y * (x * y) * (s * s) <= x * y * (x * y) * (A * B))%R).
        { apply Rmult_le_compat_l; [|done].
          pose proof (Rle_0_sqr (x * y)) as Hxy. by unfold Rsqr in Hxy. }
        pose proof (Rle_0_sqr (x * x * B - A * (y * y))) as H2. unfold Rsqr in H2.
        lra. }
      lra.
Qed.

Lemma sum_R_zip_scale_l (k : R) (u v : list R) :
  sum_R (zip_with Rmult (map (λ x, x * k)%R u) v) = (sum_R (zip_with Rmult u v) * k)%R.
Proof.
  unfold sum_R. revert v. induction u as [|x u IH]; intros [|y v];
    cbn [map zip_with fold_right]; try lra.
  rewrite IH. lra.
Qed.

Lemma sum_R_zip_scale_r (k : R) (u v : list R) :
  sum_R (zip_with Rmult u (map (λ x, x * k)%R v)) = (sum_R (zip_with Rmult u v) * k)%R.
Proof.
  unfold sum_R. revert v. induction u as [|x u IH]; intros [|y v];
    cbn [map zip_with fold_right]; try lra.
  rewrite IH. lra.
Qed.

(** One logit: a hundred times the cosine of the two raw embeddings. *)
Lemma logit_exact (u t : list R) :
  nonzero u → nonzero t →
  let z := dot exact (map (s_mul (s_of_Z 100))
                          (map (λ x, s_div x (l2_norm exact u)) u))
                     (map (λ x, s_div x (l2_norm exact t)) t) in
  z = (100 * cosine u t)%R ∧ (-100 <= z <= 100)%R.
Proof.
  intros Hu Ht z. subst z.
  pose proof (sum_R_sq_pos u Hu) as HQu. pose proof (sum_R_sq_pos t Ht) as HQt.
  rewrite dot_exact, !l2_norm_exact. cbn [s_mul s_div s_of_Z exact].
  set (Qu := sum_R (map (λ x, x * x)%R u)) in *.
  set (Qt := sum_R (map (λ x, x * x)%R t)) in *.
  assert (Hnu : (0 < R_sqrt.sqrt Qu)%R) by (by apply sqrt_lt_R0).
  assert (Hnt : (0 < R_sqrt.sqrt Qt)%R) by (by apply sqrt_lt_R0).
  replace (map (Rmult 100) (map (λ x, x / R_sqrt.sqrt Qu)%R u))
    with (map (λ x, x * (100 / R_sqrt.sqrt Qu))%R u)
    by (rewrite List.map_map; apply map_ext; intros x; field; lra).
  replace (map (λ x, x / R_sqrt.sqrt Qt)%R t)
    with (map (λ x, x * (/ R_sqrt.sqrt Qt))%R t)
    by (apply map_ext; intros x; field; lra).
  rewrite sum_R_zip_scale_l, sum_R_zip_scale_r.
  set (P := sum_R (zip_with Rmult u t)).
  assert (Hcos : (P * / R_sqrt.sqrt Qt * (100 / R_sqrt.sqrt Qu) = 100 * cosine u t)%R).
  { unfold cosine. fold P Qu Qt. field. lra. }
  split; [exact Hcos|]. rewrite Hcos. unfold cosine. fold P Qu Qt.
  set (M := (R_sqrt.sqrt Qu * R_sqrt.sqrt Qt)%R).
  assert (HM : (0 < M)%R) by (by apply Rmult_lt_0_compat).
  assert (HPM : (P * P <= M * M)%R).
  { pose proof (cauchy_schwarz u t) as Hcs. fold P Qu Qt in Hcs.
    replace (M * M)%R with (Qu * Qt)%R; [done|].
    unfold M. rewrite <- (sqrt_sqrt Qu) at 1 by lra.
    rewrite <- (sqrt_sqrt Qt) at 1 by lra. ring. }
  assert (Hq : (P / M * M = P)%R) by (field; lra).
  assert (Hle : (-M <= P <= M)%R).
  { split.
    - apply Ropp_le_cancel. rewrite Ropp_involutive.
      apply Rsqr_incr_0_var; [|lra]. unfold Rsqr. lra.
    - apply Rsqr_incr_0_var; [|lra]. by unfold Rsqr. }
  split.
  - assert (-1 <= P / M)%R; [|lra].
    apply (Rmult_le_reg_r M); [done|]. rewrite Hq. lra.
  - assert (P / M <= 1)%R; [|lra].
    apply (Rmult_le_reg_r M); [done|]. rewrite Hq. lra.
Qed.

(** X22. In exact arithmetic the logits are a hundred times the cosine
    similarities: when the encoders return vectors that are not zero, every
    returned logit is one hundred times the cosine of the angle between the
    embedding of an adapted, resized and normalized image and the embedding
    of a class prompt, and so lies between -100 and 100. *)
Theorem logits_are_scaled_cosines (model : clip_model R)
    (adapter : list (image R) → result (list (image R))) (class_names : list string)
    (x : list (image R)) (logits : list (list R)) :
  (∀ input, Forall nonzero (encode_image model input)) →
  Forall nonzero (encode_text model (prompts class_names)) →
  predict_logits exact (CLIPWithMSIEmbedder_init exact model adapter class_names) x
    = Ok logits →
  ∃ x1 x2,
    adapter x = Ok x1 ∧ MSI_to_CLIP_preprocess exact model x1 = Ok x2 ∧
    Forall2 (λ u row,
               Forall2 (λ t z, z = (100 * cosine u t)%R ∧ (-100 <= z <= 100)%R)
                       (encode_text model (prompts class_names)) row)
            (encode_image model x2) logits.
Proof.
  intros Himg Htxt Hrun.
  unfold predict_logits, CLIP_forward, CLIPWithMSIEmbedder_init in Hrun.
  cbn [embedder clip text_features] in Hrun.
  destruct (adapter x) as [x1|] eqn:Hx1; [|discriminate]. cbn [bind] in Hrun.
  destruct (MSI_to_CLIP_preprocess exact model x1) as [x2|] eqn:Hx2; [|discriminate].
  cbn [bind] in Hrun. unfold matmul_T in Hrun.
  destruct (forallb _ _); [|discriminate]. injection Hrun as <-.
  exists x1, x2. split_and!; [done..|].
  specialize (Himg x2). unfold normalize_rows.
  rewrite !map_map.
  apply Forall2_fmap_r, Forall_Forall2_diag.
  eapply Forall_impl; [exact Himg|]. intros u Hu. unfold compose. cbn beta.
  rewrite map_map. apply Forall2_fmap_r, Forall_Forall2_diag.
  eapply Forall_impl; [exact Htxt|]. intros t Ht. cbn beta.
  by apply logit_exact.
Qed.

Lemma logits_are_scaled_cosines_witness :
  ∃ logits,
    predict_logits exact
      (CLIPWithMSIEmbedder_init exact stub_clip (λ x, Ok x) ["not brick kiln"; "brick kiln"])
      [[[[1%R]]; [[1%R]]; [[1%R]]]] = Ok logits ∧
    ∃ x1 x2,
      Ok [[[[1%R]]; [[1%R]]; [[1%R]]]] = Ok x1 ∧
      MSI_to_CLIP_preprocess exact stub_clip x1 = Ok x2 ∧
      Forall2 (λ u row,
                 Forall2 (λ t z, z = (100 * cosine u t)%R ∧ (-100 <= z <= 100)%R)
                         (encode_text stub_clip (prompts ["not brick kiln"; "brick kiln"]))
                         row)
              (encode_image stub_clip x2) logits.
Proof.
  eexists. split; [reflexivity|].
  refine (logits_are_scaled_cosines stub_clip (λ x, Ok x)
            ["not brick kiln"; "brick kiln"] [[[[1%R]]; [[1%R]]; [[1%R]]]] _ _ _ _).
  - intros input. cbn. apply Forall_fmap, Forall_forall. intros v _. cbn.
    apply Exists_cons_hd. lra.
  - cbn. repeat (constructor; [apply Exists_cons_hd; lra|]). constructor.
  - reflexivity.
Defined.

(** ** The features returned by [forward] *)

Lemma sum_R_sq_scaled (n : R) (v : list R) :
  n ≠ 0%R →
  sum_R (map (λ x, x * x)%R (map (λ x, x / n)%R v))
  = (sum_R (map (λ x, x * x)%R v) / (n * n))%R.
Proof.
  intros Hn. unfold sum_R. induction v as [|x v IH]; cbn [map fold_right].
  - field. done.
  - rewrite IH. field. done.
Qed.

Lemma normalized_row_unit (v : list R) :
  nonzero v → l2_norm exact (map (λ x, s_div x (l2_norm exact v)) v) = 1%R.
Proof.
  intros Hv. pose proof (sum_R_sq_pos v Hv) as Hpos.
  cbn [s_div exact]. rewrite (l2_norm_exact v).
  assert (R_sqrt.sqrt (sum_R (map (λ x, x * x)%R v)) ≠ 0%R) as Hn.
  { pose proof (sqrt_lt_R0 _ Hpos). lra. }
  rewrite l2_norm_exact, sum_R_sq_scaled by done.
  rewrite sqrt_sqrt by lra.
  set (Q := sum_R (map (λ x, x * x)%R v)) in *.
  replace (Q / Q)%R with 1%R by (field; lra).
  apply sqrt_1.
Qed.

(** X23. Over the reals, when the image encoder returns no zero vector,
    every feature row that [forward] returns has Euclidean norm one. *)
Theorem forward_features_unit_norm (model : clip_model R)
    (adapter : list (image R) → result (list (image R))) (class_names : list string)
    (x : list (image R)) (feats : list (list R)) :
  (∀ input, Forall nonzero (encode_image model input)) →
  CLIP_forward exact (CLIPWithMSIEmbedder_init exact model adapter class_names) x
    = Ok feats →
  Forall (λ v, l2_norm exact v = 1%R) feats.
Proof.
  intros Himg Hrun.
  unfold CLIP_forward, CLIPWithMSIEmbedder_init in Hrun.
  cbn [embedder clip] in Hrun.
  destruct (adapter x) as [x1|]; [|discriminate]. cbn [bind] in Hrun.
  destruct (MSI_to_CLIP_preprocess exact model x1) as [x2|]; [|discriminate].
  cbn [bind] in Hrun. injection Hrun as <-.
  unfold normalize_rows. apply Forall_fmap.
  eapply Forall_impl; [exact (Himg x2)|].
  intros v Hv. by apply normalized_row_unit.
Qed.

Lemma forward_features_unit_norm_witness :
  Forall (λ v, l2_norm exact v = 1%R)
         (normalize_rows exact (encode_image stub_clip [[[[1%R]]; [[1%R]]; [[1%R]]]])).
Proof.
  refine (forward_features_unit_norm stub_clip (λ x, Ok x)
            ["not brick kiln"; "brick kiln"] [[[[1%R]]; [[1%R]]; [[1%R]]]] _ _ _).
  - intros input. cbn. apply Forall_fmap, Forall_forall. intros v _. cbn.
    apply Exists_cons_hd. lra.
  - reflexivity.
Defined.

(** ** From the adapter to the normalization of CLIP *)

Section Pipeline.
Context {A : Type} (S : Scalar A).

Lemma T_Normalize_three_channels (sample : image A) :
  length sample = 3%nat → ∃ out, T_Normalize S sample = Ok out.
Proof.
  intros Hlen. unfold T_Normalize. rewrite bool_decide_eq_true_2 by done. by eexists.
Qed.

Lemma preprocess_three_channels (model : clip_model A) (B H W : nat) (x : list (image A)) :
  (∀ sample, length (resize_224 model sample) = length sample) →
  has_shape B 3 H W x →
  ∃ x2, MSI_to_CLIP_preprocess S model x = Ok x2.
Proof.
  intros Hresize [_ Hx]. unfold MSI_to_CLIP_preprocess.
  induction Hx as [|sample x [Hc _] _ [x2 IH]]; [by eexists|].
  destruct (T_Normalize_three_channels (resize_224 model sample)) as [out Hout].
  { by rewrite Hresize. }
  exists (out :: x2). cbn [mapM]. rewrite Hout. cbn [bind]. rewrite IH. done.
Qed.

Lemma T_Normalize_other_channels (sample : image A) :
  length sample ≠ 3%nat → T_Normalize S sample = Err RuntimeError.
Proof.
  intros Hlen. unfold T_Normalize. by rewrite bool_decide_eq_false_2.
Qed.

End Pipeline.

(** X24. The channel counts of the pipeline fit: for either wrapper built
    with 13 input channels and any parameter values, and a resize that keeps
    the channel count, [forward] on a batch of shape [B, 13, H, W] raises
    nothing, whereas the normalization of CLIP applied to such a batch
    without the adapter (B > 0) raises a RuntimeError. *)
Theorem wrappers_forward_on_13_channels {A : Type} (S : Scalar A) (model : clip_model A)
    (class_names : list string) (B H W : nat) (x : list (image A))
    (w : nat → nat → A) (b : nat → A)
    (w0 : nat → nat → A) (b0 : nat → A) (w2 : nat → nat → A) (b2 : nat → A) :
  (∀ sample, length (resize_224 model sample) = length sample) →
  has_shape B 13 H W x →
  (∃ feats, CLIP_forward S (CLIPWithMSIEmbedder1_init S model 13 w b class_names) x
            = Ok feats) ∧
  (∃ feats, CLIP_forward S (CLIPWithMSIEmbedder2_init S model 13 w0 b0 w2 b2 class_names) x
            = Ok feats) ∧
  ((0 < B)%nat → MSI_to_CLIP_preprocess S model x = Err RuntimeError).
Proof.
  intros Hresize Hx. split_and!.
  - unfold CLIP_forward, CLIPWithMSIEmbedder1_init, CLIPWithMSIEmbedder_init.
    cbn [embedder clip]. unfold MSIEmbedder1_forward, MSIEmbedder1_init. cbn [proj].
    destruct (Conv2d_forward_shape S B H W
                {| in_channels := 13; out_channels := 3; weight := w; bias := b |} x)
      as (y & -> & Hy); [cbn; lia|exact Hx|]. cbn [bind].
    destruct (preprocess_three_channels S model B H W y Hresize Hy) as [x2 ->].
    cbn [bind]. by eexists.
  - unfold CLIP_forward, CLIPWithMSIEmbedder2_init, CLIPWithMSIEmbedder_init.
    cbn [embedder clip]. unfold MSIEmbedder2_forward, MSIEmbedder2_init.
    cbn [proj2_0 proj2_2].
    destruct (Conv2d_forward_shape S B H W
                {| in_channels := 13; out_channels := 64; weight := w0; bias := b0 |} x)
      as (h & -> & Hh); [cbn; lia|exact Hx|]. cbn [bind].
    apply (ReLU_forward_shape S) in Hh.
    destruct (Conv2d_forward_shape S B H W
                {| in_channels := 64; out_channels := 3; weight := w2; bias := b2 |}
                (ReLU_forward S h))
      as (y & -> & Hy); [cbn; lia|exact Hh|]. cbn [bind].
    apply (ReLU_forward_shape S) in Hy.
    destruct (preprocess_three_channels S model B H W _ Hresize Hy) as [x2 ->].
    cbn [bind]. by eexists.
  - intros HB. destruct Hx as [Hlen Hx].
    destruct Hx as [|sample x [Hc _] _]; [cbn in Hlen; lia|].
    unfold MSI_to_CLIP_preprocess. cbn [mapM].
    rewrite T_Normalize_other_channels; [done|]. rewrite Hresize, Hc. lia.
Qed.

Lemma wrappers_forward_on_13_channels_witness :
  (∃ feats, CLIP_forward exact
              (CLIPWithMSIEmbedder1_init exact stub_clip 13 (λ _ _, 1%R) (λ _, 0%R)
                 ["not brick kiln"; "brick kiln"])
              [replicate 13 [[1%R]]] = Ok feats) ∧
  (∃ feats, CLIP_forward exact
              (CLIPWithMSIEmbedder2_init exact stub_clip 13 (λ _ _, 1%R) (λ _, 0%R)
                 (λ _ _, 1%R) (λ _, 0%R) ["not brick kiln"; "brick kiln"])
              [replicate 13 [[1%R]]] = Ok feats) ∧
  ((0 < 1)%nat → MSI_to_CLIP_preprocess exact stub_clip [replicate 13 [[1%R]]]
                 = Err RuntimeError).
Proof.
  apply (wrappers_forward_on_13_channels exact stub_clip ["not brick kiln"; "brick kiln"]
           1 1 1 [replicate 13 [[1%R]]]).
  - reflexivity.
  - split; [reflexivity|]. constructor; [|constructor].
    split; [reflexivity|]. cbn. repeat constructor.
Defined.
